(** * ReleaseLens: the document-template synthesis engine

    A shallow embedding of the Word-export path of ReleaseLens: the
    finding parsers and markup builders of [buildScopeXml], the style
    resolver [detectTemplateStyles], the injection-point search
    [findInjectionBounds], the cover-title patch [updateCoverTitle] and the
    archive rewriting of [exportWithTemplate], together with the row parser
    of the docx-library exporter [buildDeprecated].

    JavaScript strings are sequences of UTF-16 code units; they are modelled
    as [list N].  Indices returned by [indexOf], [lastIndexOf] and [search]
    are [Z] because the code relies on the value [-1] and on the way
    [slice] reads negative positions.  An async function is a function into
    [result]: a rejected promise is [Throw].  What the code takes from the
    browser and from the archive library is a record [Host].

    The first part holds the definitions, in the order of the source; the
    second part the properties: the matcher, the finding parsers, style
    resolution, the markup, the injection and the archive.

    The definitions go on with what surrounds the export: the text sent to
    the model and the bullets read back ([prepareDocText], [parseBullets],
    [deduplicateBullets]), the selection of scopes and the loop of
    [runAnalysis], the plain-text report [exportToTxt] and the colour helper
    of the docx exporter; their properties follow those of the export. *)

From Stdlib Require Import ZArith NArith List String Ascii Lia Bool DecimalString.
From stdpp Require Import gmap.

Local Open Scope Z_scope.

(** ** JavaScript strings *)

Module JS.

Definition jsstring := list N.

(** Decoding of the UTF-8 bytes of a literal of this file into UTF-16 code
    units (all literals of the modelled code are in the Basic Multilingual
    Plane, so one to three bytes per unit). *)
Fixpoint utf8_units (l : list N) : jsstring :=
  match l with
  | [] => []
  | b0 :: t =>
      if (b0 <? 128)%N then b0 :: utf8_units t
      else if (b0 <? 224)%N then
        match t with
        | b1 :: t' => ((b0 - 192) * 64 + (b1 - 128))%N :: utf8_units t'
        | [] => []
        end
      else
        match t with
        | b1 :: b2 :: t' =>
            ((b0 - 224) * 4096 + (b1 - 128) * 64 + (b2 - 128))%N :: utf8_units t'
        | _ => []
        end
  end.

Definition u16 (s : string) : jsstring :=
  utf8_units (map N_of_ascii (list_ascii_of_string s)).
Arguments u16 s%_string.

(** The double quote, kept apart from the literals. *)
Definition DQ : jsstring := [34%N].

Definition jslen (s : jsstring) : Z := Z.of_nat (length s).

Definition str_eqb (a b : jsstring) : bool := bool_decide (a = b).

(** [isPrefix p s]: [s] starts with [p] (String.prototype.startsWith). *)
Fixpoint isPrefix (p s : jsstring) : bool :=
  match p, s with
  | [], _ => true
  | _ :: _, [] => false
  | a :: p', b :: s' => (a =? b)%N && isPrefix p' s'
  end.

Definition startsWith (s p : jsstring) : bool := isPrefix p s.

(** Relative index of [slice]: negative positions count from the end. *)
Definition relIndex (n i : Z) : Z :=
  if i <? 0 then Z.max (n + i) 0 else Z.min i n.

(** String.prototype.slice(start, end). *)
Definition slice (s : jsstring) (start stop : Z) : jsstring :=
  let from := relIndex (jslen s) start in
  let to := relIndex (jslen s) stop in
  take (Z.to_nat (to - from)) (drop (Z.to_nat from) s).

(** String.prototype.slice(start). *)
Definition sliceFrom (s : jsstring) (start : Z) : jsstring :=
  slice s start (jslen s).

(** String.prototype.indexOf(p): the scan from position [off]. *)
Fixpoint indexOfAux (p s : jsstring) (off : Z) : Z :=
  if isPrefix p s then off
  else match s with
       | [] => -1
       | _ :: t => indexOfAux p t (off + 1)
       end.

Definition indexOf (s p : jsstring) : Z := indexOfAux p s 0.

(** String.prototype.indexOf(p, from). *)
Definition indexOfFrom (s p : jsstring) (from : Z) : Z :=
  let k := Z.min (Z.max from 0) (jslen s) in
  indexOfAux p (drop (Z.to_nat k) s) k.

(** String.prototype.lastIndexOf(p, pos): candidates are tried from the
    clamped position downwards. *)
Fixpoint lastIndexDown (p s : jsstring) (n : nat) : Z :=
  if isPrefix p (drop n s) then Z.of_nat n
  else match n with
       | O => -1
       | S n' => lastIndexDown p s n'
       end.

Definition lastIndexOfFrom (s p : jsstring) (pos : Z) : Z :=
  lastIndexDown p s (Z.to_nat (Z.min (Z.max pos 0) (jslen s))).

Definition lastIndexOf (s p : jsstring) : Z :=
  lastIndexDown p s (length s).

(** WhiteSpace and LineTerminator code units (the set stripped by [trim]
    and matched by the class escape of white space). *)
Definition isWhite (c : N) : bool :=
  ((c =? 9) || (c =? 10) || (c =? 11) || (c =? 12) || (c =? 13) || (c =? 32)
   || (c =? 160) || (c =? 5760) || ((8192 <=? c) && (c <=? 8202))
   || (c =? 8232) || (c =? 8233) || (c =? 8239) || (c =? 8287)
   || (c =? 12288) || (c =? 65279))%N.

Fixpoint trimStart (s : jsstring) : jsstring :=
  match s with
  | c :: t => if isWhite c then trimStart t else s
  | [] => []
  end.

Definition trimEnd (s : jsstring) : jsstring := rev (trimStart (rev s)).

Definition trim (s : jsstring) : jsstring := trimEnd (trimStart s).

Definition isAsciiLower (c : N) : bool := ((97 <=? c) && (c <=? 122))%N.
Definition isAsciiUpper (c : N) : bool := ((65 <=? c) && (c <=? 90))%N.
Definition asciiUp (c : N) : N := if isAsciiLower c then (c - 32)%N else c.
Definition asciiDown (c : N) : N := if isAsciiUpper c then (c + 32)%N else c.
Definition isAscii (c : N) : bool := (c <? 128)%N.

(** Array.prototype.join. *)
Fixpoint join (sep : jsstring) (l : list jsstring) : jsstring :=
  match l with
  | [] => []
  | [a] => a
  | a :: t => a ++ sep ++ join sep t
  end.

(** The operator [||] on a string operand: the empty string is falsy. *)
Definition orElse (a b : jsstring) : jsstring :=
  match a with [] => b | _ => a end.

(** The operator [||] when the left operand may be [undefined]. *)
Definition orElseU (a : option jsstring) (b : jsstring) : jsstring :=
  match a with Some (c :: t) => c :: t | _ => b end.

End JS.
Export JS.


(** ** Regular expressions

    The patterns of the code are built with [new RegExp(...)] and run by the
    host's backtracking matcher.  [regex] is the syntax of the patterns the
    code uses; [m r x] lists the end states of the matches of [r] from the
    state [x] in the matcher's priority order, so that its head is the match
    the host returns.  (The fragment has no look-around and no
    back-reference, for which the first success of the backtracking search
    is the first element of this list.) *)

Module RegExp.

Inductive citem : Type :=
| CRange (lo hi : N)        (* a single character is a range of one *)
| CWhite                    (* the escape for white space *)
| CNotWhite.                (* the escape for non white space *)

Inductive regex : Type :=
| Lit (l : jsstring)                                  (* pattern characters *)
| Cls (neg : bool) (items : list citem)               (* [...] and [^...] *)
| Dot                                                 (* . *)
| Bol                                                 (* ^ *)
| Eol                                                 (* $ *)
| WordB                                               (* the word boundary *)
| Seq (r1 r2 : regex)
| Alt (r1 r2 : regex)                                 (* r1|r2 *)
| Rep (mn : nat) (mx : option nat) (greedy : bool) (r : regex)
| Grp (i : nat) (r : regex).                          (* i-th capture group *)

Definition Star (r : regex) : regex := Rep 0 None true r.
Definition LazyStar (r : regex) : regex := Rep 0 None false r.
Definition Plus (r : regex) : regex := Rep 1 None true r.
Definition Chr (c : N) : regex := Lit [c].
Definition CChar (c : N) : citem := CRange c c.

Record mstate : Type := MState {
  pos : nat;                              (* endIndex *)
  caps : list (nat * (nat * nat))         (* group |-> (start, end) *)
}.

Definition advance (x : mstate) (k : nat) : mstate :=
  MState (pos x + k) (caps x).

Definition setCap (i : nat) (a b : nat) (x : mstate) : mstate :=
  MState (pos x) ((i, (a, b)) :: List.filter (fun e => negb (Nat.eqb (fst e) i)) (caps x)).

Definition clearCaps (gs : list nat) (x : mstate) : mstate :=
  MState (pos x) (List.filter (fun e => negb (existsb (Nat.eqb (fst e)) gs)) (caps x)).

Fixpoint getCap (i : nat) (l : list (nat * (nat * nat))) : option (nat * nat) :=
  match l with
  | [] => None
  | (j, se) :: t => if Nat.eqb i j then Some se else getCap i t
  end.

(** The capture groups inside a pattern (reset at each iteration of a
    quantifier around them). *)
Fixpoint groups (r : regex) : list nat :=
  match r with
  | Seq r1 r2 | Alt r1 r2 => groups r1 ++ groups r2
  | Rep _ _ _ r' => groups r'
  | Grp i r' => i :: groups r'
  | _ => []
  end.

Definition isLineTerminator (c : N) : bool :=
  ((c =? 10) || (c =? 13) || (c =? 8232) || (c =? 8233))%N.

Definition isWordChar (c : N) : bool :=
  (isAsciiLower c || isAsciiUpper c || ((48 <=? c) && (c <=? 57)) || (c =? 95))%N.

(** Canonicalize of the flag [i] without the flag [u]: a code unit outside
    ASCII is never identified with an ASCII one, and every pattern the code
    compiles with [i] is ASCII, so only the ASCII letters are folded. *)
Definition canon (ic : bool) (c : N) : N := if ic then asciiUp c else c.

Definition inRange (lo hi c : N) : bool := ((lo <=? c) && (c <=? hi))%N.

Definition inItem (ic : bool) (it : citem) (c : N) : bool :=
  match it with
  | CRange lo hi =>
      inRange lo hi c || (ic && (inRange lo hi (asciiUp c) || inRange lo hi (asciiDown c)))
  | CWhite => isWhite c
  | CNotWhite => negb (isWhite c)
  end.

Definition inClass (ic : bool) (neg : bool) (items : list citem) (c : N) : bool :=
  xorb neg (existsb (fun it => inItem ic it c) items).

Fixpoint litMatch (ic : bool) (l s : jsstring) : bool :=
  match l, s with
  | [], _ => true
  | _ :: _, [] => false
  | a :: l', b :: s' => (canon ic a =? canon ic b)%N && litMatch ic l' s'
  end.

(** RepeatMatcher: [mr] is the matcher of the quantified atom, [reset]
    clears its groups.  An iteration that matches the empty string once the
    minimum is reached is rejected, so every further iteration consumes
    input and [fuel] (the minimum plus the input left, plus one) is never
    used up. *)
Fixpoint repLoop (mr : mstate -> list mstate) (reset : mstate -> mstate)
    (fuel mn : nat) (mx : option nat) (greedy : bool) (x : mstate) : list mstate :=
  match fuel with
  | O => []
  | S f =>
      match mx with
      | Some O => [x]
      | _ =>
          let iter :=
            flat_map (fun y =>
                        if Nat.eqb mn 0 && Nat.eqb (pos y) (pos x) then []
                        else repLoop mr reset f (Nat.pred mn) (Nat.pred <$> mx) greedy y)
                     (mr (reset x)) in
          match mn with
          | S _ => iter
          | O => if greedy then iter ++ [x] else x :: iter
          end
      end
  end.

Section Matcher.
Variable ic : bool.        (* the flag i *)
Variable s : jsstring.     (* the input *)

Definition wordAt (i : nat) : bool :=
  match s !! i with Some c => isWordChar c | None => false end.

Definition wordBefore (i : nat) : bool :=
  match i with O => false | S j => wordAt j end.

Fixpoint m (r : regex) (x : mstate) : list mstate :=
  match r with
  | Lit l => if litMatch ic l (drop (pos x) s) then [advance x (length l)] else []
  | Cls neg items =>
      match s !! pos x with
      | Some c => if inClass ic neg items c then [advance x 1] else []
      | None => []
      end
  | Dot =>
      match s !! pos x with
      | Some c => if isLineTerminator c then [] else [advance x 1]
      | None => []
      end
  | Bol => if Nat.eqb (pos x) 0 then [x] else []
  | Eol => if Nat.eqb (pos x) (length s) then [x] else []
  | WordB => if xorb (wordBefore (pos x)) (wordAt (pos x)) then [x] else []
  | Seq r1 r2 => flat_map (m r2) (m r1 x)
  | Alt r1 r2 => m r1 x ++ m r2 x
  | Rep mn mx g r' =>
      repLoop (m r') (clearCaps (groups r')) (mn + (length s - pos x) + 1) mn mx g x
  | Grp i r' => map (fun y => setCap i (pos x) (pos y) y) (m r' x)
  end.

(** The match attempted at position [q] only. *)
Definition matchAt (r : regex) (q : nat) : option mstate :=
  head (m r (MState q [])).

(** RegExpBuiltinExec: the candidates [q], [q+1], ... ([n] of them). *)
Fixpoint scan (r : regex) (n q : nat) : option (nat * mstate) :=
  match n with
  | O => None
  | S n' =>
      match matchAt r q with
      | Some y => Some (q, y)
      | None => scan r n' (S q)
      end
  end.

Definition execFrom (r : regex) (i : nat) : option (nat * mstate) :=
  scan r (S (length s) - i) i.

Definition exec (r : regex) : option (nat * mstate) := execFrom r 0.

Definition substr (a b : nat) : jsstring := take (b - a) (drop a s).

(** The text of the [i]-th group of a match ([undefined] is [None]). *)
Definition capture (y : mstate) (i : nat) : option jsstring :=
  match getCap i (caps y) with
  | Some (a, b) => Some (substr a b)
  | None => None
  end.

Definition test (r : regex) : bool :=
  match exec r with Some _ => true | None => false end.

Definition search (r : regex) : Z :=
  match exec r with Some (q, _) => Z.of_nat q | None => -1 end.

(** [s.replace(r, repl)] without the flag g.  No replacement text of the
    code contains a dollar sign, so [repl] is inserted as it is. *)
Definition replaceFirst (r : regex) (repl : jsstring) : jsstring :=
  match exec r with
  | Some (q, y) => take q s ++ repl ++ drop (pos y) s
  | None => s
  end.

(** [s.replace(r, repl)] with the flag g: [i] is lastIndex, [last] the
    end of the previous match; an empty match advances lastIndex by one. *)
Fixpoint replaceLoop (r : regex) (repl : jsstring) (fuel i last : nat) : jsstring :=
  match fuel with
  | O => drop last s
  | S f =>
      match execFrom r i with
      | None => drop last s
      | Some (q, y) =>
          let e := pos y in
          substr last q ++ repl
            ++ replaceLoop r repl f (if Nat.eqb e q then S e else e) e
      end
  end.

Definition replaceAll (r : regex) (repl : jsstring) : jsstring :=
  replaceLoop r repl (S (S (length s))) 0 0.

(** [s.split(r)]: [p] is the start of the pending segment, [q] the
    position tried.  The patterns the code splits on have no capture
    group, so no capture is spliced into the result. *)
Fixpoint splitLoop (r : regex) (fuel p q : nat) : list jsstring :=
  match fuel with
  | O => [drop p s]
  | S f =>
      if Nat.leb (length s) q then [drop p s]
      else
        match matchAt r q with
        | None => splitLoop r f p (S q)
        | Some y =>
            let e := Nat.min (pos y) (length s) in
            if Nat.eqb e p then splitLoop r f p (S q)
            else substr p q :: splitLoop r f e e
        end
  end.

Definition split (r : regex) : list jsstring :=
  match s with
  | [] => match matchAt r 0 with Some _ => [] | None => [s] end
  | _ => splitLoop r (S (2 * length s)%nat) 0 0
  end.

End Matcher.

End RegExp.
Export RegExp.


(** ** Host environment

    What the code takes from the browser and from the JSZip library:
    case conversion of text outside ASCII, the UTF-8 codec of archive
    entries, the opening and the serialisation of an archive, the clock and
    the embedded default template. *)

Definition bytes := list N.

Record Host : Type := {
  hostUpper : jsstring -> jsstring;
  hostLower : jsstring -> jsstring;
  utf8decode : bytes -> jsstring;                 (* entry.async("string") *)
  utf8encode : jsstring -> bytes;                 (* zip.file(path, text) *)
  loadAsync : bytes -> option (gmap jsstring bytes);   (* None: the promise rejects *)
  generateAsync : gmap jsstring bytes -> bytes;
  isoDate : jsstring;                             (* new Date().toISOString() *)
  defaultTemplate : bytes                         (* DEFAULT_TEMPLATE_B64, decoded *)
}.

(** toUpperCase and toLowerCase: on ASCII text they fold the letters, other
    text is left to the host's Unicode tables. *)
Definition toUpperCase (h : Host) (t : jsstring) : jsstring :=
  if forallb isAscii t then map asciiUp t else hostUpper h t.

Definition toLowerCase (h : Host) (t : jsstring) : jsstring :=
  if forallb isAscii t then map asciiDown t else hostLower h t.

(** Exceptions of an async function: a rejected promise. *)
Inductive error : Type :=
| ArchiveError      (* JSZip.loadAsync rejects: the bytes are not a ZIP archive *)
| TypeError.        (* a property of undefined is read *)

Inductive result (A : Type) : Type :=
| Ok (a : A)
| Throw (e : error).
Arguments Ok {A} a.
Arguments Throw {A} e.

Definition bind {A B : Type} (r : result A) (k : A -> result B) : result B :=
  match r with
  | Ok a => k a
  | Throw e => Throw e
  end.

Notation "'let*' x ':=' r 'in' k" := (bind r (fun x => k))
  (at level 10, x pattern, r at level 200, k at level 200).

(** ** Style maps *)

Record StyleMap : Type := {
  h1 : jsstring; h2 : jsstring; body : jsstring; bullet : jsstring;
  tableHeader : jsstring; tableText : jsstring; tableGrid : jsstring;
  fill : jsstring
}.

Definition DEFAULT_STYLES : StyleMap := {|
  h1 := u16 "Heading1"; h2 := u16 "Heading2"; body := u16 "BodyText";
  bullet := u16 "ListBullet"; tableHeader := u16 "TableHeader";
  tableText := u16 "TableText"; tableGrid := u16 "TableGrid";
  fill := u16 "0073E6"
|}.

(** *** The object [map] of detectTemplateStyles

    A plain object enumerates its integer-like keys first, in increasing
    order, then the other keys in insertion order; writing an existing key
    keeps its place; writing a string to [__proto__] has no effect. *)

Definition jsobject := list (jsstring * jsstring).

Definition isDigit (c : N) : bool := ((48 <=? c) && (c <=? 57))%N.

Definition digitsValue (k : jsstring) : N :=
  fold_left (fun acc c => (acc * 10 + (c - 48))%N) k 0%N.

(** The array index a key denotes, if it is a canonical numeric string
    below 2^32 - 1. *)
Definition arrayIndex (k : jsstring) : option N :=
  match k with
  | [] => None
  | c :: t =>
      if forallb isDigit k && (negb (c =? 48)%N || match t with [] => true | _ => false end)
         && Nat.leb (length k) 10 && (digitsValue k <? 4294967295)%N
      then Some (digitsValue k) else None
  end.

Fixpoint objHas (o : jsobject) (k : jsstring) : bool :=
  match o with
  | [] => false
  | (k', _) :: t => str_eqb k' k || objHas t k
  end.

Fixpoint objReplace (o : jsobject) (k v : jsstring) : jsobject :=
  match o with
  | [] => []
  | (k', v') :: t => if str_eqb k' k then (k', v) :: t else (k', v') :: objReplace t k v
  end.

Fixpoint objInsertIndex (o : jsobject) (n : N) (k v : jsstring) : jsobject :=
  match o with
  | [] => [(k, v)]
  | (k', v') :: t =>
      match arrayIndex k' with
      | Some n' => if (n' <? n)%N then (k', v') :: objInsertIndex t n k v
                   else (k, v) :: o
      | None => (k, v) :: o
      end
  end.

Definition objSet (o : jsobject) (k v : jsstring) : jsobject :=
  if str_eqb k (u16 "__proto__") then o
  else if objHas o k then objReplace o k v
  else match arrayIndex k with
       | Some n => objInsertIndex o n k v
       | None => o ++ [(k, v)]
       end.

(** *** Patterns of the style resolver

    All of them are written with doubled backslashes in the source, so the
    escapes reach the matcher.  In the comments that quote a pattern, Q
    stands for the double quote. *)

Definition notChar (c : N) : regex := Cls true [CChar c].
Definition anyChar : regex := Cls false [CWhite; CNotWhite].
Definition white : regex := Cls false [CWhite].

(* <w:style\b[^>]*w:styleId=Q([^Q]+)Q[^>]*>([\s\S]*?)<\/w:style> *)
Definition reStyle : regex :=
  Seq (Lit (u16 "<w:style")) (Seq WordB (Seq (Star (notChar 62))
  (Seq (Lit (u16 "w:styleId=" ++ DQ)) (Seq (Grp 1 (Plus (notChar 34)))
  (Seq (Lit DQ) (Seq (Star (notChar 62)) (Seq (Lit (u16 ">"))
  (Seq (Grp 2 (LazyStar anyChar)) (Lit (u16 "</w:style>")))))))))).

(* <w:name\b[^>]*w:val=Q([^Q]+)Q *)
Definition reName : regex :=
  Seq (Lit (u16 "<w:name")) (Seq WordB (Seq (Star (notChar 62))
  (Seq (Lit (u16 "w:val=" ++ DQ)) (Seq (Grp 1 (Plus (notChar 34))) (Lit DQ))))).

Definition hexDigit : regex :=
  Cls false [CRange 48 57; CRange 65 70; CRange 97 102].

(* w:fill=Q([0-9A-Fa-f]{6})Q *)
Definition reFill : regex :=
  Seq (Lit (u16 "w:fill=" ++ DQ)) (Seq (Grp 1 (Rep 6 (Some 6%nat) true hexDigit)) (Lit DQ)).

Definition rH1 : regex := Seq Bol (Seq (Lit (u16 "heading")) (Seq (Star white) (Seq (Lit (u16 "1")) Eol))).
Definition rH2 : regex := Seq Bol (Seq (Lit (u16 "heading")) (Seq (Star white) (Seq (Lit (u16 "2")) Eol))).
Definition rBody : regex := Seq Bol (Lit (u16 "body")).
Definition rBul : regex := Seq Bol (Seq (Lit (u16 "list")) (Seq (Star white) (Lit (u16 "bullet")))).
Definition rTH : regex := Seq Bol (Seq (Lit (u16 "table")) (Seq (Star white) (Lit (u16 "head")))).
Definition rTHid : regex := Seq Bol (Lit (u16 "tableheader")).
Definition rTT : regex := Seq Bol (Seq (Lit (u16 "table")) (Seq (Star white) (Lit (u16 "text")))).
Definition rTTid : regex := Seq Bol (Lit (u16 "tabletext")).
Definition rTG : regex := Seq Bol (Seq (Lit (u16 "table")) (Seq (Star white) (Lit (u16 "grid")))).

(** A rule of [pick]: a name to equal or a pattern to test. *)
Inductive pat : Type :=
| PStr (t : jsstring)
| PRe (r : regex).

Definition patMatches (name : jsstring) (p : pat) : bool :=
  match p with
  | PStr t => str_eqb name t
  | PRe r => test false name r
  end.

(** [pick]: the first entry, in enumeration order, one of whose rules
    matches; [None] is null. *)
Fixpoint pick (o : jsobject) (pats : list pat) : option jsstring :=
  match o with
  | [] => None
  | (id, name) :: t => if existsb (patMatches name) pats then Some id else pick t pats
  end.

(** The loop [while ((m = re.exec(xml)) !== null)] with the flag g: [i] is
    lastIndex.  A match of [reStyle] is never empty, so lastIndex grows at
    each turn and [fuel] (the length of [xml] plus one) is not used up. *)
Fixpoint scanStyles (h : Host) (xml : jsstring) (fuel i : nat) (o : jsobject) : jsobject :=
  match fuel with
  | O => o
  | S f =>
      match execFrom false xml reStyle i with
      | None => o
      | Some (_, y) =>
          let inner := default [] (capture xml y 2) in
          let nm :=
            orElseU (match exec false inner reName with
                     | Some (_, yn) => capture inner yn 1
                     | None => None
                     end) [] in
          scanStyles h xml f (pos y)
            (objSet o (default [] (capture xml y 1)) (trim (toLowerCase h nm)))
      end
  end.

Definition stylesPath : jsstring := u16 "word/styles.xml".
Definition documentPath : jsstring := u16 "word/document.xml".

(** The accent colour: the first fill attribute of the main document part,
    upper-cased, else the default one. *)
Definition detectFill (h : Host) (zip : gmap jsstring bytes) : jsstring :=
  match zip !! documentPath with
  | Some raw =>
      let d := utf8decode h raw in
      match exec false d reFill with
      | Some (_, y) =>
          match capture d y 1 with
          | Some c => toUpperCase h c
          | None => fill DEFAULT_STYLES
          end
      | None => fill DEFAULT_STYLES
      end
  | None => fill DEFAULT_STYLES
  end.

(** The style map of an opened archive (the body of detectTemplateStyles
    after [loadAsync]). *)
Definition stylesOfArchive (h : Host) (zip : gmap jsstring bytes) : StyleMap :=
  match zip !! stylesPath with
  | None => DEFAULT_STYLES
  | Some raw =>
      let xml := utf8decode h raw in
      let o := scanStyles h xml (S (length xml)) 0 [] in
      {| h1 := orElseU (pick o [PStr (u16 "heading 1"); PRe rH1]) (h1 DEFAULT_STYLES);
         h2 := orElseU (pick o [PStr (u16 "heading 2"); PRe rH2]) (h2 DEFAULT_STYLES);
         body := orElseU (pick o [PStr (u16 "body text"); PStr (u16 "bodytext"); PRe rBody])
                         (body DEFAULT_STYLES);
         bullet := orElseU (pick o [PStr (u16 "list bullet"); PRe rBul]) (bullet DEFAULT_STYLES);
         tableHeader := orElseU (pick o [PStr (u16 "table header"); PRe rTHid; PRe rTH])
                                (tableHeader DEFAULT_STYLES);
         tableText := orElseU (pick o [PStr (u16 "table text"); PRe rTTid; PRe rTT])
                              (tableText DEFAULT_STYLES);
         tableGrid := orElseU (pick o [PStr (u16 "table grid"); PRe rTG; PStr (u16 "normal table")])
                              (tableGrid DEFAULT_STYLES);
         fill := detectFill h zip |}
  end.

Definition detectTemplateStyles (h : Host) (buf : bytes) : result StyleMap :=
  match loadAsync h buf with
  | None => Throw ArchiveError
  | Some zip => Ok (stylesOfArchive h zip)
  end.


(** ** XML helpers *)

(** xmlEsc: four global replacements in a row. *)
Definition xmlEsc (t : jsstring) : jsstring :=
  let t1 := replaceAll false t (Lit (u16 "&")) (u16 "&amp;") in
  let t2 := replaceAll false t1 (Lit (u16 "<")) (u16 "&lt;") in
  let t3 := replaceAll false t2 (Lit (u16 ">")) (u16 "&gt;") in
  replaceAll false t3 (Lit DQ) (u16 "&quot;").

(** The paragraph template shared by xmlH1, xmlH2, xmlBody and xmlBullet. *)
Definition styledPara (style text : jsstring) : jsstring :=
  u16 "<w:p><w:pPr><w:pStyle w:val=" ++ DQ ++ style ++ DQ ++ u16 "/></w:pPr><w:r><w:t xml:space="
    ++ DQ ++ u16 "preserve" ++ DQ ++ u16 ">" ++ xmlEsc text ++ u16 "</w:t></w:r></w:p>".

Definition xmlH1 (text : jsstring) (st : StyleMap) : jsstring := styledPara (h1 st) text.
Definition xmlH2 (text : jsstring) (st : StyleMap) : jsstring := styledPara (h2 st) text.
Definition xmlBody (text : jsstring) (st : StyleMap) : jsstring := styledPara (body st) text.
Definition xmlBullet (text : jsstring) (st : StyleMap) : jsstring := styledPara (bullet st) text.

Definition xmlSpacer (st : StyleMap) : jsstring :=
  u16 "<w:p><w:pPr><w:pStyle w:val=" ++ DQ ++ body st ++ DQ ++ u16 "/></w:pPr></w:p>".

(** Decimal text of a number of a template literal. *)
Definition numText (n : N) : jsstring :=
  u16 (NilZero.string_of_uint (N.to_uint n)).

Record col : Type := { col_label : jsstring; col_w : N }.

(** The code calls xmlTable3 with three columns and with rows of three
    cells only; the types of the model record it. *)
Definition cols3 : Type := (col * col * col)%type.
Definition row3 : Type := (jsstring * jsstring * jsstring)%type.

Definition colsList (cols : cols3) : list col :=
  let '(c0, c1, c2) := cols in [c0; c1; c2].

Definition hdrCell (st : StyleMap) (c : col) : jsstring :=
  u16 "<w:tc><w:tcPr><w:tcW w:w=" ++ DQ ++ numText (col_w c) ++ DQ ++ u16 " w:type=" ++ DQ
    ++ u16 "dxa" ++ DQ ++ u16 "/><w:shd w:val=" ++ DQ ++ u16 "clear" ++ DQ ++ u16 " w:color="
    ++ DQ ++ u16 "auto" ++ DQ ++ u16 " w:fill=" ++ DQ ++ fill st ++ DQ ++ u16 "/></w:tcPr>"
    ++ u16 "<w:p><w:pPr><w:pStyle w:val=" ++ DQ ++ tableHeader st ++ DQ
    ++ u16 "/></w:pPr><w:r><w:t xml:space=" ++ DQ ++ u16 "preserve" ++ DQ ++ u16 ">"
    ++ xmlEsc (col_label c) ++ u16 "</w:t></w:r></w:p></w:tc>".

Definition dataCell (st : StyleMap) (c : col) (cell : jsstring) : jsstring :=
  u16 "<w:tc><w:tcPr><w:tcW w:w=" ++ DQ ++ numText (col_w c) ++ DQ ++ u16 " w:type=" ++ DQ
    ++ u16 "dxa" ++ DQ ++ u16 "/></w:tcPr>"
    ++ u16 "<w:p><w:pPr><w:pStyle w:val=" ++ DQ ++ tableText st ++ DQ
    ++ u16 "/></w:pPr><w:r><w:t xml:space=" ++ DQ ++ u16 "preserve" ++ DQ ++ u16 ">"
    ++ xmlEsc cell ++ u16 "</w:t></w:r></w:p></w:tc>".

Definition dataRow (st : StyleMap) (cols : cols3) (row : row3) : jsstring :=
  let '(c0, c1, c2) := cols in
  let '(x0, x1, x2) := row in
  u16 "<w:tr>" ++ join [] [dataCell st c0 x0; dataCell st c1 x1; dataCell st c2 x2]
    ++ u16 "</w:tr>".

Definition gridCol (c : col) : jsstring :=
  u16 "<w:gridCol w:w=" ++ DQ ++ numText (col_w c) ++ DQ ++ u16 "/>".

Definition xmlTable3 (cols : cols3) (rows : list row3) (st : StyleMap) : jsstring :=
  let totalW := fold_left (fun acc c => (acc + col_w c)%N) (colsList cols) 0%N in
  let hdrCells := join [] (map (hdrCell st) (colsList cols)) in
  let dataRows := join [] (map (dataRow st cols) rows) in
  u16 "<w:tbl><w:tblPr><w:tblStyle w:val=" ++ DQ ++ tableGrid st ++ DQ ++ u16 "/><w:tblW w:w="
    ++ DQ ++ numText totalW ++ DQ ++ u16 " w:type=" ++ DQ ++ u16 "dxa" ++ DQ ++ u16 "/>"
    ++ u16 "<w:tblLook w:val=" ++ DQ ++ u16 "04A0" ++ DQ ++ u16 " w:firstRow=" ++ DQ ++ u16 "1"
    ++ DQ ++ u16 "/></w:tblPr>"
    ++ u16 "<w:tblGrid>" ++ join [] (map gridCol (colsList cols)) ++ u16 "</w:tblGrid>"
    ++ u16 "<w:tr>" ++ hdrCells ++ u16 "</w:tr>" ++ dataRows ++ u16 "</w:tbl>".

(** ** Finding parsers *)

(** [new RegExp(k, "i").test(text)] for a keyword. *)
Definition hasWord (text : jsstring) (k : string) : bool := test true text (Lit (u16 k)).
Arguments hasWord text k%_string.

Definition parsePriority (text : jsstring) : jsstring :=
  if hasWord text "critical" then u16 "Critical"
  else if hasWord text "high" then u16 "High"
  else if hasWord text "medium" then u16 "Medium"
  else u16 "High".

Definition parseDepStatus (text : jsstring) : jsstring :=
  if hasWord text "prohibit" || hasWord text "must not"
     || test true text (Seq (Lit (u16 "never")) (Seq (Star Dot) (Lit (u16 "set"))))
  then u16 "Prohibited"
  else if test true text (Alt (Lit (u16 "replac")) (Lit (u16 "supersed"))) then u16 "Replaced"
  else if hasWord text "merg" then u16 "Merged/Superseded"
  else if hasWord text "remov" then u16 "Removed"
  else u16 "Deprecated".

Definition parseNature (text : jsstring) : jsstring :=
  if hasWord text "new section" then u16 "New section added"
  else if hasWord text "fully replac" then u16 "Fully replaced"
  else if hasWord text "remov" then u16 "Removed"
  else u16 "Updated".

Definition EM_DASH : N := 8212.
Definition EN_DASH : N := 8211.
Definition dash : regex := Cls false [CChar EM_DASH; CChar EN_DASH].

(** The dash patterns of buildScopeXml are string literals with a single
    backslash before the letter s.  An escape that JavaScript does not know
    stands for the character itself, so the pattern that reaches the
    matcher has the letter s where white space was meant:
    [s[dash]s], [^s*[dash]s*] and [s+[dash]s+]. *)
Definition letter_s : regex := Lit (u16 "s").
Definition reDashSearch : regex := Seq letter_s (Seq dash letter_s).
Definition reDashLead : regex := Seq Bol (Seq (Star letter_s) (Seq dash (Star letter_s))).
Definition reDashSplit : regex := Seq (Plus letter_s) (Seq dash (Plus letter_s)).

Definition SEP_DASH : jsstring := [32%N; EM_DASH; 32%N].

(** [v?.trim()] on a value that may be undefined. *)
Definition optTrim (v : option jsstring) : option jsstring := trim <$> v.

(** Truthiness of a value that may be undefined. *)
Definition truthy (v : option jsstring) : bool :=
  match v with Some (_ :: _) => true | _ => false end.

(** The callback of the case new_features. *)
Definition parseFeature (b : jsstring) : jsstring * jsstring :=
  let colonIdx := indexOf b (u16 ":") in
  if (5 <? colonIdx) && (colonIdx <? 80) then
    (trim (slice b 0 colonIdx), trim (sliceFrom b (colonIdx + 1)))
  else
    let dashIdx := search false b reDashSearch in
    (if 5 <? dashIdx then trim (slice b 0 dashIdx) else trim (slice b 0 60),
     if 5 <? dashIdx then replaceFirst false (sliceFrom b dashIdx) reDashLead []
     else []).

(** The callback of the case deprecated. *)
Definition parseDeprecated (b : jsstring) : row3 :=
  let parts := split false b reDashSplit in
  let item := orElseU (optTrim (parts !! 0%nat)) (slice b 0 60) in
  let notes := orElse (trim (join SEP_DASH (drop 1 parts))) b in
  let status := parseDepStatus b in
  (item, status, notes).

(** The callback of the case deployment_changes. *)
Definition parseDeployment (b : jsstring) : row3 :=
  let parts := split false b reDashSplit in
  let section := orElseU (optTrim (parts !! 0%nat)) (slice b 0 50) in
  let nature := if truthy (parts !! 1%nat) then parseNature (default [] (parts !! 1%nat))
                else parseNature b in
  let impact := orElseU (optTrim (parts !! 2%nat)) (orElseU (optTrim (parts !! 1%nat)) []) in
  (section, nature, impact).

(** The callback of the case security. *)
Definition parseSecurity (b : jsstring) : row3 :=
  let sev := if hasWord b "critical" then u16 "Critical"
             else if hasWord b "high" then u16 "High" else u16 "Medium" in
  (b, sev, u16 "Verify compliance").

(** The callback of the case migration_guide. *)
Definition parseMigration (b : jsstring) : row3 :=
  let parts := split false b reDashSplit in
  let area := orElseU (optTrim (parts !! 0%nat)) (slice b 0 30) in
  let action := orElseU (optTrim (parts !! 1%nat)) b in
  let pri := parsePriority (orElseU (parts !! 2%nat) b) in
  (area, action, pri).

(** The record a finding is parsed into, by scope. *)
Inductive ParsedRecord : Type :=
| RFeature (title detail : jsstring)
| RDeprecated (item status notes : jsstring)
| RDeployment (section nature impact : jsstring)
| RSecurity (requirement severity action : jsstring)
| RMigration (area action priority : jsstring)
| RVerbatim (text : jsstring).

(** The cases of [switch (scope.id)]. *)
Inductive ScopeCase : Type :=
| CaseNewFeatures | CaseDeprecated | CaseDeployment | CaseSecurity
| CaseBreaking | CaseMigration | CaseDefault.

Definition switchOn (scopeId : jsstring) : ScopeCase :=
  if str_eqb scopeId (u16 "new_features") then CaseNewFeatures
  else if str_eqb scopeId (u16 "deprecated") then CaseDeprecated
  else if str_eqb scopeId (u16 "deployment_changes") then CaseDeployment
  else if str_eqb scopeId (u16 "security") then CaseSecurity
  else if str_eqb scopeId (u16 "breaking_changes") then CaseBreaking
  else if str_eqb scopeId (u16 "migration_guide") then CaseMigration
  else CaseDefault.

(** The finding parser: the callback that the switch of buildScopeXml
    applies to each finding of a scope. *)
Definition parseFinding (scopeId b : jsstring) : ParsedRecord :=
  match switchOn scopeId with
  | CaseNewFeatures => let '(t, d) := parseFeature b in RFeature t d
  | CaseDeprecated => let '(i, s, n) := parseDeprecated b in RDeprecated i s n
  | CaseDeployment => let '(c, n, i) := parseDeployment b in RDeployment c n i
  | CaseSecurity => let '(r, s, a) := parseSecurity b in RSecurity r s a
  | CaseBreaking => RVerbatim b
  | CaseMigration => let '(a, c, p) := parseMigration b in RMigration a c p
  | CaseDefault => RVerbatim b
  end.

(** *** The row parser of the docx-library exporter (App.jsx,
    buildDeprecated), whose pattern is a regular-expression literal:
    white space, a dash, white space. *)
Definition reDashSplitDocx : regex := Seq (Plus white) (Seq dash (Plus white)).

Definition docxDeprecatedRow (b : jsstring) : row3 :=
  let parts := split false b reDashSplitDocx in
  let itemName := if truthy (parts !! 0%nat) then trim (default [] (parts !! 0%nat))
                  else slice b 0 50 in
  let notes := orElse (trim (join SEP_DASH (drop 1 parts))) b in
  let status :=
    if hasWord b "prohibit" then u16 "Prohibited"
    else if test true b (Alt (Lit (u16 "replac")) (Lit (u16 "supersed"))) then u16 "Replaced"
    else if hasWord b "merg" then u16 "Merged/Superseded"
    else if hasWord b "remov" then u16 "Removed"
    else u16 "Deprecated" in
  (itemName, status, notes).

(** ** Markup of a scope *)

Record Scope : Type := { scope_id : jsstring; scope_label : jsstring }.

Definition colsDeprecated : cols3 :=
  ({| col_label := u16 "Item"; col_w := 3200 |},
   {| col_label := u16 "Status"; col_w := 1500 |},
   {| col_label := u16 "Notes"; col_w := 4259 |}).

Definition colsDeployment : cols3 :=
  ({| col_label := u16 "Changed Section"; col_w := 3136 |},
   {| col_label := u16 "Nature of Change"; col_w := 1800 |},
   {| col_label := u16 "Operational Impact"; col_w := 4023 |}).

Definition colsSecurity : cols3 :=
  ({| col_label := u16 "Security Requirement"; col_w := 5500 |},
   {| col_label := u16 "Severity"; col_w := 1600 |},
   {| col_label := u16 "Action"; col_w := 1859 |}).

Definition colsMigration : cols3 :=
  ({| col_label := u16 "Area"; col_w := 2400 |},
   {| col_label := u16 "Action Required"; col_w := 5159 |},
   {| col_label := u16 "Priority"; col_w := 1400 |}).

Definition buildScopeXml (h : Host) (scope : Scope) (bullets : list jsstring)
    (st : StyleMap) : jsstring :=
  match bullets with
  | [] =>
      xmlH1 (scope_label scope) st
        ++ xmlBody (u16 "No " ++ toLowerCase h (scope_label scope)
                      ++ u16 " identified in this document.") st
        ++ xmlSpacer st
  | _ :: _ =>
      match switchOn (scope_id scope) with
      | CaseNewFeatures =>
          fold_left
            (fun xml b =>
               let '(title, detail) := parseFeature b in
               xml ++ (xmlH2 title st ++ xmlBody detail st ++ xmlSpacer st))
            bullets
            (xmlH1 (u16 "New or Changed Features") st
               ++ xmlBody (u16 "The following features and sections were added or significantly updated in this release.") st
               ++ xmlSpacer st)
      | CaseDeprecated =>
          let rows := map parseDeprecated bullets in
          xmlH1 (u16 "Deprecated or Removed Features") st
            ++ xmlBody (u16 "The following items have been removed or superseded in this release.") st
            ++ xmlSpacer st
            ++ xmlTable3 colsDeprecated rows st ++ xmlSpacer st
      | CaseDeployment =>
          let rows := map parseDeployment bullets in
          xmlH1 (u16 "Deployment Guide Update Notes") st
            ++ xmlBody (u16 "The following items represent notable changes that impact how deployments should be executed.") st
            ++ xmlSpacer st
            ++ xmlTable3 colsDeployment rows st ++ xmlSpacer st
      | CaseSecurity =>
          let rows := map parseSecurity bullets in
          xmlH1 (u16 "Security & Compliance Requirements") st
            ++ xmlBody (u16 "The following security requirements, credential rules, and compliance mandates were identified.") st
            ++ xmlSpacer st
            ++ xmlTable3 colsSecurity rows st ++ xmlSpacer st
      | CaseBreaking =>
          fold_left (fun xml b => xml ++ xmlBullet b st) bullets
            (xmlH1 (u16 "Breaking Changes") st
               ++ xmlBody (u16 "The following changes may break existing deployments if previous documentation was followed. Immediate review is required.") st
               ++ xmlSpacer st)
            ++ xmlSpacer st
      | CaseMigration =>
          let rows := map parseMigration bullets in
          xmlH1 (u16 "Summary: Key Actions for Deployment Teams") st
            ++ xmlBody (u16 "The following actions are required when migrating from the previous release.") st
            ++ xmlSpacer st
            ++ xmlTable3 colsMigration rows st ++ xmlSpacer st
      | CaseDefault =>
          fold_left (fun xml b => xml ++ xmlBullet b st) bullets
            (xmlH1 (scope_label scope) st ++ xmlSpacer st)
            ++ xmlSpacer st
      end
  end.

(** ** Template injection *)

Record Bounds : Type := { prefixEnd : Z; suffixStart : Z }.

Definition SECT_PR : jsstring := u16 "<w:sectPr".
Definition PARA_END : jsstring := u16 "</w:p>".

Definition findInjectionBounds (docXml : jsstring) : Bounds :=
  let lastSectStart := lastIndexOf docXml SECT_PR in
  let lastParaEnd := lastIndexOfFrom docXml PARA_END lastSectStart in
  let prefixEnd := if lastParaEnd =? -1 then lastSectStart
                   else lastParaEnd + jslen PARA_END in
  {| prefixEnd := prefixEnd; suffixStart := lastSectStart |}.

(** The title extracted from the analysed document; a field that is
    missing is [None]. *)
Record DocTitle : Type := { title : option jsstring; subtitle : option jsstring }.

Definition TITLE_REF : jsstring := u16 "w:val=" ++ DQ ++ u16 "Title" ++ DQ.

Definition updateCoverTitle (h : Host) (docXml : jsstring) (docTitle : DocTitle) : jsstring :=
  if negb (truthy (title docTitle)) then docXml
  else
    let titleStyleIdx := indexOf docXml TITLE_REF in
    if titleStyleIdx =? -1 then docXml
    else
      let paraStart := lastIndexOfFrom docXml (u16 "<w:p>") titleStyleIdx in
      let paraStart2 := lastIndexOfFrom docXml (u16 "<w:p ") titleStyleIdx in
      let pStart := Z.max paraStart paraStart2 in
      let pEnd := indexOfFrom docXml PARA_END titleStyleIdx + jslen PARA_END in
      if (pStart =? -1) || (pEnd =? -1) then docXml
      else
        let newTitlePara :=
          u16 "<w:p><w:pPr><w:pStyle w:val=" ++ DQ ++ u16 "Title" ++ DQ ++ u16 "/></w:pPr>"
            ++ u16 "<w:r><w:t xml:space=" ++ DQ ++ u16 "preserve" ++ DQ ++ u16 ">"
            ++ xmlEsc (toUpperCase h (default [] (title docTitle)))
            ++ (if truthy (subtitle docTitle)
                then u16 " - " ++ xmlEsc (toUpperCase h (default [] (subtitle docTitle)))
                else [])
            ++ u16 "</w:t></w:r></w:p>" in
        slice docXml 0 pStart ++ newTitlePara ++ sliceFrom docXml pEnd.

(** The body of the scope sections: one fragment per scope of the list,
    joined.  A scope identifier is a catalogue identifier or the word
    custom_ followed by a time stamp, so [resultMap[scope.id]] reads an own
    property or undefined. *)
Definition contentXml (h : Host) (scopeList : list Scope)
    (resultMap : gmap jsstring (list jsstring)) (st : StyleMap) : jsstring :=
  join [] (map (fun scope =>
                  buildScopeXml h scope (default [] (resultMap !! scope_id scope)) st)
               scopeList).

(** The document part of the output: title patch, bounds, splice. *)
Definition newDocXml (h : Host) (docXml0 : jsstring) (scopeList : list Scope)
    (resultMap : gmap jsstring (list jsstring)) (docTitle : DocTitle) (st : StyleMap)
    : jsstring :=
  let docXml := updateCoverTitle h docXml0 docTitle in
  let b := findInjectionBounds docXml in
  let prefix := slice docXml 0 (prefixEnd b) in
  let suffix := sliceFrom docXml (suffixStart b) in
  prefix ++ contentXml h scopeList resultMap st ++ suffix.

Definition relsPath : jsstring := u16 "word/_rels/document.xml.rels".
Definition contentTypesPath : jsstring := u16 "[Content_Types].xml".
Definition settingsRelsPath : jsstring := u16 "word/_rels/settings.xml.rels".
Definition settingsPath : jsstring := u16 "word/settings.xml".
Definition customXmlDir : jsstring := u16 "customXml/".

(* <Relationship[^>]*relationships/customXml[^>]*/> *)
Definition reCustomRel : regex :=
  Seq (Lit (u16 "<Relationship")) (Seq (Star (notChar 62))
  (Seq (Lit (u16 "relationships/customXml")) (Seq (Star (notChar 62)) (Lit (u16 "/>"))))).

(* <Override[^>]*/customXml/[^>]*/> *)
Definition reCustomOverride : regex :=
  Seq (Lit (u16 "<Override")) (Seq (Star (notChar 62))
  (Seq (Lit (u16 "/customXml/")) (Seq (Star (notChar 62)) (Lit (u16 "/>"))))).

(* <Relationship[^>]*[.]dotm[^/]*/> *)
Definition reDotm : regex :=
  Seq (Lit (u16 "<Relationship")) (Seq (Star (notChar 62))
  (Seq (Cls false [CChar 46]) (Seq (Lit (u16 "dotm")) (Seq (Star (notChar 47)) (Lit (u16 "/>")))))).

(* <w:attachedTemplate[^/]*/> *)
Definition reAttached : regex :=
  Seq (Lit (u16 "<w:attachedTemplate")) (Seq (Star (notChar 47)) (Lit (u16 "/>"))).

(* [^a-z0-9] with the flags g and i *)
Definition reUnsafe : regex := Cls true [CRange 97 122; CRange 48 57].

(** [if (zip.files[path]) { ... zip.file(path, f(text)) }]: a part that is
    present is rewritten, a part that is absent is skipped.  An archive is
    the map from the paths of its parts to their bytes; the entries that
    the library keeps for the folders of a path are not parts and are left
    out. *)
Definition rewritePart (h : Host) (path : jsstring) (f : jsstring -> jsstring)
    (zip : gmap jsstring bytes) : gmap jsstring bytes :=
  match zip !! path with
  | Some raw => <[path := utf8encode h (f (utf8decode h raw))]> zip
  | None => zip
  end.

(** The metadata stripping of exportWithTemplate, in the order of the code. *)
Definition stripMetadata (h : Host) (zip : gmap jsstring bytes) : gmap jsstring bytes :=
  let zip1 := filter (fun e => negb (startsWith (fst e) customXmlDir) = true) zip in
  let zip2 := rewritePart h relsPath (fun t => replaceAll false t reCustomRel []) zip1 in
  let zip3 := rewritePart h contentTypesPath (fun t => replaceAll false t reCustomOverride []) zip2 in
  let zip4 := rewritePart h settingsRelsPath (fun t => replaceAll false t reDotm []) zip3 in
  rewritePart h settingsPath (fun t => replaceAll false t reAttached []) zip4.

(** The archive handed to [generateAsync]; reading the document part of an
    archive that has none throws. *)
Definition patchArchive (h : Host) (zip : gmap jsstring bytes) (scopeList : list Scope)
    (resultMap : gmap jsstring (list jsstring)) (docTitle : DocTitle) (st : StyleMap)
    : result (gmap jsstring bytes) :=
  let zip' := stripMetadata h zip in
  let* raw := match zip' !! documentPath with
              | Some raw => Ok raw
              | None => Throw TypeError
              end in
  Ok (<[documentPath := utf8encode h
          (newDocXml h (utf8decode h raw) scopeList resultMap docTitle st)]> zip').

(** What the browser is asked to download. *)
Record Download : Type := { file_name : jsstring; blob : bytes }.

Definition downloadName (h : Host) (docName : jsstring) (docTitle : DocTitle) : jsstring :=
  let safeName :=
    slice (replaceAll true (orElseU (title docTitle) (orElse docName (u16 "analysis")))
             reUnsafe (u16 "_")) 0 40 in
  u16 "ReleaseLens_" ++ safeName ++ u16 "_" ++ slice (isoDate h) 0 10 ++ u16 ".docx".

Definition exportWithTemplate (h : Host) (templateBuffer : bytes) (scopeList : list Scope)
    (resultMap : gmap jsstring (list jsstring)) (docName : jsstring) (docTitle : DocTitle)
    (st : StyleMap) : result Download :=
  let* zip := match loadAsync h templateBuffer with
              | Some zip => Ok zip
              | None => Throw ArchiveError
              end in
  let* patched := patchArchive h zip scopeList resultMap docTitle st in
  let out := generateAsync h patched in
  Ok {| file_name := downloadName h docName docTitle; blob := out |}.

(** handleWordExport: what the user sees of one export. *)
Inductive UiEvent : Type :=
| Downloaded (d : Download)
| Alert (e : error).           (* alert("Export failed: " + e.message) *)

Record CustomTemplate : Type := { buffer : bytes; styles : StyleMap }.

(** [customTemplate ? customTemplate.buffer : b64ToArrayBuffer(DEFAULT_TEMPLATE_B64)] *)
Definition templateBytes (h : Host) (customTemplate : option CustomTemplate) : bytes :=
  match customTemplate with
  | Some t => buffer t
  | None => defaultTemplate h
  end.

(** [customTemplate && customTemplate.styles ? customTemplate.styles : DEFAULT_STYLES] *)
Definition templateStyles (customTemplate : option CustomTemplate) : StyleMap :=
  match customTemplate with
  | Some t => styles t
  | None => DEFAULT_STYLES
  end.

Definition handleWordExport (h : Host) (customTemplate : option CustomTemplate)
    (scopeList : list Scope) (resultMap : gmap jsstring (list jsstring))
    (docName : jsstring) (docTitle : DocTitle) : list UiEvent :=
  let buf := templateBytes h customTemplate in
  let st := templateStyles customTemplate in
  match exportWithTemplate h buf scopeList resultMap docName docTitle st with
  | Ok d => [Downloaded d]
  | Throw e => [Alert e]
  end.


(** * Text sent to the model and answers read back *)

Definition CONTENT_BUDGET : Z := 40000.

Definition LF : jsstring := [10%N].

Definition OMITTED : jsstring :=
  LF ++ LF ++ u16 "[... middle section omitted — document too large for single call ...]"
     ++ LF ++ LF.

Definition prepareDocText (text : jsstring) : jsstring :=
  if jslen text <=? CONTENT_BUDGET then text
  else
    let half := CONTENT_BUDGET / 2 in        (* Math.floor(CONTENT_BUDGET / 2) *)
    slice text 0 half ++ OMITTED ++ sliceFrom text (- half).

(** String.prototype.split(sep) for a separator that is a string: [cur] is
    the segment read so far, [skip] the code units of a separator still to
    pass. *)
Fixpoint splitAt (sep : jsstring) (skip : nat) (cur s : jsstring) : list jsstring :=
  match s with
  | [] => [cur]
  | c :: t =>
      match skip with
      | S k => splitAt sep k cur t
      | O => if isPrefix sep s then cur :: splitAt sep (length sep - 1) [] t
             else splitAt sep 0 (cur ++ [c]) t
      end
  end.

Definition splitStr (s sep : jsstring) : list jsstring :=
  match sep with
  | [] => map (fun c => [c]) s
  | _ => splitAt sep 0 [] s
  end.

(* ^[s-•*d.)]]+ : the pattern is the string literal Q^[\s\-•*\d.)\]]+Q, in
   which a backslash before s, -, d and ] stands for the character itself;
   the class so ends at the first bracket and holds the range from s to the
   bullet sign, and the quantifier applies to the bracket that follows. *)
Definition reBulletLead : regex :=
  Seq Bol (Seq (Cls false [CRange 115 8226; CChar 42; CChar 100; CChar 46; CChar 41])
               (Plus (Lit (u16 "]")))).

Definition parseBullets (raw : jsstring) : list jsstring :=
  List.filter (fun l => 10 <? jslen l)
    (map (fun l => trim (replaceFirst false l reBulletLead [])) (splitStr raw LF)).

(* /^[\s\-•*\d.)\]]+/ : the same pattern written as a regular expression
   literal in the docx exporter, where the escapes are those of the
   pattern. *)
Definition bulletMarker : list citem :=
  [CWhite; CChar 45; CChar 8226; CChar 42; CRange 48 57; CChar 46; CChar 41; CChar 93].

Definition reBulletLeadDocx : regex := Seq Bol (Plus (Cls false bulletMarker)).

Definition parseBulletsDocx (raw : jsstring) : list jsstring :=
  List.filter (fun l => 10 <? jslen l)
    (map (fun l => trim (replaceFirst false l reBulletLeadDocx [])) (splitStr raw LF)).

(** The loop of deduplicateBullets over the arrays [seen] and [out]. *)
Definition dedupStep (key : jsstring -> jsstring)
    (st : list jsstring * list jsstring) (b : jsstring) : list jsstring * list jsstring :=
  let k := key b in
  if existsb (fun k' => str_eqb k' k) (fst st) then st
  else (fst st ++ [k], snd st ++ [b]).

Definition dedupLoop (key : jsstring -> jsstring) (bullets : list jsstring)
    (st : list jsstring * list jsstring) : list jsstring * list jsstring :=
  fold_left (dedupStep key) bullets st.

(* new RegExp(Q\s+Q, QgQ): one letter s or more *)
Definition bulletKey (h : Host) (b : jsstring) : jsstring :=
  slice (replaceAll false (toLowerCase h b) (Plus letter_s) (u16 " ")) 0 60.

Definition deduplicateBullets (h : Host) (bullets : list jsstring) : list jsstring :=
  snd (dedupLoop (bulletKey h) bullets ([], [])).

(* /\s+/g in the docx exporter: white space *)
Definition bulletKeyDocx (h : Host) (b : jsstring) : jsstring :=
  slice (replaceAll false (toLowerCase h b) (Plus white) (u16 " ")) 0 60.

Definition deduplicateBulletsDocx (h : Host) (bullets : list jsstring) : list jsstring :=
  snd (dedupLoop (bulletKeyDocx h) bullets ([], [])).

(** * The scopes of an analysis *)

Record ScopeEntry : Type := {
  entry_id : jsstring;
  entry_label : jsstring;
  entry_icon : jsstring;
  entry_color : jsstring
}.

Definition ANALYSIS_SCOPES : list ScopeEntry := [
  {| entry_id := u16 "new_features"; entry_label := u16 "New & Changed Features";
     entry_icon := u16 "✦"; entry_color := u16 "#00D4FF" |};
  {| entry_id := u16 "deprecated"; entry_label := u16 "Deprecated Features";
     entry_icon := u16 "⊘"; entry_color := u16 "#FF6B6B" |};
  {| entry_id := u16 "deployment_changes"; entry_label := u16 "Deployment Changes";
     entry_icon := u16 "⟳"; entry_color := u16 "#A78BFA" |};
  {| entry_id := u16 "security"; entry_label := u16 "Security & Compliance";
     entry_icon := u16 "⬡"; entry_color := u16 "#34D399" |};
  {| entry_id := u16 "breaking_changes"; entry_label := u16 "Breaking Changes";
     entry_icon := u16 "⚡"; entry_color := u16 "#FBBF24" |};
  {| entry_id := u16 "migration_guide"; entry_label := u16 "Migration Guide";
     entry_icon := u16 "→"; entry_color := u16 "#F472B6" |}
].

Definition CUSTOM_COLORS : list jsstring :=
  [u16 "#F59E0B"; u16 "#10B981"; u16 "#EC4899"; u16 "#8B5CF6";
   u16 "#06B6D4"; u16 "#EF4444"; u16 "#84CC16"; u16 "#F97316"].

Definition CUSTOM_ICONS : list jsstring :=
  [u16 "◈"; u16 "◉"; u16 "◎"; u16 "⬟"; u16 "⬠"; u16 "◇"; u16 "⬡"; u16 "◆"].

(** A Set of strings: its elements in the order of insertion, each once. *)
Definition jsset : Type := list jsstring.

Definition setHas (s : jsset) (id : jsstring) : bool :=
  existsb (fun k => str_eqb k id) s.

Definition setDelete (s : jsset) (id : jsstring) : jsset :=
  List.filter (fun k => negb (str_eqb k id)) s.

Definition setAdd (s : jsset) (id : jsstring) : jsset :=
  if setHas s id then s else s ++ [id].

(** useState(new Set([...])): the selection a session starts with. *)
Definition INITIAL_SCOPES : jsset :=
  [u16 "new_features"; u16 "deprecated"; u16 "deployment_changes"].

(** The updater that toggleScope hands to setSelectedScopes. *)
Definition toggleScope (id : jsstring) (prev : jsset) : jsset :=
  let next := prev in                                   (* new Set(prev) *)
  if setHas next id then setDelete next id else setAdd next id.

(** The updater that removeCustomScope hands to setCustomScopes. *)
Definition removeCustomScope (id : jsstring) (prev : list ScopeEntry) : list ScopeEntry :=
  List.filter (fun s => negb (str_eqb (entry_id s) id)) prev.

(** addCustomScope: [now] is Date.now(), [customScopes] the list of the
    render that the handler closes over, [prev] the list the updater
    receives; a blank label leaves the state as it is. *)
Definition addCustomScope (now : N) (customInputVal : jsstring)
    (customScopes prev : list ScopeEntry) : list ScopeEntry :=
  let label := trim customInputVal in
  match label with
  | [] => prev
  | _ :: _ =>
      let idx := (length customScopes mod length CUSTOM_COLORS)%nat in
      let id := u16 "custom_" ++ numText now in
      prev ++ [{| entry_id := id; entry_label := label;
                  entry_color := default [] (CUSTOM_COLORS !! idx);
                  entry_icon := default [] (CUSTOM_ICONS !! idx) |}]
  end.

(** The scopes of the report: the selected ones that the catalogue knows,
    in the order of the selection, then the custom ones. *)
Definition scopeList (selectedScopes : jsset) (customScopes : list ScopeEntry)
    : list ScopeEntry :=
  omap (fun id => List.find (fun s => str_eqb (entry_id s) id) ANALYSIS_SCOPES)
       selectedScopes
  ++ customScopes.

(** What the exporter reads of a scope: its id and its label. *)
Definition exportScope (s : ScopeEntry) : Scope :=
  {| scope_id := entry_id s; scope_label := entry_label s |}.

(** callClaude: the text within the budget is sent with the instruction of
    the scope, and the answer is read as bullets.  [askModel] is the
    exchange with the model, retries included: the text of the answer, or
    [None] when the call throws. *)
Definition callClaude (askModel : jsstring -> jsstring -> option jsstring)
    (scopeId docText : jsstring) : option (list jsstring) :=
  let trimmed := prepareDocText docText in
  parseBullets <$> askModel scopeId trimmed.

(** The state that the loop of runAnalysis writes. *)
Record Analysis : Type := {
  resultMap : gmap jsstring (list jsstring);
  totalFindings : Z;
  failed : bool                      (* the catch block was entered *)
}.

(** ordered.forEach(id => { initMap[id] = []; }) *)
Definition initMap (ordered : list jsstring) : gmap jsstring (list jsstring) :=
  fold_left (fun mp id => <[id := []]> mp) ordered ∅.

(** The loop over [ordered]: one call per scope, in order; a call that
    throws ends the loop with the results written so far. *)
Fixpoint analyseLoop (askModel : jsstring -> jsstring -> option jsstring)
    (fullText : jsstring) (ordered : list jsstring)
    (rm : gmap jsstring (list jsstring)) (total : Z) : Analysis :=
  match ordered with
  | [] => {| resultMap := rm; totalFindings := total; failed := false |}
  | scopeId :: rest =>
      match callClaude askModel scopeId fullText with
      | None => {| resultMap := rm; totalFindings := total; failed := true |}
      | Some bullets =>
          analyseLoop askModel fullText rest (<[scopeId := bullets]> rm)
                      (total + Z.of_nat (length bullets))
      end
  end.

(** The part of runAnalysis that follows the reading of the document. *)
Definition analyseScopes (askModel : jsstring -> jsstring -> option jsstring)
    (fullText : jsstring) (selectedScopes : jsset) : Analysis :=
  let ordered := selectedScopes in                      (* [...selectedScopes] *)
  analyseLoop askModel fullText ordered (initMap ordered) 0.

(** * The plain-text report *)

(** The title object with its revision, a field that the Word export
    does not read. *)
Record ReportTitle : Type := {
  doc_title : DocTitle;
  revision : option jsstring
}.

(** String.prototype.repeat. *)
Definition strRepeat (t : jsstring) (n : nat) : jsstring := concat (repeat t n).

(** String.prototype.padStart(n, fill) for a fill of one code unit. *)
Definition padStart (t : jsstring) (n : nat) (c : N) : jsstring :=
  repeat c (n - length t) ++ t.

(** String.prototype.padEnd(n, fill) for a fill of one code unit. *)
Definition padEnd (t : jsstring) (n : nat) (c : N) : jsstring :=
  t ++ repeat c (n - length t).

(** const line = (char, len = 72) => char.repeat(len) *)
Definition line (char : jsstring) : jsstring := strRepeat char 72.

(** A line of the overview of exportToTxt. *)
Definition overviewLine (resultMap : gmap jsstring (list jsstring)) (s : ScopeEntry)
    : jsstring :=
  let count := length (default [] (resultMap !! entry_id s)) in
  let pad := strRepeat (u16 " ") (Z.to_nat (Z.max 1 (36 - jslen (entry_label s)))) in
  u16 "  " ++ entry_icon s ++ u16 "  " ++ entry_label s ++ pad
    ++ numText (N.of_nat count) ++ u16 " finding"
    ++ (if Nat.eqb count 1 then [] else u16 "s").

(** The lines of the section of a scope in exportToTxt. *)
Definition scopeLines (h : Host) (resultMap : gmap jsstring (list jsstring))
    (scope : ScopeEntry) : list jsstring :=
  let bullets := default [] (resultMap !! entry_id scope) in
  [ [];
    line (u16 "─");
    entry_icon scope ++ u16 "  " ++ toUpperCase h (entry_label scope);
    line (u16 "─");
    match bullets with
    | [] => u16 "  No findings identified for this scope."
    | _ :: _ => []
    end ]
  ++ concat (imap (fun i b =>
                     [u16 "  [" ++ padStart (numText (N.of_nat (i + 1))) 2 48 ++ u16 "]  " ++ b;
                      []])
                  bullets).

(** The text of the report; [dateStr] is the date in the British format
    that the browser gives. *)
Definition reportLines (h : Host) (dateStr : jsstring) (scopeList : list ScopeEntry)
    (resultMap : gmap jsstring (list jsstring)) (docName : jsstring) (totalFindings : N)
    (docTitle : ReportTitle) : list jsstring :=
  let sourceLabel :=
    orElseU (title (doc_title docTitle)) (orElse docName (u16 "Vendor Documentation")) in
  let sourceSubtitle :=
    orElseU (subtitle (doc_title docTitle)) (u16 "Release Analysis & Change Summary") in
  let sourceRevision := orElseU (revision docTitle) [] in
  [ line (u16 "=");
    u16 "  RELEASE INTELLIGENCE REPORT";
    u16 "  " ++ sourceLabel ]
  ++ match sourceSubtitle with [] => [] | _ :: _ => [u16 "  " ++ sourceSubtitle] end
  ++ match sourceRevision with [] => [] | _ :: _ => [u16 "  Revision: " ++ sourceRevision] end
  ++ [ line (u16 "=");
       u16 "  Generated : " ++ dateStr;
       u16 "  Findings  : " ++ numText totalFindings ++ u16 " across "
         ++ numText (N.of_nat (length scopeList)) ++ u16 " scope modules";
       u16 "  Engine    : Claude AI (Anthropic) via ReleaseLens";
       line (u16 "=");
       [];
       u16 "EXECUTIVE SUMMARY";
       line (u16 "-");
       u16 "This report contains AI-extracted findings from " ++ DQ ++ sourceLabel ++ DQ
         ++ u16 ".";
       numText (N.of_nat (length scopeList)) ++ u16 " analysis modules were run, yielding "
         ++ numText totalFindings ++ u16 " total findings.";
       [];
       u16 "SCOPE OVERVIEW";
       line (u16 "-") ]
  ++ map (overviewLine resultMap) scopeList
  ++ [ []; line (u16 "="); [] ]
  ++ flat_map (scopeLines h resultMap) scopeList
  ++ [ []; line (u16 "="); u16 "  END OF REPORT"; line (u16 "=") ].

(** exportToTxt: the name and the text of the file offered for download. *)
Definition exportToTxt (h : Host) (dateStr : jsstring) (scopeList : list ScopeEntry)
    (resultMap : gmap jsstring (list jsstring)) (docName : jsstring) (totalFindings : N)
    (docTitle : ReportTitle) : jsstring * jsstring :=
  let text := join LF (reportLines h dateStr scopeList resultMap docName totalFindings docTitle) in
  let name :=
    u16 "ReleaseLens_"
      ++ slice (replaceAll true (orElse docName (u16 "analysis")) reUnsafe (u16 "_")) 0 40
      ++ u16 "_" ++ slice (isoDate h) 0 10 ++ u16 ".txt" in
  (name, text).

(** * Colours of the docx exporter *)

(* /^#/ *)
Definition reHash : regex := Seq Bol (Lit (u16 "#")).

(** const hex = c => c.replace(/^#/, Q Q).slice(0, 6).toUpperCase().padEnd(6, Q0Q) *)
Definition hex (h : Host) (c : jsstring) : jsstring :=
  padEnd (toUpperCase h (slice (replaceFirst false c reHash []) 0 6)) 6 48.

(** *** The feature parser of the docx-library exporter (App.jsx,
    buildNewFeatures), whose patterns are regular-expression literals
    (white space, a dash, white space) and whose dash has to lie after
    index 10. *)
Definition reDashSearchDocx : regex := Seq white (Seq dash white).
Definition reDashLeadDocx : regex := Seq Bol (Seq (Star white) (Seq dash (Star white))).

Definition docxFeature (b : jsstring) : jsstring * jsstring :=
  let colonIdx := indexOf b (u16 ":") in
  if (5 <? colonIdx) && (colonIdx <? 80) then
    (trim (slice b 0 colonIdx), trim (sliceFrom b (colonIdx + 1)))
  else
    let dashPos := search false b reDashSearchDocx in
    (if 10 <? dashPos then trim (slice b 0 dashPos) else trim (slice b 0 60),
     if 10 <? dashPos then replaceFirst false (sliceFrom b dashPos) reDashLeadDocx []
     else []).

(** ** Views used by the statements

    The definitions below are not code of the program: they name what the
    statements speak about (a finding without delimiter, the record built
    from the whole text, the pieces of a section, an occurrence count). *)

(** A finding holds neither an em dash nor an en dash. *)
Definition noDash (b : jsstring) : bool :=
  forallb (fun c => negb ((c =? EM_DASH)%N || (c =? EN_DASH)%N)) b.

(** The first colon of a finding lies after index 5 and before index 80
    (the test of the case new_features). *)
Definition colonInRange (b : jsstring) : bool :=
  (5 <? indexOf b (u16 ":")) && (indexOf b (u16 ":") <? 80).

(** A finding holds an em dash or an en dash with a white-space unit on
    each side of it. *)
Fixpoint spacedDash (b : jsstring) : bool :=
  match b with
  | c1 :: t =>
      match t with
      | c2 :: c3 :: _ =>
          isWhite c1 && ((c2 =? EM_DASH)%N || (c2 =? EN_DASH)%N) && isWhite c3
      | _ => false
      end || spacedDash t
  | [] => false
  end.

(** The delimiter a scope expects is absent from a finding: for
    new_features neither a colon in range nor a dash surrounded by white
    space; for the scopes that split on a dash, no dash. *)
Definition delimiterAbsent (scopeId b : jsstring) : bool :=
  match switchOn scopeId with
  | CaseNewFeatures => negb (colonInRange b) && negb (spacedDash b)
  | CaseDeprecated | CaseDeployment | CaseMigration => noDash b
  | CaseSecurity | CaseBreaking | CaseDefault => true
  end.

(** The record built from the whole text of a finding (for new_features
    the title is the first 60 code units of the text, trimmed). *)
Definition fallbackRecord (scopeId b : jsstring) : ParsedRecord :=
  match switchOn scopeId with
  | CaseNewFeatures => RFeature (trim (slice b 0 60)) []
  | CaseDeprecated => RDeprecated (orElse (trim b) (slice b 0 60)) (parseDepStatus b) b
  | CaseDeployment => RDeployment (orElse (trim b) (slice b 0 50)) (parseNature b) []
  | CaseSecurity =>
      RSecurity b (if hasWord b "critical" then u16 "Critical"
                   else if hasWord b "high" then u16 "High" else u16 "Medium")
        (u16 "Verify compliance")
  | CaseMigration => RMigration (orElse (trim b) (slice b 0 30)) b (parsePriority b)
  | CaseBreaking | CaseDefault => RVerbatim b
  end.

(** The variant of record each case of the switch produces. *)
Definition recordFits (c : ScopeCase) (r : ParsedRecord) : bool :=
  match c, r with
  | CaseNewFeatures, RFeature _ _ => true
  | CaseDeprecated, RDeprecated _ _ _ => true
  | CaseDeployment, RDeployment _ _ _ => true
  | CaseSecurity, RSecurity _ _ _ => true
  | CaseMigration, RMigration _ _ _ => true
  | CaseBreaking, RVerbatim _ => true
  | CaseDefault, RVerbatim _ => true
  | _, _ => false
  end.

(** A hexadecimal digit. *)
Definition isHex (c : N) : bool :=
  inRange 48 57 c || inRange 65 70 c || inRange 97 102 c.

(** A fill attribute with six hexadecimal digits starts at position [q]. *)
Definition fillAt (d : jsstring) (q : nat) : bool :=
  isPrefix (u16 "w:fill=" ++ DQ) (drop q d)
  && Nat.leb 6 (length (drop (q + 8) d))
  && forallb isHex (take 6 (drop (q + 8) d))
  && isPrefix DQ (drop (q + 14) d).

(** Every role of a style map is a non-empty string. *)
Definition allRolesNonEmpty (st : StyleMap) : Prop :=
  h1 st <> [] /\ h2 st <> [] /\ body st <> [] /\ bullet st <> []
  /\ tableHeader st <> [] /\ tableText st <> [] /\ tableGrid st <> [] /\ fill st <> [].

(** The markup of one parsed record: a titled paragraph pair, a table row
    or a bullet. *)
Definition recordXml (st : StyleMap) (r : ParsedRecord) : jsstring :=
  match r with
  | RFeature t d => xmlH2 t st ++ xmlBody d st ++ xmlSpacer st
  | RDeprecated i s n => dataRow st colsDeprecated (i, s, n)
  | RDeployment c n i => dataRow st colsDeployment (c, n, i)
  | RSecurity r s a => dataRow st colsSecurity (r, s, a)
  | RMigration a c p => dataRow st colsMigration (a, c, p)
  | RVerbatim b => xmlBullet b st
  end.

(** The opening of a table, up to and including its header row. *)
Definition tableOpen (cols : cols3) (st : StyleMap) : jsstring :=
  u16 "<w:tbl><w:tblPr><w:tblStyle w:val=" ++ DQ ++ tableGrid st ++ DQ ++ u16 "/><w:tblW w:w="
    ++ DQ ++ numText (fold_left (fun acc c => (acc + col_w c)%N) (colsList cols) 0%N) ++ DQ
    ++ u16 " w:type=" ++ DQ ++ u16 "dxa" ++ DQ ++ u16 "/>"
    ++ u16 "<w:tblLook w:val=" ++ DQ ++ u16 "04A0" ++ DQ ++ u16 " w:firstRow=" ++ DQ ++ u16 "1"
    ++ DQ ++ u16 "/></w:tblPr>"
    ++ u16 "<w:tblGrid>" ++ join [] (map gridCol (colsList cols)) ++ u16 "</w:tblGrid>"
    ++ u16 "<w:tr>" ++ join [] (map (hdrCell st) (colsList cols)) ++ u16 "</w:tr>".

(** The opening of a section that holds a table. *)
Definition tableSection (heading intro : jsstring) (cols : cols3) (st : StyleMap) : jsstring :=
  xmlH1 heading st ++ xmlBody intro st ++ xmlSpacer st ++ tableOpen cols st.

(** What a section with findings starts with, by scope. *)
Definition sectionIntro (scope : Scope) (st : StyleMap) : jsstring :=
  match switchOn (scope_id scope) with
  | CaseNewFeatures =>
      xmlH1 (u16 "New or Changed Features") st
        ++ xmlBody (u16 "The following features and sections were added or significantly updated in this release.") st
        ++ xmlSpacer st
  | CaseDeprecated =>
      tableSection (u16 "Deprecated or Removed Features")
        (u16 "The following items have been removed or superseded in this release.")
        colsDeprecated st
  | CaseDeployment =>
      tableSection (u16 "Deployment Guide Update Notes")
        (u16 "The following items represent notable changes that impact how deployments should be executed.")
        colsDeployment st
  | CaseSecurity =>
      tableSection (u16 "Security & Compliance Requirements")
        (u16 "The following security requirements, credential rules, and compliance mandates were identified.")
        colsSecurity st
  | CaseBreaking =>
      xmlH1 (u16 "Breaking Changes") st
        ++ xmlBody (u16 "The following changes may break existing deployments if previous documentation was followed. Immediate review is required.") st
        ++ xmlSpacer st
  | CaseMigration =>
      tableSection (u16 "Summary: Key Actions for Deployment Teams")
        (u16 "The following actions are required when migrating from the previous release.")
        colsMigration st
  | CaseDefault => xmlH1 (scope_label scope) st ++ xmlSpacer st
  end.

(** What a section with findings ends with, by scope. *)
Definition sectionOutro (scope : Scope) (st : StyleMap) : jsstring :=
  match switchOn (scope_id scope) with
  | CaseNewFeatures => []
  | CaseDeprecated | CaseDeployment | CaseSecurity | CaseMigration =>
      u16 "</w:tbl>" ++ xmlSpacer st
  | CaseBreaking | CaseDefault => xmlSpacer st
  end.

(** The section of a scope as the sequence the specification describes:
    for an empty list the heading and the notice; otherwise the opening,
    one piece per finding in the order of the list, and the closing. *)
Definition sectionInOrder (h : Host) (st : StyleMap) (scope : Scope)
    (bullets : list jsstring) : jsstring :=
  match bullets with
  | [] => buildScopeXml h scope [] st
  | _ :: _ =>
      sectionIntro scope st
        ++ concat (map (fun b => recordXml st (parseFinding (scope_id scope) b)) bullets)
        ++ sectionOutro scope st
  end.

(** The notice of a scope without findings. *)
Definition noFindingsText (h : Host) (scope : Scope) : jsstring :=
  u16 "No " ++ toLowerCase h (scope_label scope) ++ u16 " identified in this document.".

(** One code unit after the replacement of [c] by [repl]. *)
Definition escUnit (c : N) (repl : jsstring) (d : N) : jsstring :=
  if (d =? c)%N then repl else [d].

(** A text holds no sign [<], so no markup starts in it. *)
Definition noLt (t : jsstring) : bool := forallb (fun c => negb (c =? 60)%N) t.

(** The number of positions at which [p] occurs in [s]. *)
Fixpoint countOcc (p s : jsstring) : nat :=
  (if isPrefix p s then 1 else 0)
  + match s with
    | [] => 0
    | _ :: t => countOcc p t
    end.

(** [bounded L mr]: from a state inside the input, [mr] only reaches
    states further on, still inside the input. *)
Definition bounded (L : nat) (mr : mstate -> list mstate) : Prop :=
  forall x y, (pos x <= L)%nat -> In y (mr x) -> (pos x <= pos y <= L)%nat.


(** ** Fixtures for the examples *)

Definition testRels : jsstring :=
  u16 "<Relationships><Relationship Id=" ++ DQ ++ u16 "rId1" ++ DQ ++ u16 " Type=" ++ DQ
    ++ u16 "http://schemas.openxmlformats.org/officeDocument/2006/relationships/customXml"
    ++ DQ ++ u16 " Target=" ++ DQ ++ u16 "../customXml/item1.xml" ++ DQ
    ++ u16 "/><Relationship Id=" ++ DQ ++ u16 "rId2" ++ DQ ++ u16 " Target=" ++ DQ
    ++ u16 "styles.xml" ++ DQ ++ u16 "/></Relationships>".

Definition mediaPath : jsstring := u16 "word/media/image1.png".
Definition customItemPath : jsstring := u16 "customXml/item1.xml".

(** A host for the examples: identity codecs and a toy container.  The
    bytes PK! open as an archive without main document part; other bytes
    that start with PK open as an archive whose main document part is the
    rest, next to a relationship part, an image and a custom XML part;
    anything else is rejected. *)
Definition testHost : Host := {|
  hostUpper := fun t => t; hostLower := fun t => t;
  utf8decode := fun t => t; utf8encode := fun t => t;
  loadAsync := fun b => match b with
                        | 80%N :: 75%N :: 33%N :: t => Some {[ mediaPath := t ]}
                        | 80%N :: 75%N :: t =>
                            Some (<[documentPath := t]>
                                    (<[relsPath := testRels]>
                                       (<[mediaPath := [137%N; 80%N; 78%N; 71%N]]>
                                          {[ customItemPath := u16 "<x/>" ]})))
                        | _ => None end;
  generateAsync := fun z => default [] (z !! documentPath);
  isoDate := u16 "2024-05-06T07:08:09.000Z";
  defaultTemplate := [] |}.


Definition finding1 : jsstring :=
  u16 "Legacy Auth Token — Replaced by OAuth2 client credentials; update all integration scripts".

(** A feature finding with no colon and with a dash that has no white
    space around it. *)
Definition finding5 : jsstring := u16 "A class—sub items are new".

Definition noTitle : DocTitle := {| title := None; subtitle := None |}.

Definition releaseTitle : DocTitle :=
  {| title := Some (u16 "Release 2"); subtitle := None |}.

(** A body with a cover paragraph of style Title, a paragraph and a
    page-layout block. *)
Definition coverDoc : jsstring :=
  u16 "<w:body><w:p><w:pPr><w:pStyle w:val=" ++ DQ ++ u16 "Title" ++ DQ
    ++ u16 "/></w:pPr><w:r><w:t>Old</w:t></w:r></w:p><w:p>x</w:p><w:sectPr><w:pgSz/></w:sectPr></w:body>".

Definition plainDoc : jsstring := u16 "<w:body><w:p>a</w:p></w:body>".

Definition customScope : Scope :=
  {| scope_id := u16 "custom_1700000000000"; scope_label := u16 "Licensing <Terms>" |}.

Definition pkTemplate : bytes := u16 "PK<w:p>a</w:p><w:sectPr/>".

Definition pkDownload : Download :=
  {| file_name := u16 "ReleaseLens_notes_pdf_2024-05-06.docx";
     blob := newDocXml testHost (u16 "<w:p>a</w:p><w:sectPr/>") [customScope] ∅ noTitle
               DEFAULT_STYLES |}.

Definition notZip : CustomTemplate :=
  {| buffer := u16 "%PDF-1.7 not an archive"; styles := DEFAULT_STYLES |}.

Definition zipWithoutDocument : CustomTemplate :=
  {| buffer := u16 "PK!" ; styles := DEFAULT_STYLES |}.

(** A style catalogue that names three styles, one of them by a number. *)
Definition stylesXmlExample : jsstring :=
  u16 "<w:styles><w:style w:type=" ++ DQ ++ u16 "paragraph" ++ DQ ++ u16 " w:styleId=" ++ DQ
    ++ u16 "Titre1" ++ DQ ++ u16 "><w:name w:val=" ++ DQ ++ u16 "heading 1" ++ DQ
    ++ u16 "/><w:x/></w:style><w:style w:styleId=" ++ DQ ++ u16 "7" ++ DQ
    ++ u16 "><w:name w:val=" ++ DQ ++ u16 "Table  Header" ++ DQ
    ++ u16 "/></w:style><w:style w:styleId=" ++ DQ ++ u16 "Corps" ++ DQ
    ++ u16 "><w:name w:val=" ++ DQ ++ u16 "Body Text" ++ DQ ++ u16 "/></w:style></w:styles>".

(** A document part with two fill attributes; only the second has six
    hexadecimal digits. *)
Definition fillDoc : jsstring :=
  u16 "<w:p><w:shd w:fill=" ++ DQ ++ u16 "auto" ++ DQ ++ u16 "/><w:shd w:fill=" ++ DQ
    ++ u16 "ab12ef" ++ DQ ++ u16 "/></w:p>".

Definition styledArchive : gmap jsstring bytes :=
  <[stylesPath := stylesXmlExample]> {[ documentPath := fillDoc ]}.

Definition noCatalogueArchive : gmap jsstring bytes := {[ documentPath := fillDoc ]}.


(** ** Views of the further properties *)

(** What xmlEsc writes for one code unit. *)
Definition escOne (c : N) : jsstring :=
  if (c =? 38)%N then u16 "&amp;"
  else if (c =? 60)%N then u16 "&lt;"
  else if (c =? 62)%N then u16 "&gt;"
  else if (c =? 34)%N then u16 "&quot;"
  else [c].

(** A code unit that starts or ends a tag or closes an attribute value. *)
Definition isMarkupUnit (c : N) : bool := ((c =? 60) || (c =? 62) || (c =? 34))%N.

(** A code unit that xmlEsc rewrites. *)
Definition isSpecialUnit (c : N) : bool := (c =? 38)%N || isMarkupUnit c.

(** What a global replacement of one class of code units writes for one
    code unit. *)
Definition classUnit (ic neg : bool) (items : list citem) (repl : jsstring) (d : N)
    : jsstring :=
  if inClass ic neg items d then repl else [d].

(** A code unit that may stand in the name of the downloaded file. *)
Definition isNameUnit (c : N) : bool :=
  isAsciiLower c || isAsciiUpper c || inRange 48 57 c || (c =? 95)%N.

(** The paragraph that updateCoverTitle writes in place of the title
    paragraph of the cover. *)
Definition titlePara (h : Host) (docTitle : DocTitle) : jsstring :=
  u16 "<w:p><w:pPr><w:pStyle w:val=" ++ DQ ++ u16 "Title" ++ DQ ++ u16 "/></w:pPr>"
    ++ u16 "<w:r><w:t xml:space=" ++ DQ ++ u16 "preserve" ++ DQ ++ u16 ">"
    ++ xmlEsc (toUpperCase h (default [] (title docTitle)))
    ++ (if truthy (subtitle docTitle)
        then u16 " - " ++ xmlEsc (toUpperCase h (default [] (subtitle docTitle)))
        else [])
    ++ u16 "</w:t></w:r></w:p>".


(** The code units left after the longest prefix of units that satisfy [P]. *)
Fixpoint dropWhile (P : N -> bool) (s : jsstring) : jsstring :=
  match s with
  | c :: t => if P c then dropWhile P t else s
  | [] => []
  end.

(** The length of that prefix. *)
Fixpoint spanLen (P : N -> bool) (s : jsstring) : nat :=
  match s with
  | c :: t => if P c then S (spanLen P t) else 0%nat
  | [] => 0%nat
  end.

(** A code unit of the class of list markers of the docx exporter. *)
Definition isBulletMarker (c : N) : bool := inClass false false bulletMarker c.

(** What the leading pattern of the template exporter removes: a first
    unit of its class when closing brackets follow it, with the brackets. *)
Definition stripLead (l : jsstring) : jsstring :=
  match l with
  | c :: t =>
      if inClass false false [CRange 115 8226; CChar 42; CChar 100; CChar 46; CChar 41] c
         && Nat.leb 1 (spanLen (N.eqb 93) t)
      then dropWhile (N.eqb 93) t
      else l
  | [] => []
  end.

(** An id of the catalogue of scopes. *)
Definition isBuiltIn (id : jsstring) : bool := setHas (map entry_id ANALYSIS_SCOPES) id.

(** A line of an answer in the format that the prompt asks for: the
    number of the finding, a full stop, a space, the finding. *)
Definition numberedLine (i : nat) (b : jsstring) : jsstring :=
  numText (N.of_nat (i + 1)) ++ u16 ". " ++ b.

Definition numberedAnswer (bullets : list jsstring) : jsstring :=
  join LF (imap numberedLine bullets).

(** A hexadecimal digit in upper case. *)
Definition isUpperHex (c : N) : bool := inRange 48 57 c || inRange 65 70 c.

(** [needs r l]: every match of [r] holds the literal text [l]. *)
Fixpoint needs (r : regex) (l : jsstring) : bool :=
  match r with
  | Lit l' => str_eqb l' l
  | Seq r1 r2 => needs r1 l || needs r2 l
  | Alt r1 r2 => needs r1 l && needs r2 l
  | Grp _ r' => needs r' l
  | _ => false
  end.

(** The parts that the export rewrites, each with a text that every match
    of its pattern holds. *)
Definition rewrittenParts : list (jsstring * jsstring) :=
  [(relsPath, u16 "relationships/customXml");
   (contentTypesPath, u16 "/customXml/");
   (settingsRelsPath, u16 "dotm");
   (settingsPath, u16 "<w:attachedTemplate")].

(** A style element starts at position [k] of a catalogue: the text
    <w:style, not followed by a letter, a digit or an underscore. *)
Definition styleElementAt (xml : jsstring) (k : nat) : bool :=
  isPrefix (u16 "<w:style") (drop k xml) && negb (wordAt xml (k + 8)).

(** The opening tag of a table row. *)
Definition TR : jsstring := u16 "<w:tr>".

(** The cases of the switch that lay the findings out as a table. *)
Definition isTableCase (c : ScopeCase) : bool :=
  match c with
  | CaseDeprecated | CaseDeployment | CaseSecurity | CaseMigration => true
  | CaseNewFeatures | CaseBreaking | CaseDefault => false
  end.

(** No style id and no fill of the map holds the sign that opens a tag. *)
Definition stylesNoLt (st : StyleMap) : bool :=
  noLt (h1 st) && noLt (h2 st) && noLt (body st) && noLt (bullet st)
  && noLt (tableHeader st) && noLt (tableText st) && noLt (tableGrid st) && noLt (fill st).

(** [p] occurs in [s] at position [i] and at no later position. *)
Definition lastOccurrence (p s : jsstring) (i : nat) : Prop :=
  isPrefix p (drop i s) = true
  /\ forall k, (i < k)%nat -> isPrefix p (drop k s) = false.

(** [p] occurs in [s] at position [j], at or before [i], and at no
    position after [j] up to [i]. *)
Definition lastOccurrenceUpTo (p s : jsstring) (i j : nat) : Prop :=
  (j <= i)%nat /\ isPrefix p (drop j s) = true
  /\ forall k, (j < k <= i)%nat -> isPrefix p (drop k s) = false.

(** *** A reading of markup

    The reader below splits a text into its tags and its runs of text: a
    tag starts at the sign [<] and ends at the first sign [>] that lies
    outside an attribute value (a value is what stands between two double
    quotes); what stands between two tags is a run of text. *)
Inductive token : Type :=
| Tag (t : jsstring)     (* what stands between the signs < and > *)
| Text (t : jsstring).   (* a run of text that is not empty *)

Inductive scanMode : Type := InText | InTag | InQuote.

Definition textTok (t : jsstring) : list token :=
  match t with [] => [] | _ :: _ => [Text t] end.

Fixpoint tokensFrom (mode : scanMode) (cur s : jsstring) : list token :=
  match s with
  | [] => match mode with InText => textTok cur | _ => [] end
  | c :: t =>
      match mode with
      | InText =>
          if (c =? 60)%N then textTok cur ++ tokensFrom InTag [] t
          else tokensFrom InText (cur ++ [c]) t
      | InTag =>
          if (c =? 62)%N then Tag cur :: tokensFrom InText [] t
          else if (c =? 34)%N then tokensFrom InQuote (cur ++ [c]) t
          else tokensFrom InTag (cur ++ [c]) t
      | InQuote =>
          if (c =? 34)%N then tokensFrom InTag (cur ++ [c]) t
          else tokensFrom InQuote (cur ++ [c]) t
      end
  end.

Definition tokens (s : jsstring) : list token := tokensFrom InText [] s.

(** A tag that opens (or is) the element [name]: the name, then nothing,
    a space or a slash. *)
Definition isOpenTag (name : jsstring) (t : token) : bool :=
  match t with
  | Tag c =>
      isPrefix name c
      && match drop (length name) c with
         | [] => true
         | d :: _ => (d =? 32)%N || (d =? 47)%N
         end
  | Text _ => false
  end.

Definition isText (t : token) : bool :=
  match t with Text _ => true | Tag _ => false end.

(** The tags and the text of a paragraph of style [style] with one run
    that holds [text], and those of a paragraph of that style without a
    run. *)
Definition paraTokens (style text : jsstring) : list token :=
  [Tag (u16 "w:p"); Tag (u16 "w:pPr");
   Tag (u16 "w:pStyle w:val=" ++ DQ ++ style ++ DQ ++ u16 "/");
   Tag (u16 "/w:pPr"); Tag (u16 "w:r");
   Tag (u16 "w:t xml:space=" ++ DQ ++ u16 "preserve" ++ DQ)]
  ++ textTok text
  ++ [Tag (u16 "/w:t"); Tag (u16 "/w:r"); Tag (u16 "/w:p")].

Definition emptyParaTokens (style : jsstring) : list token :=
  [Tag (u16 "w:p"); Tag (u16 "w:pPr");
   Tag (u16 "w:pStyle w:val=" ++ DQ ++ style ++ DQ ++ u16 "/");
   Tag (u16 "/w:pPr"); Tag (u16 "/w:p")].

(** * Properties *)

(** ** Lists and strings *)

Lemma flat_map_all_nil {A B : Type} (f : A -> list B) (l : list A) :
  (forall y, f y = []) -> flat_map f l = [].
Proof. intros H. induction l as [|a l IH]; simpl; [reflexivity|]. now rewrite H, IH. Qed.

Lemma flat_map_ext_in {A B : Type} (f g : A -> list B) (l : list A) :
  (forall a, In a l -> f a = g a) -> flat_map f l = flat_map g l.
Proof.
  induction l as [|a l IH]; intros H; [reflexivity|]. cbn [flat_map].
  rewrite (H a) by (now left). rewrite IH; [reflexivity|].
  intros b Hb. apply H. now right.
Qed.

Lemma forallb_ext_eq {A : Type} (f g : A -> bool) (l : list A) :
  (forall a, f a = g a) -> forallb f l = forallb g l.
Proof. intros H. induction l as [|a l IH]; simpl; [reflexivity|]. now rewrite H, IH. Qed.

Lemma filter_all_true {A : Type} (l : list A) : List.filter (fun _ => true) l = l.
Proof. induction l as [|a l IH]; simpl; [reflexivity|]. now rewrite IH. Qed.

Lemma join_nil_concat (l : list jsstring) : join [] l = concat l.
Proof.
  induction l as [|a l IH]; [reflexivity|].
  destruct l as [|b l]; [simpl; now rewrite app_nil_r|].
  change (join [] (a :: b :: l)) with (a ++ [] ++ join [] (b :: l)).
  rewrite IH. reflexivity.
Qed.

Lemma fold_left_append (f : jsstring -> jsstring) (l : list jsstring) (init : jsstring) :
  fold_left (fun xml b => xml ++ f b) l init = init ++ concat (map f l).
Proof.
  revert init. induction l as [|a l IH]; intros init; simpl.
  - now rewrite app_nil_r.
  - rewrite IH. now rewrite <- app_assoc.
Qed.

Lemma fold_left_pointwise (f g : jsstring -> jsstring -> jsstring) (l : list jsstring)
    (init : jsstring) :
  (forall xml b, f xml b = g xml b) -> fold_left f l init = fold_left g l init.
Proof.
  intros H. revert init. induction l as [|a l IH]; intros init; simpl; [reflexivity|].
  now rewrite H, IH.
Qed.

Lemma orElseU_Some (a b : jsstring) : orElseU (Some a) b = orElse a b.
Proof. now destruct a. Qed.

Lemma orElseU_None (b : jsstring) : orElseU None b = b.
Proof. reflexivity. Qed.

Lemma orElseU_non_empty (a : option jsstring) (b : jsstring) : b <> [] -> orElseU a b <> [].
Proof. intros Hb. destruct a as [[|c t]|]; simpl; try exact Hb. discriminate. Qed.

Lemma jslen_nonneg (s : jsstring) : 0 <= jslen s.
Proof. unfold jslen. lia. Qed.

Lemma relIndex_id (n i : Z) : 0 <= i <= n -> relIndex n i = i.
Proof. intros H. unfold relIndex. destruct (Z.ltb_spec i 0); lia. Qed.

Lemma slice_0_take (s : jsstring) (k : Z) :
  0 <= k <= jslen s -> slice s 0 k = take (Z.to_nat k) s.
Proof.
  intros H. unfold slice. rewrite !relIndex_id by (pose proof (jslen_nonneg s); lia).
  simpl. now rewrite Z.sub_0_r.
Qed.

Lemma sliceFrom_drop (s : jsstring) (k : Z) :
  0 <= k <= jslen s -> sliceFrom s k = drop (Z.to_nat k) s.
Proof.
  intros H. unfold sliceFrom, slice.
  rewrite !relIndex_id by (pose proof (jslen_nonneg s); lia).
  apply firstn_all2. rewrite length_drop. unfold jslen. lia.
Qed.

Lemma slice_prefix (a b : jsstring) (k : Z) :
  0 <= k <= jslen a -> slice (a ++ b) 0 k = slice a 0 k.
Proof.
  intros H. rewrite !slice_0_take.
  - rewrite take_app_le; [reflexivity|]. unfold jslen in H. lia.
  - exact H.
  - unfold jslen in *. rewrite length_app. lia.
Qed.

Lemma isPrefix_lookup (p s : jsstring) :
  isPrefix p s = true -> forall k c, p !! k = Some c -> s !! k = Some c.
Proof.
  revert s. induction p as [|a p IH]; intros s H k c Hk; [discriminate|].
  destruct s as [|b s]; [discriminate|]. simpl in H.
  apply andb_true_iff in H as [Hab Hp]. apply N.eqb_eq in Hab. subst b.
  destruct k as [|k]; simpl in *; [exact Hk|]. now apply IH.
Qed.

Lemma isPrefix_app (p s : jsstring) : isPrefix p (p ++ s) = true.
Proof. induction p as [|a p IH]; simpl; [reflexivity|]. now rewrite N.eqb_refl. Qed.

Lemma isPrefix_take (p s : jsstring) :
  isPrefix p s = true -> take (length p) s = p.
Proof.
  revert s. induction p as [|a p IH]; intros s H; [reflexivity|].
  destruct s as [|b s]; [discriminate|]. simpl in H.
  apply andb_true_iff in H as [Hab Hp]. apply N.eqb_eq in Hab. subst b.
  simpl. f_equal. now apply IH.
Qed.

Lemma isPrefix_length (p s : jsstring) :
  isPrefix p s = true -> (length p <= length s)%nat.
Proof.
  revert s. induction p as [|a p IH]; intros s H; simpl; [lia|].
  destruct s as [|b s]; [discriminate|]. simpl in H.
  apply andb_true_iff in H as [_ Hp]. apply IH in Hp. simpl. lia.
Qed.

(** What [lastIndexDown] returns: -1, or a position not above the start
    at which the pattern occurs. *)
Lemma lastIndexDown_spec (p s : jsstring) (n : nat) :
  lastIndexDown p s n = -1
  \/ (0 <= lastIndexDown p s n <= Z.of_nat n
      /\ isPrefix p (drop (Z.to_nat (lastIndexDown p s n)) s) = true).
Proof.
  induction n as [|n IH]; simpl.
  - destruct (isPrefix p (drop 0 s)) eqn:E; [right|left; reflexivity].
    split; [lia|]. exact E.
  - destruct (isPrefix p (drop (S n) s)) eqn:E.
    + right. split; [lia|]. rewrite Nat2Z.id. exact E.
    + destruct IH as [IH|[IH1 IH2]]; [left; exact IH|right]. split; [lia|exact IH2].
Qed.

(** No occurrence lies strictly between the one returned and the start. *)
Lemma lastIndexDown_last (p s : jsstring) (n k : nat) :
  (Z.of_nat k <= Z.of_nat n) -> lastIndexDown p s n < Z.of_nat k ->
  isPrefix p (drop k s) = false.
Proof.
  induction n as [|n IH]; simpl; intros Hk Hlt.
  - assert (k = 0%nat) by lia. subst k.
    destruct (isPrefix p (drop 0 s)); [lia|reflexivity].
  - destruct (isPrefix p (drop (S n) s)) eqn:E; [lia|].
    destruct (Nat.eq_dec k (S n)) as [->|Hne]; [exact E|].
    apply IH; [lia|exact Hlt].
Qed.

Lemma lookup_drop_plus (s : jsstring) (i k : nat) : drop i s !! k = s !! (i + k)%nat.
Proof. apply lookup_drop. Qed.

Lemma drop_cons_lookup (s : jsstring) (i : nat) (c : N) :
  s !! i = Some c -> drop i s = c :: drop (S i) s.
Proof.
  revert i. induction s as [|a s IH]; intros [|i] H; try discriminate.
  - simpl in H. injection H as ->. reflexivity.
  - simpl in *. now apply IH.
Qed.

Lemma drop_nil_lookup (s : jsstring) (i : nat) : s !! i = None -> drop i s = [].
Proof.
  revert i. induction s as [|a s IH]; intros [|i] H; try discriminate; try reflexivity.
  simpl in *. now apply IH.
Qed.

(** ** The matcher *)

(** *** Equations *)

(** The equations of the matcher. *)
Lemma m_Seq ic s r1 r2 x : m ic s (Seq r1 r2) x = flat_map (m ic s r2) (m ic s r1 x).
Proof. reflexivity. Qed.

Lemma m_Lit ic s l x :
  m ic s (Lit l) x = if litMatch ic l (drop (pos x) s) then [advance x (length l)] else [].
Proof. reflexivity. Qed.

Lemma m_Grp ic s i r x :
  m ic s (Grp i r) x = map (fun y => setCap i (pos x) (pos y) y) (m ic s r x).
Proof. reflexivity. Qed.

Lemma m_Rep ic s mn mx g r x :
  m ic s (Rep mn mx g r) x
  = repLoop (m ic s r) (clearCaps (groups r)) (mn + (length s - pos x) + 1) mn mx g x.
Proof. reflexivity. Qed.

Lemma canon_false (c : N) : canon false c = c.
Proof. reflexivity. Qed.

Lemma litMatch_isPrefix (l s : jsstring) : litMatch false l s = isPrefix l s.
Proof.
  revert s. induction l as [|a l IH]; intros [|b s]; simpl; try reflexivity.
  now rewrite IH.
Qed.

Lemma litMatch_length (ic : bool) (l s : jsstring) :
  litMatch ic l s = true -> (length l <= length s)%nat.
Proof.
  revert s. induction l as [|a l IH]; intros s H; simpl; [lia|].
  destruct s as [|b s]; [discriminate|]. simpl in H.
  apply andb_true_iff in H as [_ H]. apply IH in H. simpl. lia.
Qed.

Lemma clearCaps_nil (x : mstate) : clearCaps [] x = x.
Proof. destruct x as [p c]. unfold clearCaps. simpl. now rewrite filter_all_true. Qed.

Lemma clearCaps_pos (gs : list nat) (x : mstate) : pos (clearCaps gs x) = pos x.
Proof. reflexivity. Qed.

(** *** The scan of the candidate positions *)

Lemma scan_none (ic : bool) (s : jsstring) (r : regex) (n q : nat) :
  (forall q', matchAt ic s r q' = None) -> scan ic s r n q = None.
Proof.
  intros H. revert q. induction n as [|n IH]; intros q; simpl; [reflexivity|].
  now rewrite H.
Qed.

Lemma scan_Some (ic : bool) (s : jsstring) (r : regex) (n q q0 : nat) (y : mstate) :
  scan ic s r n q = Some (q0, y) ->
  matchAt ic s r q0 = Some y /\ (q <= q0 < q + n)%nat
  /\ forall q', (q <= q' < q0)%nat -> matchAt ic s r q' = None.
Proof.
  revert q. induction n as [|n IH]; intros q; simpl; [discriminate|].
  destruct (matchAt ic s r q) as [y'|] eqn:E.
  - intros H. injection H as <- <-. split; [exact E|]. split; [lia|]. intros q' Hq'. lia.
  - intros H. apply IH in H as (H1 & H2 & H3). split; [exact H1|]. split; [lia|].
    intros q' Hq'. destruct (Nat.eq_dec q' q) as [->|Hne]; [exact E|]. apply H3. lia.
Qed.

Lemma scan_first (ic : bool) (s : jsstring) (r : regex) (n q q0 : nat) (y : mstate) :
  (q <= q0 < q + n)%nat -> matchAt ic s r q0 = Some y ->
  (forall q', (q <= q' < q0)%nat -> matchAt ic s r q' = None) ->
  scan ic s r n q = Some (q0, y).
Proof.
  revert q. induction n as [|n IH]; intros q Hq Hy Hnone; [lia|]. simpl.
  destruct (Nat.eq_dec q q0) as [->|Hne].
  - now rewrite Hy.
  - rewrite Hnone by lia. apply IH; [lia|exact Hy|]. intros q' Hq'. apply Hnone. lia.
Qed.

(** *** Progress of the matcher and adequacy of the fuel *)

Lemma repLoop_bounded (L : nat) (mr : mstate -> list mstate) (gs : list nat) :
  bounded L mr ->
  forall fuel mn mx g, bounded L (repLoop mr (clearCaps gs) fuel mn mx g).
Proof.
  intros Hmr fuel. induction fuel as [|f IH]; intros mn mx g x y Hx Hy; [destruct Hy|].
  cbn [repLoop] in Hy.
  assert (Hiter : forall z,
             In z (flat_map
                     (fun y0 => if Nat.eqb mn 0 && Nat.eqb (pos y0) (pos x) then []
                                else repLoop mr (clearCaps gs) f (Nat.pred mn)
                                       (Nat.pred <$> mx) g y0)
                     (mr (clearCaps gs x))) ->
             (pos x <= pos z <= L)%nat).
  { intros z Hz. apply in_flat_map in Hz as (y0 & Hy0 & Hz).
    apply Hmr in Hy0; [|rewrite clearCaps_pos; exact Hx]. rewrite clearCaps_pos in Hy0.
    destruct (Nat.eqb mn 0 && Nat.eqb (pos y0) (pos x)); [destruct Hz|].
    apply IH in Hz; lia. }
  destruct mx as [[|k]|].
  - destruct Hy as [<-|[]]. lia.
  - destruct mn as [|mn']; [|now apply Hiter].
    destruct g.
    + apply in_app_or in Hy as [Hy|[<-|[]]]; [now apply Hiter|lia].
    + destruct Hy as [<-|Hy]; [lia|now apply Hiter].
  - destruct mn as [|mn']; [|now apply Hiter].
    destruct g.
    + apply in_app_or in Hy as [Hy|[<-|[]]]; [now apply Hiter|lia].
    + destruct Hy as [<-|Hy]; [lia|now apply Hiter].
Qed.

(** Every pattern only moves forward, and never past the end. *)
Lemma m_bounded (ic : bool) (s : jsstring) (r : regex) : bounded (length s) (m ic s r).
Proof.
  induction r as [l|neg items| | | | |r1 IH1 r2 IH2|r1 IH1 r2 IH2|mn mx g r IH|i r IH];
    intros x y Hx Hy.
  - rewrite m_Lit in Hy. destruct (litMatch ic l (drop (pos x) s)) eqn:E; [|destruct Hy].
    destruct Hy as [<-|[]]. apply litMatch_length in E. rewrite length_drop in E.
    cbn [advance pos]. lia.
  - cbn [m] in Hy. destruct (s !! pos x) as [c|] eqn:E; [|destruct Hy].
    apply lookup_lt_Some in E.
    destruct (inClass ic neg items c); [|destruct Hy]. destruct Hy as [<-|[]].
    cbn [advance pos]. lia.
  - cbn [m] in Hy. destruct (s !! pos x) as [c|] eqn:E; [|destruct Hy].
    apply lookup_lt_Some in E.
    destruct (isLineTerminator c); [destruct Hy|]. destruct Hy as [<-|[]].
    cbn [advance pos]. lia.
  - cbn [m] in Hy. destruct (Nat.eqb (pos x) 0); [|destruct Hy]. destruct Hy as [<-|[]]. lia.
  - cbn [m] in Hy. destruct (Nat.eqb (pos x) (length s)); [|destruct Hy].
    destruct Hy as [<-|[]]. lia.
  - cbn [m] in Hy. destruct (xorb (wordBefore s (pos x)) (wordAt s (pos x))); [|destruct Hy].
    destruct Hy as [<-|[]]. lia.
  - rewrite m_Seq in Hy. apply in_flat_map in Hy as (z & Hz & Hy).
    apply IH1 in Hz; [|exact Hx]. apply IH2 in Hy; lia.
  - cbn [m] in Hy. apply in_app_or in Hy as [Hy|Hy]; [now apply IH1|now apply IH2].
  - rewrite m_Rep in Hy. eapply repLoop_bounded; [exact IH|exact Hx|exact Hy].
  - rewrite m_Grp in Hy. apply in_map_iff in Hy as (z & <- & Hz).
    apply IH in Hz; [|exact Hx]. cbn [setCap pos]. exact Hz.
Qed.

(** The fuel of a quantifier is not used up: any two amounts above the
    minimum plus the input that is left give the same matches. *)
Lemma repLoop_fuel (L : nat) (mr : mstate -> list mstate) (gs : list nat) :
  bounded L mr ->
  forall f1 f2 mn mx g x, (pos x <= L)%nat ->
    (mn + (L - pos x) < f1)%nat -> (mn + (L - pos x) < f2)%nat ->
    repLoop mr (clearCaps gs) f1 mn mx g x = repLoop mr (clearCaps gs) f2 mn mx g x.
Proof.
  intros Hmr f1. induction f1 as [|f1 IH]; intros f2 mn mx g x Hx H1 H2; [lia|].
  destruct f2 as [|f2]; [lia|]. cbn [repLoop].
  assert (Hiter :
    flat_map (fun y => if Nat.eqb mn 0 && Nat.eqb (pos y) (pos x) then []
                       else repLoop mr (clearCaps gs) f1 (Nat.pred mn) (Nat.pred <$> mx) g y)
             (mr (clearCaps gs x))
    = flat_map (fun y => if Nat.eqb mn 0 && Nat.eqb (pos y) (pos x) then []
                         else repLoop mr (clearCaps gs) f2 (Nat.pred mn) (Nat.pred <$> mx) g y)
               (mr (clearCaps gs x))).
  { apply flat_map_ext_in. intros y Hy.
    apply Hmr in Hy; [|rewrite clearCaps_pos; exact Hx]. rewrite clearCaps_pos in Hy.
    destruct (Nat.eqb mn 0 && Nat.eqb (pos y) (pos x)) eqn:E; [reflexivity|].
    apply IH; [lia| |].
    - destruct mn as [|mn']; [|cbn [Nat.pred]; lia].
      cbn [Nat.eqb andb] in E. apply Nat.eqb_neq in E. cbn [Nat.pred]. lia.
    - destruct mn as [|mn']; [|cbn [Nat.pred]; lia].
      cbn [Nat.eqb andb] in E. apply Nat.eqb_neq in E. cbn [Nat.pred]. lia. }
  now rewrite Hiter.
Qed.

(** In particular the matches of a quantified pattern are those of the
    loop run with any larger fuel. *)
Lemma m_Rep_fuel (ic : bool) (s : jsstring) (mn : nat) (mx : option nat) (g : bool)
    (r : regex) (x : mstate) (extra : nat) :
  (pos x <= length s)%nat ->
  m ic s (Rep mn mx g r) x
  = repLoop (m ic s r) (clearCaps (groups r))
      (mn + (length s - pos x) + 1 + extra) mn mx g x.
Proof.
  intros Hx. rewrite m_Rep.
  apply (repLoop_fuel (length s)); [apply m_bounded|exact Hx|lia|lia].
Qed.

Lemma matchAt_bounds (ic : bool) (s : jsstring) (r : regex) (q : nat) (y : mstate) :
  (q <= length s)%nat -> matchAt ic s r q = Some y -> (q <= pos y <= length s)%nat.
Proof.
  unfold matchAt. intros Hq H.
  destruct (m ic s r (MState q [])) as [|z l] eqn:E; [discriminate|].
  injection H as ->.
  apply (m_bounded ic s r (MState q []) y Hq). rewrite E. now left.
Qed.

Lemma execFrom_bounds (ic : bool) (s : jsstring) (r : regex) (i q : nat) (y : mstate) :
  execFrom ic s r i = Some (q, y) -> (i <= q <= pos y)%nat /\ (pos y <= length s)%nat.
Proof.
  unfold execFrom. intros H. apply scan_Some in H as (H & Hq & _).
  apply matchAt_bounds in H; lia.
Qed.

Lemma execFrom_ge (ic : bool) (s : jsstring) (r : regex) (i q : nat) (y : mstate) :
  execFrom ic s r i = Some (q, y) -> (i <= q)%nat.
Proof. unfold execFrom. intros H. apply scan_Some in H as (_ & H & _). lia. Qed.

(** A pattern that starts with literal text consumes at least that text. *)
Lemma m_Seq_Lit_progress (ic : bool) (s : jsstring) (l : jsstring) (r : regex)
    (x y : mstate) :
  (pos x <= length s)%nat -> In y (m ic s (Seq (Lit l) r) x) ->
  (pos x + length l <= pos y)%nat.
Proof.
  intros Hx Hy. rewrite m_Seq in Hy. apply in_flat_map in Hy as (z & Hz & Hy).
  rewrite m_Lit in Hz. destruct (litMatch ic l (drop (pos x) s)) eqn:E; [|destruct Hz].
  destruct Hz as [<-|[]]. apply litMatch_length in E. rewrite length_drop in E.
  apply m_bounded in Hy; cbn [advance pos] in *; lia.
Qed.

Lemma substr_split (s : jsstring) (a b c : nat) :
  (a <= b)%nat -> (b <= c)%nat -> substr s a c = substr s a b ++ substr s b c.
Proof.
  intros Hab Hbc. unfold substr.
  replace (c - a)%nat with ((b - a) + (c - b))%nat by lia.
  rewrite <- take_take_drop, drop_drop.
  now replace (a + (b - a))%nat with b by lia.
Qed.

Lemma substr_drop (s : jsstring) (a b : nat) :
  (a <= b)%nat -> drop a s = substr s a b ++ drop b s.
Proof.
  intros Hab. unfold substr.
  rewrite <- (take_drop (b - a) (drop a s)) at 1. rewrite drop_drop.
  now replace (a + (b - a))%nat with b by lia.
Qed.

Lemma substr_unit (s : jsstring) (i : nat) (b : N) :
  s !! i = Some b -> substr s i (S i) = [b].
Proof.
  intros E. unfold substr. rewrite (drop_cons_lookup _ _ _ E).
  replace (S i - i)%nat with 1%nat by lia. reflexivity.
Qed.

Lemma substr_empty (s : jsstring) (i : nat) : substr s i i = [].
Proof. unfold substr. now rewrite Nat.sub_diag. Qed.

(** The text before lastIndex that is not yet copied is copied as it is. *)
Lemma replaceLoop_shift (ic : bool) (s : jsstring) (r : regex) (repl : jsstring)
    (f i last : nat) :
  (last <= i)%nat ->
  replaceLoop ic s r repl (S f) i last
  = substr s last i ++ replaceLoop ic s r repl (S f) i i.
Proof.
  intros Hle. cbn [replaceLoop].
  destruct (execFrom ic s r i) as [[q y]|] eqn:E.
  - pose proof (execFrom_ge _ _ _ _ _ _ E) as Hq.
    rewrite (substr_split s last i q) by lia. now rewrite <- app_assoc.
  - now apply substr_drop.
Qed.

(** The fuel of a global replacement is not used up. *)
Lemma replaceLoop_fuel (ic : bool) (s : jsstring) (r : regex) (repl : jsstring) :
  forall f1 f2 i last,
    (S (length s) - i < f1)%nat -> (S (length s) - i < f2)%nat ->
    replaceLoop ic s r repl f1 i last = replaceLoop ic s r repl f2 i last.
Proof.
  intros f1. induction f1 as [|f1 IH]; intros f2 i last H1 H2; [lia|].
  destruct f2 as [|f2]; [lia|]. cbn [replaceLoop].
  destruct (execFrom ic s r i) as [[q y]|] eqn:E; [|reflexivity].
  apply execFrom_bounds in E as [Hq Hy].
  f_equal. f_equal.
  destruct (Nat.eqb_spec (pos y) q) as [Heq|Hne]; apply IH; lia.
Qed.

Lemma replaceAll_fuel (ic : bool) (s : jsstring) (r : regex) (repl : jsstring)
    (extra : nat) :
  replaceAll ic s r repl = replaceLoop ic s r repl (S (S (length s)) + extra) 0 0.
Proof. unfold replaceAll. apply replaceLoop_fuel; lia. Qed.

(** The fuel of a split is not used up: two turns at most are spent on a
    position. *)
Lemma splitLoop_fuel (ic : bool) (s : jsstring) (r : regex) :
  forall f1 f2 p q, (p <= q)%nat ->
    (2 * (length s - q) + (if Nat.ltb p q then 1 else 0) < f1)%nat ->
    (2 * (length s - q) + (if Nat.ltb p q then 1 else 0) < f2)%nat ->
    splitLoop ic s r f1 p q = splitLoop ic s r f2 p q.
Proof.
  intros f1. induction f1 as [|f1 IH]; intros f2 p q Hpq H1 H2; [lia|].
  destruct f2 as [|f2]; [lia|]. cbn [splitLoop].
  destruct (Nat.leb_spec (length s) q) as [Hle|Hlt]; [reflexivity|].
  assert (Hnext : splitLoop ic s r f1 p (S q) = splitLoop ic s r f2 p (S q)).
  { apply IH; [lia| |]; destruct (Nat.ltb p q), (Nat.ltb p (S q)); lia. }
  destruct (matchAt ic s r q) as [y|] eqn:E; [|exact Hnext].
  apply matchAt_bounds in E; [|lia].
  replace (Nat.min (pos y) (length s)) with (pos y) by lia.
  destruct (Nat.eqb_spec (pos y) p) as [Heq|Hne]; [exact Hnext|].
  f_equal.
  apply IH; [lia| |]; rewrite Nat.ltb_irrefl;
    destruct (Nat.ltb_spec p q); lia.
Qed.

Lemma split_fuel (ic : bool) (s : jsstring) (r : regex) (extra : nat) :
  s <> [] -> split ic s r = splitLoop ic s r (S (2 * length s) + extra) 0 0.
Proof.
  intros Hs. unfold split. destruct s as [|c s]; [contradiction|].
  apply splitLoop_fuel; [lia| |]; cbn [Nat.ltb Nat.leb]; lia.
Qed.

(** *** Closed forms *)

(** A class repeated exactly [n] times matches the next [n] code units when
    all of them are in the class. *)
Lemma repLoop_exact_class (ic : bool) (s : jsstring) (neg : bool) (items : list citem)
    (g : bool) (n : nat) :
  forall (fuel : nat) (x : mstate), (n < fuel)%nat ->
  repLoop (m ic s (Cls neg items)) (clearCaps []) fuel n (Some n) g x
  = if Nat.leb n (length (drop (pos x) s))
       && forallb (inClass ic neg items) (take n (drop (pos x) s))
    then [MState (pos x + n) (caps x)] else [].
Proof.
  induction n as [|n IH]; intros fuel x Hf.
  - destruct fuel as [|f]; [lia|]. destruct x as [p c]. simpl.
    now rewrite Nat.add_0_r.
  - destruct fuel as [|f]; [lia|].
    cbn [repLoop Nat.pred fmap option_fmap option_map]. rewrite clearCaps_nil.
    cbn [Nat.eqb andb]. cbn [m].
    destruct (s !! pos x) as [c|] eqn:E.
    + rewrite (drop_cons_lookup _ _ _ E). cbn [length take forallb].
      destruct (inClass ic neg items c).
      * cbn [flat_map]. rewrite app_nil_r. rewrite IH by lia.
        cbn [advance pos caps]. replace (pos x + 1)%nat with (S (pos x)) by lia.
        replace (S (pos x) + n)%nat with (pos x + S n)%nat by lia.
        cbn [andb Nat.leb]. reflexivity.
      * cbn [flat_map andb]. now rewrite andb_false_r.
    + rewrite (drop_nil_lookup _ _ E). reflexivity.
Qed.

Lemma splitLoop_no_match (s : jsstring) (r : regex) (fuel p q : nat) :
  (forall q', matchAt false s r q' = None) -> splitLoop false s r fuel p q = [drop p s].
Proof.
  intros H. revert q. induction fuel as [|f IH]; intros q; simpl; [reflexivity|].
  destruct (Nat.leb (length s) q); [reflexivity|]. rewrite H. apply IH.
Qed.

Lemma split_no_match (s : jsstring) (r : regex) :
  (forall q, matchAt false s r q = None) -> split false s r = [s].
Proof.
  intros H. unfold split. destruct s as [|c s]; [now rewrite H|].
  now rewrite splitLoop_no_match.
Qed.

Lemma matchAt_unit (s : jsstring) (c : N) (q : nat) :
  matchAt false s (Lit [c]) q
  = match s !! q with
    | Some b => if (c =? b)%N then Some (MState (q + 1) []) else None
    | None => None
    end.
Proof.
  unfold matchAt. rewrite m_Lit, litMatch_isPrefix. cbn [pos].
  destruct (s !! q) as [b|] eqn:E.
  - rewrite (drop_cons_lookup _ _ _ E). cbn [isPrefix].
    destruct (c =? b)%N; reflexivity.
  - rewrite (drop_nil_lookup _ _ E). reflexivity.
Qed.

Lemma execFrom_unit_hit (s : jsstring) (c : N) (i : nat) :
  s !! i = Some c -> execFrom false s (Lit [c]) i = Some (i, MState (i + 1) []).
Proof.
  intros E. unfold execFrom.
  assert (Hlt : (i < length s)%nat) by (eapply lookup_lt_Some; exact E).
  replace (S (length s) - i)%nat with (S (length s - i)) by lia.
  cbn [scan]. rewrite matchAt_unit, E, N.eqb_refl. reflexivity.
Qed.

Lemma execFrom_unit_miss (s : jsstring) (c b : N) (i : nat) :
  s !! i = Some b -> b <> c ->
  execFrom false s (Lit [c]) i = execFrom false s (Lit [c]) (S i).
Proof.
  intros E Hne. unfold execFrom.
  assert (Hlt : (i < length s)%nat) by (eapply lookup_lt_Some; exact E).
  replace (S (length s) - i)%nat with (S (length s - i)) by lia.
  cbn [scan]. rewrite matchAt_unit, E.
  destruct (N.eqb_spec c b) as [->|_]; [congruence|].
  replace (S (length s) - S i)%nat with (length s - i)%nat by lia. reflexivity.
Qed.

Lemma execFrom_unit_end (s : jsstring) (c : N) (i : nat) :
  s !! i = None -> execFrom false s (Lit [c]) i = None.
Proof.
  intros E. unfold execFrom.
  assert (Hge : (length s <= i)%nat) by (apply lookup_ge_None; exact E).
  destruct (S (length s) - i)%nat as [|n] eqn:En; [reflexivity|].
  assert (n = 0%nat) by lia. subst n.
  cbn [scan]. now rewrite matchAt_unit, E.
Qed.

(** Replacing every occurrence of one code unit rewrites the string unit
    by unit. *)
Lemma replaceLoop_unit (s : jsstring) (c : N) (repl : jsstring) (k : nat) :
  forall (i fuel : nat), (length s - i = k)%nat -> (k < fuel)%nat ->
  replaceLoop false s (Lit [c]) repl fuel i i = flat_map (escUnit c repl) (drop i s).
Proof.
  induction k as [k IH] using lt_wf_ind. intros i fuel Hk Hf.
  destruct fuel as [|f]; [lia|].
  destruct (s !! i) as [b|] eqn:E.
  - assert (Hlt : (i < length s)%nat) by (eapply lookup_lt_Some; exact E).
    rewrite (drop_cons_lookup _ _ _ E). cbn [flat_map]. unfold escUnit at 1.
    destruct (N.eqb_spec b c) as [->|Hne].
    + cbn [replaceLoop]. rewrite (execFrom_unit_hit _ _ _ E). cbn [pos].
      rewrite substr_empty. cbn [app].
      replace (Nat.eqb (i + 1) i) with false by (symmetry; apply Nat.eqb_neq; lia).
      f_equal. replace (i + 1)%nat with (S i) by lia.
      apply (IH (length s - S i)%nat); lia.
    + assert (Hstep : replaceLoop false s (Lit [c]) repl (S f) i i
                      = replaceLoop false s (Lit [c]) repl (S f) (S i) i).
      { cbn [replaceLoop]. now rewrite (execFrom_unit_miss _ _ _ _ E Hne). }
      rewrite Hstep, replaceLoop_shift by lia. rewrite (substr_unit _ _ _ E).
      cbn [app]. f_equal. apply (IH (length s - S i)%nat); lia.
  - cbn [replaceLoop]. rewrite (execFrom_unit_end _ _ _ E).
    now rewrite (drop_nil_lookup _ _ E).
Qed.

Lemma replaceAll_unit (s : jsstring) (c : N) (repl : jsstring) :
  replaceAll false s (Lit [c]) repl = flat_map (escUnit c repl) s.
Proof.
  unfold replaceAll. rewrite (replaceLoop_unit s c repl (length s)) by lia.
  reflexivity.
Qed.

(** *** Examples: the matcher on inputs whose result in JavaScript is known *)

Example split_on_spaced_hyphen :
  split false (u16 "a - b  -  c") (Seq (Plus white) (Seq (Lit (u16 "-")) (Plus white)))
  = [u16 "a"; u16 "b"; u16 "c"].
Proof. vm_compute. reflexivity. Qed.

Example split_on_empty_pattern :
  split false (u16 "abc") (Lit []) = [u16 "a"; u16 "b"; u16 "c"].
Proof. vm_compute. reflexivity. Qed.

Example replace_empty_matches :
  replaceAll false (u16 "abc") (Star (Lit (u16 "x"))) (u16 "-") = u16 "-a-b-c-".
Proof. vm_compute. reflexivity. Qed.

Example greedy_and_lazy :
  (pos <$> matchAt false (u16 "abcabc") (Seq (Lit (u16 "a")) (Seq (Star Dot) (Lit (u16 "c")))) 0)
  = Some 6%nat
  /\ (pos <$> matchAt false (u16 "abcabc")
                (Seq (Lit (u16 "a")) (Seq (LazyStar Dot) (Lit (u16 "c")))) 0)
     = Some 3%nat.
Proof. split; vm_compute; reflexivity. Qed.

Example ignore_case_keyword :
  hasWord (u16 "It MUST NOT be reused") "must not" = true
  /\ search true (u16 "Do NEVER again set it") (Seq (Lit (u16 "never")) (Seq (Star Dot) (Lit (u16 "set"))))
     = 3.
Proof. split; vm_compute; reflexivity. Qed.

Example word_boundary :
  test false (u16 "<w:styles>") (Seq (Lit (u16 "<w:style")) WordB) = false
  /\ test false (u16 "<w:style w:x>") (Seq (Lit (u16 "<w:style")) WordB) = true.
Proof. split; vm_compute; reflexivity. Qed.

Example negated_class_ignore_case :
  replaceAll true (u16 "My Doc v2.pdf") reUnsafe (u16 "_") = u16 "My_Doc_v2_pdf".
Proof. vm_compute. reflexivity. Qed.

(** ** Finding parsers *)

(** *** Findings without a dash *)

Lemma dash_no_match (b : jsstring) (x : mstate) :
  noDash b = true -> m false b dash x = [].
Proof.
  intros H. unfold dash. cbn [m].
  destruct (b !! pos x) as [c|] eqn:E; [|reflexivity].
  assert (Hc : negb ((c =? EM_DASH)%N || (c =? EN_DASH)%N) = true).
  { unfold noDash in H. rewrite forallb_forall in H. apply H.
    apply list_elem_of_In. eapply list_elem_of_lookup_2. exact E. }
  unfold inClass, CChar. cbn [existsb inItem andb orb xorb]. unfold inRange.
  apply negb_true_iff, orb_false_iff in Hc as [H1 H2].
  apply N.eqb_neq in H1, H2.
  replace ((EM_DASH <=? c)%N && (c <=? EM_DASH)%N) with false.
  2:{ symmetry. apply andb_false_iff.
      destruct (N.leb_spec EM_DASH c); [right|left; reflexivity].
      apply N.leb_gt. lia. }
  replace ((EN_DASH <=? c)%N && (c <=? EN_DASH)%N) with false.
  2:{ symmetry. apply andb_false_iff.
      destruct (N.leb_spec EN_DASH c); [right|left; reflexivity].
      apply N.leb_gt. lia. }
  reflexivity.
Qed.

Lemma reDashSplit_no_match (b : jsstring) (q : nat) :
  noDash b = true -> matchAt false b reDashSplit q = None.
Proof.
  intros H. unfold matchAt, reDashSplit.
  change (m false b (Seq (Plus letter_s) (Seq dash (Plus letter_s))) (MState q []))
    with (flat_map (fun y => flat_map (m false b (Plus letter_s)) (m false b dash y))
            (m false b (Plus letter_s) (MState q []))).
  rewrite flat_map_all_nil; [reflexivity|].
  intros y. now rewrite dash_no_match.
Qed.

Lemma reDashSearch_no_match (b : jsstring) (q : nat) :
  noDash b = true -> matchAt false b reDashSearch q = None.
Proof.
  intros H. unfold matchAt, reDashSearch.
  change (m false b (Seq letter_s (Seq dash letter_s)) (MState q []))
    with (flat_map (fun y => flat_map (m false b letter_s) (m false b dash y))
            (m false b letter_s (MState q []))).
  rewrite flat_map_all_nil; [reflexivity|].
  intros y. now rewrite dash_no_match.
Qed.

Lemma search_no_dash (b : jsstring) :
  noDash b = true -> search false b reDashSearch = -1.
Proof.
  intros H. unfold search, exec, execFrom.
  rewrite scan_none; [reflexivity|]. intros q. now apply reDashSearch_no_match.
Qed.

Lemma split_no_dash (b : jsstring) :
  noDash b = true -> split false b reDashSplit = [b].
Proof. intros H. apply split_no_match. intros q. now apply reDashSplit_no_match. Qed.

Lemma parseFeature_fallback (b : jsstring) :
  colonInRange b = false -> noDash b = true ->
  parseFeature b = (trim (slice b 0 60), []).
Proof.
  intros Hc Hd. unfold parseFeature. fold (colonInRange b). rewrite Hc.
  cbv zeta. rewrite (search_no_dash b Hd). reflexivity.
Qed.

Lemma parseDeprecated_fallback (b : jsstring) :
  noDash b = true ->
  parseDeprecated b = (orElse (trim b) (slice b 0 60), parseDepStatus b, b).
Proof.
  intros Hd. unfold parseDeprecated. rewrite (split_no_dash b Hd). cbv zeta.
  change ([b] !! 0%nat) with (Some b). change (drop 1 [b]) with (@nil jsstring).
  unfold optTrim. cbn [fmap option_fmap option_map join].
  rewrite orElseU_Some. reflexivity.
Qed.

Lemma parseDeployment_fallback (b : jsstring) :
  noDash b = true ->
  parseDeployment b = (orElse (trim b) (slice b 0 50), parseNature b, []).
Proof.
  intros Hd. unfold parseDeployment. rewrite (split_no_dash b Hd). cbv zeta.
  change ([b] !! 0%nat) with (Some b). change ([b] !! 1%nat) with (@None jsstring).
  change ([b] !! 2%nat) with (@None jsstring).
  unfold optTrim. cbn [fmap option_fmap option_map truthy].
  rewrite orElseU_Some, !orElseU_None. reflexivity.
Qed.

Lemma parseMigration_fallback (b : jsstring) :
  noDash b = true ->
  parseMigration b = (orElse (trim b) (slice b 0 30), b, parsePriority b).
Proof.
  intros Hd. unfold parseMigration. rewrite (split_no_dash b Hd). cbv zeta.
  change ([b] !! 0%nat) with (Some b). change ([b] !! 1%nat) with (@None jsstring).
  change ([b] !! 2%nat) with (@None jsstring).
  unfold optTrim. cbn [fmap option_fmap option_map].
  rewrite orElseU_Some, !orElseU_None. reflexivity.
Qed.

(** The finding parser is a total function (every receiver that may be
    undefined is called through an optional call), and its record is of
    the variant of the scope. *)
Lemma finding_parser_variant (scopeId b : jsstring) :
  recordFits (switchOn scopeId) (parseFinding scopeId b) = true.
Proof.
  unfold parseFinding. destruct (switchOn scopeId); try reflexivity.
  now destruct (parseFeature b).
Qed.

(** Where the fallback is reached: for every scope other than
    new_features whenever the delimiter is absent, and for new_features
    when, in addition, the finding holds no dash at all. *)
Lemma finding_parser_fallback (scopeId b : jsstring) :
  (switchOn scopeId = CaseNewFeatures -> noDash b = true) ->
  delimiterAbsent scopeId b = true ->
  parseFinding scopeId b = fallbackRecord scopeId b.
Proof.
  unfold parseFinding, delimiterAbsent, fallbackRecord.
  destruct (switchOn scopeId); intros Hn H; try reflexivity.
  - apply andb_true_iff in H as [Hc _]. apply negb_true_iff in Hc.
    now rewrite parseFeature_fallback by (exact Hc || now apply Hn).
  - now rewrite parseDeprecated_fallback.
  - now rewrite parseDeployment_fallback.
  - now rewrite parseMigration_fallback.
Qed.

(** C5 fails on the code of the template engine.  The finding
    [finding5] of scope new_features has no colon and no dash surrounded
    by white space, so its delimiter is absent; the pattern of the code
    has the letter s where white space was meant, finds the dash between
    the two letters s at index 6, and the finding is split into the title
    [A clas] and the detail [ub items are new] instead of the record built
    from the whole text.  The feature parser of the docx-library exporter,
    whose patterns are regular-expression literals, does fall back. *)
Theorem feature_fallback_missed :
  indexOf finding5 (u16 ":") = -1
  /\ spacedDash finding5 = false
  /\ delimiterAbsent (u16 "new_features") finding5 = true
  /\ search false finding5 reDashSearch = 6
  /\ parseFinding (u16 "new_features") finding5
     = RFeature (u16 "A clas") (u16 "ub items are new")
  /\ fallbackRecord (u16 "new_features") finding5 = RFeature finding5 []
  /\ parseFinding (u16 "new_features") finding5
     <> fallbackRecord (u16 "new_features") finding5
  /\ docxFeature finding5 = (finding5, []).
Proof. repeat split; vm_compute; (reflexivity || discriminate). Qed.

(** *** Examples of parsed findings *)

Example parseFeature_colon :
  parseFeature (u16 "Short Title (New): Full detail sentence")
  = (u16 "Short Title (New)", u16 "Full detail sentence").
Proof. vm_compute. reflexivity. Qed.

(** The dash patterns look for the letter s on both sides of the dash. *)
Example parseFeature_letter_s :
  parseFeature (u16 "A class—sub items are new") = (u16 "A clas", u16 "ub items are new")
  /\ parseFeature (u16 "Bulk export — now in all plans") = (u16 "Bulk export — now in all plans", []).
Proof. split; vm_compute; reflexivity. Qed.

Example parseDeprecated_letter_s :
  parseDeprecated (u16 "Old tokens—superseded")
  = (u16 "Old token", u16 "Replaced", u16 "uperseded").
Proof. vm_compute. reflexivity. Qed.

(** *** The scenario of the deprecated token *)

(** C4 on the code of the template engine: the split pattern has the
    letter s where white space was meant, so the finding is not split and
    the item and the notes are both the whole text. *)
Lemma deprecated_dash_not_split :
  parseFinding (u16 "deprecated") finding1
  = RDeprecated finding1 (u16 "Replaced") finding1
  /\ parseFinding (u16 "deprecated") finding1
     <> RDeprecated (u16 "Legacy Auth Token") (u16 "Replaced")
          (u16 "Replaced by OAuth2 client credentials; update all integration scripts").
Proof. split; vm_compute; [reflexivity|discriminate]. Qed.

(** The row parser of the docx-library exporter, whose pattern is a
    regular-expression literal, yields the record of the scenario. *)
Lemma deprecated_dash_docx :
  docxDeprecatedRow finding1
  = (u16 "Legacy Auth Token", u16 "Replaced",
     u16 "Replaced by OAuth2 client credentials; update all integration scripts").
Proof. vm_compute. reflexivity. Qed.

(** ** Style resolution *)

(** The fuel of the scan of the style catalogue is not used up. *)
Lemma scanStyles_fuel (h : Host) (xml : jsstring) :
  forall f1 f2 i o,
    (S (length xml) - i < f1)%nat -> (S (length xml) - i < f2)%nat ->
    scanStyles h xml f1 i o = scanStyles h xml f2 i o.
Proof.
  intros f1. induction f1 as [|f1 IH]; intros f2 i o H1 H2; [lia|].
  destruct f2 as [|f2]; [lia|]. cbn [scanStyles].
  destruct (execFrom false xml reStyle i) as [[q y]|] eqn:E; [|reflexivity].
  assert (Hy : (i < pos y)%nat /\ (i <= length xml)%nat).
  { unfold execFrom in E. apply scan_Some in E as (E & Hq & _).
    split; [|lia].
    unfold matchAt in E.
    destruct (m false xml reStyle (MState q [])) as [|z l] eqn:Em; [discriminate|].
    injection E as ->.
    assert (Hin : In y (m false xml reStyle (MState q []))) by (rewrite Em; now left).
    unfold reStyle in Hin. apply m_Seq_Lit_progress in Hin; cbn [pos] in *; [|lia].
    change (length (u16 "<w:style")) with 8%nat in Hin. lia. }
  apply IH; lia.
Qed.

Lemma hexDigit_class (c : N) :
  inClass false false [CRange 48 57; CRange 65 70; CRange 97 102] c = isHex c.
Proof.
  unfold inClass, isHex. cbn [existsb inItem andb xorb].
  destruct (inRange 48 57 c), (inRange 65 70 c), (inRange 97 102 c); reflexivity.
Qed.

(** The matches of the fill pattern at a position, in closed form. *)
Lemma m_reFill (d : jsstring) (q : nat) :
  m false d reFill (MState q [])
  = if fillAt d q then [MState (q + 15) [(1%nat, ((q + 8)%nat, (q + 14)%nat))]] else [].
Proof.
  unfold reFill, fillAt, hexDigit.
  rewrite m_Seq, m_Lit, litMatch_isPrefix. cbn [pos].
  destruct (isPrefix (u16 "w:fill=" ++ DQ) (drop q d)); [|reflexivity].
  cbn [andb flat_map]. rewrite app_nil_r.
  change (length (u16 "w:fill=" ++ DQ)) with 8%nat. cbn [advance pos caps].
  rewrite m_Seq, m_Grp, m_Rep. cbn [groups].
  rewrite repLoop_exact_class by lia. cbn [advance pos caps].
  rewrite (forallb_ext_eq _ isHex) by apply hexDigit_class.
  destruct (Nat.leb 6 (length (drop (q + 8) d)) && forallb isHex (take 6 (drop (q + 8) d)));
    [|reflexivity].
  cbn [map flat_map]. rewrite app_nil_r. rewrite m_Lit, litMatch_isPrefix.
  unfold setCap. cbn [pos caps List.filter].
  replace (q + 8 + 6)%nat with (q + 14)%nat by lia.
  destruct (isPrefix DQ (drop (q + 14) d)); [|reflexivity].
  unfold advance. cbn [andb pos caps]. change (length DQ) with 1%nat.
  replace (q + 14 + 1)%nat with (q + 15)%nat by lia. reflexivity.
Qed.

Lemma matchAt_reFill (d : jsstring) (q : nat) :
  matchAt false d reFill q
  = if fillAt d q then Some (MState (q + 15) [(1%nat, ((q + 8)%nat, (q + 14)%nat))])
    else None.
Proof. unfold matchAt. rewrite m_reFill. now destruct (fillAt d q). Qed.

Lemma fillAt_bound (d : jsstring) (q : nat) : fillAt d q = true -> (q < S (length d))%nat.
Proof.
  unfold fillAt. intros H. repeat (apply andb_true_iff in H as [H _]).
  apply isPrefix_length in H. rewrite length_drop in H.
  change (length (u16 "w:fill=" ++ DQ)) with 8%nat in H. lia.
Qed.

Lemma fillAt_digits (d : jsstring) (q : nat) :
  fillAt d q = true ->
  forallb isHex (take 6 (drop (q + 8) d)) = true
  /\ length (take 6 (drop (q + 8) d)) = 6%nat.
Proof.
  unfold fillAt. intros H.
  apply andb_true_iff in H as [H _]. apply andb_true_iff in H as [H Hhex].
  apply andb_true_iff in H as [_ Hlen]. apply Nat.leb_le in Hlen.
  split; [exact Hhex|]. rewrite length_take. lia.
Qed.

Lemma isHex_ascii (c : N) : isHex c = true -> isAscii c = true.
Proof.
  unfold isHex, inRange, isAscii. intros H.
  apply N.ltb_lt.
  repeat (apply orb_true_iff in H as [H|H]);
    apply andb_true_iff in H as [_ H]; apply N.leb_le in H; lia.
Qed.

Lemma toUpperCase_hex (h : Host) (c : jsstring) :
  forallb isHex c = true -> toUpperCase h c = map asciiUp c.
Proof.
  intros H. unfold toUpperCase.
  replace (forallb isAscii c) with true; [reflexivity|].
  symmetry. rewrite forallb_forall in *. intros x Hx. apply isHex_ascii. now apply H.
Qed.

(** What [exec] finds for the fill pattern: the first position that
    carries a fill attribute, and its six digits. *)
Lemma exec_reFill_Some (d : jsstring) (q : nat) (y : mstate) :
  exec false d reFill = Some (q, y) ->
  fillAt d q = true /\ capture d y 1 = Some (take 6 (drop (q + 8) d)).
Proof.
  unfold exec, execFrom. intros H. apply scan_Some in H as (H & _ & _).
  rewrite matchAt_reFill in H. destruct (fillAt d q); [|discriminate].
  injection H as <-. split; [reflexivity|].
  unfold capture, substr. cbn [caps getCap Nat.eqb].
  replace (q + 14 - (q + 8))%nat with 6%nat by lia. reflexivity.
Qed.

Lemma exec_reFill_first (d : jsstring) (q : nat) :
  fillAt d q = true -> (forall q', (q' < q)%nat -> fillAt d q' = false) ->
  exists y, exec false d reFill = Some (q, y)
            /\ capture d y 1 = Some (take 6 (drop (q + 8) d)).
Proof.
  intros Hq Hfirst.
  exists (MState (q + 15) [(1%nat, ((q + 8)%nat, (q + 14)%nat))]). split.
  - unfold exec, execFrom. apply scan_first.
    + pose proof (fillAt_bound d q Hq). lia.
    + rewrite matchAt_reFill. now rewrite Hq.
    + intros q' Hq'. rewrite matchAt_reFill. rewrite Hfirst by lia. reflexivity.
  - unfold capture, substr. cbn [caps getCap Nat.eqb].
    replace (q + 14 - (q + 8))%nat with 6%nat by lia. reflexivity.
Qed.

Lemma detectFill_non_empty (h : Host) (zip : gmap jsstring bytes) : detectFill h zip <> [].
Proof.
  unfold detectFill.
  destruct (zip !! documentPath) as [raw|]; [|discriminate].
  destruct (exec false (utf8decode h raw) reFill) as [[q y]|] eqn:E; [|discriminate].
  apply exec_reFill_Some in E as [Hq Hc]. rewrite Hc.
  destruct (fillAt_digits _ _ Hq) as [Hhex Hlen].
  rewrite toUpperCase_hex by exact Hhex.
  intros Hnil. apply (f_equal (@length N)) in Hnil. rewrite length_map, Hlen in Hnil.
  discriminate.
Qed.

Lemma default_styles_non_empty : allRolesNonEmpty DEFAULT_STYLES.
Proof. unfold allRolesNonEmpty. repeat split; vm_compute; discriminate. Qed.

Lemma stylesOfArchive_non_empty (h : Host) (zip : gmap jsstring bytes) :
  allRolesNonEmpty (stylesOfArchive h zip).
Proof.
  unfold stylesOfArchive.
  destruct (zip !! stylesPath) as [raw|]; [|apply default_styles_non_empty].
  unfold allRolesNonEmpty. cbn [h1 h2 body bullet tableHeader tableText tableGrid fill].
  repeat split; try (apply orElseU_non_empty; vm_compute; discriminate).
  apply detectFill_non_empty.
Qed.

(** C6.  Style resolution either fails because the bytes do not open as
    an archive, or returns a style map all of whose eight roles are
    non-empty strings, whatever the archive holds (no catalogue, an empty
    one, any text). *)
Theorem style_roles_non_empty (h : Host) (buf : bytes) :
  match detectTemplateStyles h buf with
  | Ok st => allRolesNonEmpty st
  | Throw e => e = ArchiveError /\ loadAsync h buf = None
  end.
Proof.
  unfold detectTemplateStyles. destruct (loadAsync h buf) as [zip|].
  - apply stylesOfArchive_non_empty.
  - split; reflexivity.
Qed.

Example stylesOfArchive_example :
  stylesOfArchive testHost styledArchive
  = {| h1 := u16 "Titre1"; h2 := u16 "Heading2"; body := u16 "Corps";
       bullet := u16 "ListBullet"; tableHeader := u16 "7"; tableText := u16 "TableText";
       tableGrid := u16 "TableGrid"; fill := u16 "AB12EF" |}.
Proof. vm_compute. reflexivity. Qed.

(** C9, as amended.  When the main document part carries a fill attribute
    with six hexadecimal digits, the accent fill of an archive that has a
    style catalogue is the value of the first such attribute, upper-cased;
    an archive without style catalogue keeps the default fill. *)
Theorem accent_fill_from_document (h : Host) (zip : gmap jsstring bytes) (raw : bytes)
    (q : nat) :
  zip !! documentPath = Some raw ->
  fillAt (utf8decode h raw) q = true ->
  (forall q', (q' < q)%nat -> fillAt (utf8decode h raw) q' = false) ->
  fill (stylesOfArchive h zip)
  = match zip !! stylesPath with
    | Some _ => map asciiUp (take 6 (drop (q + 8) (utf8decode h raw)))
    | None => fill DEFAULT_STYLES
    end.
Proof.
  intros Hdoc Hq Hfirst. unfold stylesOfArchive.
  destruct (zip !! stylesPath) as [sraw|]; [|reflexivity].
  cbn [fill]. unfold detectFill. rewrite Hdoc.
  destruct (exec_reFill_first _ _ Hq Hfirst) as (y & -> & ->).
  apply toUpperCase_hex. now apply fillAt_digits.
Qed.

Lemma accent_fill_from_document_witness :
  fill (stylesOfArchive testHost styledArchive)
  = match styledArchive !! stylesPath with
    | Some _ => map asciiUp (take 6 (drop (34 + 8) (utf8decode testHost fillDoc)))
    | None => fill DEFAULT_STYLES
    end.
Proof.
  apply (accent_fill_from_document testHost styledArchive fillDoc 34).
  - vm_compute. reflexivity.
  - vm_compute. reflexivity.
  - intros q' Hq'.
    do 34 (destruct q' as [|q']; [vm_compute; reflexivity|]). lia.
Defined.

(** C9, as stated, fails for an archive without style catalogue: its
    document part carries a fill attribute, yet the accent fill is the
    default one. *)
Lemma accent_fill_without_catalogue_counterexample :
  noCatalogueArchive !! stylesPath = None
  /\ noCatalogueArchive !! documentPath = Some fillDoc
  /\ fillAt fillDoc 34 = true
  /\ take 6 (drop (34 + 8) fillDoc) = u16 "ab12ef"
  /\ fill (stylesOfArchive testHost noCatalogueArchive) = u16 "0073E6"
  /\ fill (stylesOfArchive testHost noCatalogueArchive) <> u16 "AB12EF".
Proof. repeat split; vm_compute; try reflexivity. discriminate. Qed.

(** ** Markup *)

(** *** Escaping *)

(** xmlEsc, unit by unit. *)
Lemma xmlEsc_units (t : jsstring) :
  xmlEsc t
  = flat_map (escUnit 34 (u16 "&quot;"))
      (flat_map (escUnit 62 (u16 "&gt;"))
         (flat_map (escUnit 60 (u16 "&lt;"))
            (flat_map (escUnit 38 (u16 "&amp;")) t))).
Proof.
  unfold xmlEsc.
  change (u16 "&") with [38%N]. change (u16 "<") with [60%N].
  change (u16 ">") with [62%N]. change DQ with [34%N].
  now rewrite !replaceAll_unit.
Qed.

Lemma noLt_app (a b : jsstring) : noLt (a ++ b) = noLt a && noLt b.
Proof. apply forallb_app. Qed.

Lemma noLt_escape_lt (t : jsstring) : noLt (flat_map (escUnit 60 (u16 "&lt;")) t) = true.
Proof.
  induction t as [|d t IH]; [reflexivity|]. cbn [flat_map]. rewrite noLt_app, IH.
  unfold escUnit. destruct (N.eqb_spec d 60) as [->|Hne]; [reflexivity|].
  cbn. destruct (N.eqb_spec d 60); [contradiction|reflexivity].
Qed.

Lemma noLt_escape_other (c : N) (repl t : jsstring) :
  noLt repl = true -> noLt t = true -> noLt (flat_map (escUnit c repl) t) = true.
Proof.
  intros Hr. induction t as [|d t IH]; intros Ht; [reflexivity|].
  cbn [flat_map]. rewrite noLt_app. cbn [noLt forallb] in Ht.
  apply andb_true_iff in Ht as [Hd Ht]. rewrite (IH Ht), andb_true_r.
  unfold escUnit. destruct (d =? c)%N; [exact Hr|]. cbn [noLt forallb].
  now rewrite Hd.
Qed.

Lemma xmlEsc_noLt (t : jsstring) : noLt (xmlEsc t) = true.
Proof.
  rewrite xmlEsc_units.
  apply noLt_escape_other; [reflexivity|].
  apply noLt_escape_other; [reflexivity|].
  apply noLt_escape_lt.
Qed.

(** *** Occurrences of an opening tag *)

Lemma countOcc_nil (c : N) (p : jsstring) : countOcc (c :: p) [] = 0%nat.
Proof. reflexivity. Qed.

Lemma countOcc_miss (p : jsstring) (c : N) (t : jsstring) :
  isPrefix p (c :: t) = false -> countOcc p (c :: t) = countOcc p t.
Proof. intros H. cbn [countOcc]. now rewrite H. Qed.

Lemma countOcc_hit (p : jsstring) (c : N) (t : jsstring) :
  isPrefix p (c :: t) = true -> countOcc p (c :: t) = S (countOcc p t).
Proof. intros H. cbn [countOcc]. now rewrite H. Qed.

(** Text without the sign [<] holds no occurrence of an opening tag. *)
Lemma countOcc_noLt (p u rest : jsstring) :
  noLt u = true -> countOcc (60%N :: p) (u ++ rest) = countOcc (60%N :: p) rest.
Proof.
  induction u as [|c u IH]; intros H; [reflexivity|].
  cbn [noLt forallb] in H. apply andb_true_iff in H as [Hc Hu].
  cbn [app]. rewrite countOcc_miss.
  - now apply IH.
  - change (isPrefix (60%N :: p) (c :: u ++ rest))
      with ((60 =? c)%N && isPrefix p (u ++ rest)).
    apply negb_true_iff in Hc. rewrite N.eqb_sym in Hc. now rewrite Hc.
Qed.

Lemma indexOfAux_absent (p s : jsstring) (off : Z) :
  countOcc p s = 0%nat -> indexOfAux p s off = -1.
Proof.
  revert off. induction s as [|c s IH]; intros off H; cbn [countOcc indexOfAux] in *.
  - destruct (isPrefix p []); [discriminate|reflexivity].
  - destruct (isPrefix p (c :: s)); [discriminate|]. apply IH. exact H.
Qed.

(** Literals are turned into explicit lists before the count is stepped
    through them. *)
Ltac literals :=
  repeat match goal with
         | |- context [u16 ?s] =>
             let v := eval vm_compute in (u16 s) in change (u16 s) with v
         end;
  change DQ with [34%N]; cbn [app].

Ltac count_step :=
  first
    [ rewrite countOcc_noLt by assumption
    | rewrite countOcc_miss by reflexivity
    | rewrite countOcc_hit by reflexivity
    | rewrite countOcc_nil ].

(** *** Order of the sections and of the records *)

Lemma xmlTable3_rows (cols : cols3) (rows : list row3) (st : StyleMap) :
  xmlTable3 cols rows st
  = tableOpen cols st ++ concat (map (dataRow st cols) rows) ++ u16 "</w:tbl>".
Proof.
  unfold xmlTable3, tableOpen. rewrite !join_nil_concat.
  repeat rewrite <- app_assoc. reflexivity.
Qed.


Lemma features_in_order (intro : jsstring) (st : StyleMap) (l : list jsstring) :
  fold_left
    (fun xml b =>
       let '(title, detail) := parseFeature b in
       xml ++ (xmlH2 title st ++ xmlBody detail st ++ xmlSpacer st)) l intro
  = intro
      ++ concat (map (fun b => recordXml st
                                 (let '(t, d) := parseFeature b in RFeature t d)) l)
      ++ [].
Proof.
  rewrite (fold_left_pointwise _
             (fun xml b => xml ++ (let '(t, d) := parseFeature b in
                                   xmlH2 t st ++ xmlBody d st ++ xmlSpacer st)))
    by (intros xml b; destruct (parseFeature b); reflexivity).
  rewrite (fold_left_append
             (fun b => let '(t, d) := parseFeature b in
                       xmlH2 t st ++ xmlBody d st ++ xmlSpacer st)).
  rewrite app_nil_r. f_equal. f_equal. apply map_ext.
  intros b. destruct (parseFeature b). unfold recordXml. reflexivity.
Qed.

Lemma table_in_order (heading intro : jsstring) (cols : cols3) (parse : jsstring -> row3)
    (st : StyleMap) (l : list jsstring) :
  xmlH1 heading st ++ xmlBody intro st ++ xmlSpacer st
    ++ xmlTable3 cols (map parse l) st ++ xmlSpacer st
  = tableSection heading intro cols st
      ++ concat (map (fun b => dataRow st cols (parse b)) l)
      ++ u16 "</w:tbl>" ++ xmlSpacer st.
Proof.
  unfold tableSection. rewrite xmlTable3_rows, map_map.
  repeat rewrite <- app_assoc. reflexivity.
Qed.

Lemma bullets_in_order (intro outro : jsstring) (st : StyleMap) (l : list jsstring) :
  fold_left (fun xml b => xml ++ xmlBullet b st) l intro ++ outro
  = intro ++ concat (map (fun b => recordXml st (RVerbatim b)) l) ++ outro.
Proof.
  rewrite (fold_left_append (fun b => xmlBullet b st)).
  rewrite <- app_assoc. unfold recordXml. reflexivity.
Qed.

Lemma row_of_record (st : StyleMap) (cols : cols3) (parse : jsstring -> row3)
    (mk : jsstring -> jsstring -> jsstring -> ParsedRecord) (l : list jsstring) :
  (forall a b c, recordXml st (mk a b c) = dataRow st cols (a, b, c)) ->
  map (fun b => recordXml st (let '(x, y, z) := parse b in mk x y z)) l
  = map (fun b => dataRow st cols (parse b)) l.
Proof.
  intros H. apply map_ext. intros b. destruct (parse b) as [[x y] z]. apply H.
Qed.

Lemma buildScopeXml_in_order (h : Host) (scope : Scope) (bullets : list jsstring)
    (st : StyleMap) :
  buildScopeXml h scope bullets st = sectionInOrder h st scope bullets.
Proof.
  destruct bullets as [|b0 bs]; [unfold sectionInOrder; reflexivity|].
  unfold buildScopeXml, sectionInOrder, sectionIntro, sectionOutro, parseFinding.
  set (l := b0 :: bs).
  destruct (switchOn (scope_id scope)).
  - apply features_in_order.
  - rewrite (row_of_record st colsDeprecated parseDeprecated RDeprecated) by reflexivity.
    apply table_in_order.
  - rewrite (row_of_record st colsDeployment parseDeployment RDeployment) by reflexivity.
    apply table_in_order.
  - rewrite (row_of_record st colsSecurity parseSecurity RSecurity) by reflexivity.
    apply table_in_order.
  - apply bullets_in_order.
  - rewrite (row_of_record st colsMigration parseMigration RMigration) by reflexivity.
    apply table_in_order.
  - apply bullets_in_order.
Qed.

(** C7.  The markup of the sections is the concatenation, in the order of
    the scope list, of one section per scope; the section of a scope with
    findings is its opening, then one piece per finding, in the order of
    the findings, each built from the record parsed from that finding, then
    its closing.  Nothing is reordered, merged or left out. *)
Theorem sections_and_records_in_order (h : Host) (scopes : list Scope)
    (results : gmap jsstring (list jsstring)) (st : StyleMap) :
  contentXml h scopes results st
  = concat (map (fun scope =>
                   sectionInOrder h st scope (default [] (results !! scope_id scope)))
                scopes).
Proof.
  unfold contentXml. rewrite join_nil_concat. f_equal.
  apply map_ext. intros scope. apply buildScopeXml_in_order.
Qed.

(** ** Template injection *)

(** A paragraph end found at or before the page-layout block ends before
    the block starts: the two markers cannot overlap. *)
Lemma para_end_before_sect (s : jsstring) (j i : nat) :
  isPrefix PARA_END (drop j s) = true -> isPrefix SECT_PR (drop i s) = true ->
  (j <= i)%nat -> (j + 6 <= i)%nat.
Proof.
  intros Hp Hs Hle.
  pose proof (isPrefix_lookup _ _ Hp) as Lp.
  pose proof (isPrefix_lookup _ _ Hs) as Ls.
  assert (H0 : s !! i = Some 60%N).
  { specialize (Ls 0%nat 60%N eq_refl). rewrite lookup_drop_plus in Ls.
    now rewrite Nat.add_0_r in Ls. }
  assert (H1 : s !! (i + 1)%nat = Some 119%N).
  { specialize (Ls 1%nat 119%N eq_refl). now rewrite lookup_drop_plus in Ls. }
  destruct (le_lt_dec (j + 6) i) as [|Hlt]; [assumption|exfalso].
  assert (Hc : forall k c, PARA_END !! k = Some c -> s !! (j + k)%nat = Some c).
  { intros k c Hk. rewrite <- lookup_drop_plus. now apply Lp. }
  assert (Hcase : (i = j \/ i = j + 1 \/ i = j + 2 \/ i = j + 3 \/ i = j + 4 \/ i = j + 5)%nat) by lia.
  destruct Hcase as [->|[->|[->|[->|[->| ->]]]]].
  - specialize (Hc 1%nat 47%N eq_refl). congruence.
  - specialize (Hc 1%nat 47%N eq_refl). congruence.
  - specialize (Hc 2%nat 119%N eq_refl). congruence.
  - specialize (Hc 3%nat 58%N eq_refl). congruence.
  - specialize (Hc 4%nat 112%N eq_refl). congruence.
  - specialize (Hc 5%nat 62%N eq_refl). congruence.
Qed.

Lemma findInjectionBounds_ok (d : jsstring) :
  0 <= lastIndexOf d SECT_PR ->
  let b := findInjectionBounds d in
  suffixStart b = lastIndexOf d SECT_PR
  /\ 0 <= prefixEnd b <= suffixStart b /\ suffixStart b <= jslen d
  /\ (prefixEnd b = suffixStart b
      \/ slice d (prefixEnd b - 6) (prefixEnd b) = PARA_END).
Proof.
  intros Hs b. subst b. unfold findInjectionBounds. cbn [prefixEnd suffixStart].
  set (i := lastIndexOf d SECT_PR) in *.
  assert (Hi : 0 <= i <= jslen d /\ isPrefix SECT_PR (drop (Z.to_nat i) d) = true).
  { subst i. unfold lastIndexOf in *.
    destruct (lastIndexDown_spec SECT_PR d (length d)) as [E|[E1 E2]]; [lia|].
    unfold jslen. split; [lia|exact E2]. }
  destruct Hi as [Hi Hsect].
  split; [reflexivity|].
  unfold lastIndexOfFrom.
  replace (Z.min (Z.max i 0) (jslen d)) with i by lia.
  destruct (lastIndexDown_spec PARA_END d (Z.to_nat i)) as [E|[E1 E2]].
  - rewrite E. simpl. lia.
  - set (j := lastIndexDown PARA_END d (Z.to_nat i)) in *.
    destruct (Z.eqb_spec j (-1)) as [Hj|Hj]; [lia|].
    assert (Hov : (Z.to_nat j + 6 <= Z.to_nat i)%nat).
    { apply (para_end_before_sect d); [exact E2|exact Hsect|lia]. }
    change (jslen PARA_END) with 6.
    split; [lia|]. split; [lia|]. right.
    unfold slice. rewrite !relIndex_id by lia.
    replace (j + 6 - 6) with j by lia. replace (j + 6 - j) with 6 by lia.
    apply (isPrefix_take PARA_END). exact E2.
Qed.

(** The bounds name the last page-layout block and the last paragraph end
    that starts at or before it: no page-layout block starts after
    [suffixStart], and no paragraph end starts between the one that ends at
    [prefixEnd] and [suffixStart]. *)
Lemma injection_point_is_last (d : jsstring) (k : nat) :
  0 <= lastIndexOf d SECT_PR ->
  (suffixStart (findInjectionBounds d) < Z.of_nat k ->
   isPrefix SECT_PR (drop k d) = false)
  /\ (lastIndexOfFrom d PARA_END (suffixStart (findInjectionBounds d)) < Z.of_nat k
        <= suffixStart (findInjectionBounds d) ->
      isPrefix PARA_END (drop k d) = false).
Proof.
  intros Hs. cbn [findInjectionBounds suffixStart]. split.
  - intros Hk. destruct (le_lt_dec k (length d)) as [Hle|Hgt].
    + apply (lastIndexDown_last SECT_PR d (length d) k); [lia|exact Hk].
    + rewrite drop_ge by lia. reflexivity.
  - intros [Hj Hk]. unfold lastIndexOfFrom in Hj.
    set (i := lastIndexOf d SECT_PR) in *.
    assert (Hi : i <= jslen d).
    { subst i. unfold lastIndexOf.
      destruct (lastIndexDown_spec SECT_PR d (length d)) as [E|[E _]];
        unfold jslen; lia. }
    replace (Z.min (Z.max i 0) (jslen d)) with i in Hj by lia.
    apply (lastIndexDown_last PARA_END d (Z.to_nat i) k); [lia|exact Hj].
Qed.

Lemma updateCoverTitle_unchanged (h : Host) (d : jsstring) (t : DocTitle) :
  truthy (title t) = false \/ indexOf d TITLE_REF = -1 -> updateCoverTitle h d t = d.
Proof.
  intros [H|H]; unfold updateCoverTitle.
  - now rewrite H.
  - rewrite H. simpl. now destruct (negb (truthy (title t))).
Qed.

(** A pattern that occurs somewhere in a string has a last occurrence,
    and [lastIndexOf] is at or after every occurrence. *)
Lemma lastIndexOf_found (p s : jsstring) (k : nat) :
  isPrefix p (drop k s) = true -> p <> [] -> Z.of_nat k <= lastIndexOf s p.
Proof.
  intros Hk Hp.
  assert (Hle : (k <= length s)%nat).
  { destruct (le_lt_dec k (length s)) as [H|H]; [exact H|].
    rewrite drop_ge in Hk by lia. destruct p; [congruence|discriminate]. }
  destruct (Z_lt_le_dec (lastIndexOf s p) (Z.of_nat k)) as [Hlt|Hge]; [|exact Hge].
  unfold lastIndexOf in Hlt.
  rewrite (lastIndexDown_last p s (length s) k) in Hk by (lia || exact Hlt). discriminate.
Qed.

(** C1, as amended.  Let B be the body left by the cover-title
    replacement.  Whenever B holds a page-layout block, there are a
    position [i] and a length [p] such that: [i] is where the last
    page-layout block of B starts; [p] is the end of the last
    paragraph-end marker that starts at or before [i], or [i] itself when
    no paragraph-end marker starts at or before [i]; these are the two
    bounds the code finds; the output document is the first [p] code units
    of B, then the generated content, then B from [i] on; so the first [p]
    code units of the output are those of B.  The replacement leaves the
    body as it is (B is the input body) when no title is given or the body
    has no paragraph of style Title. *)
Theorem injection_prefix_preserved (h : Host) (d : jsstring) (scopes : list Scope)
    (results : gmap jsstring (list jsstring)) (t : DocTitle) (st : StyleMap) (k0 : nat) :
  isPrefix SECT_PR (drop k0 (updateCoverTitle h d t)) = true ->
  exists i p : nat,
    lastOccurrence SECT_PR (updateCoverTitle h d t) i
    /\ ((exists j, lastOccurrenceUpTo PARA_END (updateCoverTitle h d t) i j
                   /\ p = (j + 6)%nat)
        \/ ((forall k, (k <= i)%nat ->
               isPrefix PARA_END (drop k (updateCoverTitle h d t)) = false)
            /\ p = i))
    /\ (p <= i <= length (updateCoverTitle h d t))%nat
    /\ prefixEnd (findInjectionBounds (updateCoverTitle h d t)) = Z.of_nat p
    /\ suffixStart (findInjectionBounds (updateCoverTitle h d t)) = Z.of_nat i
    /\ newDocXml h d scopes results t st
       = take p (updateCoverTitle h d t) ++ contentXml h scopes results st
           ++ drop i (updateCoverTitle h d t)
    /\ slice (newDocXml h d scopes results t st) 0 (Z.of_nat p)
       = slice (updateCoverTitle h d t) 0 (Z.of_nat p)
    /\ (truthy (title t) = false \/ indexOf d TITLE_REF = -1 ->
        updateCoverTitle h d t = d).
Proof.
  intros Hk0. set (B := updateCoverTitle h d t) in *.
  assert (Hs : 0 <= lastIndexOf B SECT_PR).
  { pose proof (lastIndexOf_found SECT_PR B k0 Hk0 ltac:(discriminate)). lia. }
  destruct (findInjectionBounds_ok B Hs) as (Hss & Hpe & Hlen & _).
  set (i := Z.to_nat (lastIndexOf B SECT_PR)).
  assert (Hi : lastIndexOf B SECT_PR = Z.of_nat i) by (subst i; lia).
  assert (Hlast : lastOccurrence SECT_PR B i).
  { split.
    - unfold lastIndexOf in *.
      destruct (lastIndexDown_spec SECT_PR B (length B)) as [E|[_ E]]; [lia|].
      subst i. exact E.
    - intros k Hk. apply (proj1 (injection_point_is_last B k Hs)).
      rewrite Hss. lia. }
  assert (HiB : (i <= length B)%nat) by (unfold jslen in Hlen; lia).
  set (p := Z.to_nat (prefixEnd (findInjectionBounds B))).
  assert (Hp : prefixEnd (findInjectionBounds B) = Z.of_nat p) by (subst p; lia).
  assert (Hpi : (p <= i)%nat) by lia.
  exists i, p.
  split; [exact Hlast|]. split.
  - pose proof (injection_point_is_last B) as Hpara.
    assert (Hfrom : lastIndexOfFrom B PARA_END (lastIndexOf B SECT_PR)
                    = lastIndexDown PARA_END B i).
    { unfold lastIndexOfFrom. f_equal. unfold jslen in *. lia. }
    unfold findInjectionBounds in Hp. cbn [prefixEnd] in Hp.
    rewrite Hss, Hfrom in Hpara. rewrite Hfrom in Hp.
    destruct (Z.eqb_spec (lastIndexDown PARA_END B i) (-1)) as [E|E].
    + right. split; [|lia]. intros k Hk.
      apply (proj2 (Hpara k Hs)). rewrite E. lia.
    + left.
      destruct (lastIndexDown_spec PARA_END B i) as [E'|[E1 E2]]; [congruence|].
      exists (Z.to_nat (lastIndexDown PARA_END B i)).
      change (jslen PARA_END) with 6 in Hp.
      split; [|lia]. split; [lia|]. split; [exact E2|].
      intros k Hk. apply (proj2 (Hpara k Hs)). lia.
  - split; [lia|]. split; [exact Hp|]. split; [lia|].
    assert (Hout : newDocXml h d scopes results t st
                   = take p B ++ contentXml h scopes results st ++ drop i B).
    { unfold newDocXml. fold B. rewrite Hp, Hss, Hi.
      rewrite slice_0_take by (unfold jslen; lia).
      rewrite sliceFrom_drop by (unfold jslen; lia).
      now rewrite !Nat2Z.id. }
    split; [exact Hout|]. split.
    + rewrite Hout. rewrite !slice_0_take by (unfold jslen; rewrite ?length_app, ?length_take; lia).
      rewrite Nat2Z.id. rewrite take_app_le by (rewrite length_take; lia).
      now rewrite take_take, Nat.min_id.
    + apply updateCoverTitle_unchanged.
Qed.

Lemma injection_prefix_preserved_witness :
  isPrefix SECT_PR (drop 96 (updateCoverTitle testHost coverDoc noTitle)) = true
  /\ exists i p : nat,
    lastOccurrence SECT_PR (updateCoverTitle testHost coverDoc noTitle) i
    /\ ((exists j, lastOccurrenceUpTo PARA_END (updateCoverTitle testHost coverDoc noTitle) i j
                   /\ p = (j + 6)%nat)
        \/ ((forall k, (k <= i)%nat ->
               isPrefix PARA_END (drop k (updateCoverTitle testHost coverDoc noTitle)) = false)
            /\ p = i))
    /\ (p <= i <= length (updateCoverTitle testHost coverDoc noTitle))%nat
    /\ prefixEnd (findInjectionBounds (updateCoverTitle testHost coverDoc noTitle)) = Z.of_nat p
    /\ suffixStart (findInjectionBounds (updateCoverTitle testHost coverDoc noTitle)) = Z.of_nat i
    /\ newDocXml testHost coverDoc [customScope] ∅ noTitle DEFAULT_STYLES
       = take p (updateCoverTitle testHost coverDoc noTitle)
           ++ contentXml testHost [customScope] ∅ DEFAULT_STYLES
           ++ drop i (updateCoverTitle testHost coverDoc noTitle)
    /\ slice (newDocXml testHost coverDoc [customScope] ∅ noTitle DEFAULT_STYLES) 0 (Z.of_nat p)
       = slice (updateCoverTitle testHost coverDoc noTitle) 0 (Z.of_nat p)
    /\ (truthy (title noTitle) = false \/ indexOf coverDoc TITLE_REF = -1 ->
        updateCoverTitle testHost coverDoc noTitle = coverDoc).
Proof.
  split; [vm_compute; reflexivity|].
  apply (injection_prefix_preserved testHost coverDoc [customScope] ∅ noTitle
           DEFAULT_STYLES 96).
  vm_compute. reflexivity.
Defined.

(** C1, as stated, fails when a title is given and the body has a cover
    paragraph of style Title: the span of the output before the injection
    point holds the new title, whichever of the two bodies the length of
    the span is taken from. *)
Lemma injection_prefix_title_counterexample :
  0 <= lastIndexOf coverDoc SECT_PR
  /\ slice (newDocXml testHost coverDoc [] ∅ releaseTitle DEFAULT_STYLES) 0
       (prefixEnd (findInjectionBounds coverDoc))
     <> slice coverDoc 0 (prefixEnd (findInjectionBounds coverDoc))
  /\ slice (newDocXml testHost coverDoc [] ∅ releaseTitle DEFAULT_STYLES) 0
       (prefixEnd (findInjectionBounds (updateCoverTitle testHost coverDoc releaseTitle)))
     <> slice coverDoc 0 (prefixEnd (findInjectionBounds coverDoc)).
Proof.
  split; [vm_compute; discriminate|].
  split; vm_compute; discriminate.
Qed.

(** Without a page-layout block both bounds are -1 (unless the body
    starts with a paragraph end), and [slice] reads -1 from the end. *)
Lemma findInjectionBounds_no_sect (d : jsstring) :
  lastIndexOf d SECT_PR = -1 -> isPrefix PARA_END d = false ->
  findInjectionBounds d = {| prefixEnd := -1; suffixStart := -1 |}.
Proof.
  intros Hs Hp. unfold findInjectionBounds. rewrite Hs.
  unfold lastIndexOfFrom.
  replace (Z.to_nat (Z.min (Z.max (-1) 0) (jslen d))) with 0%nat
    by (pose proof (jslen_nonneg d); lia).
  change (lastIndexDown PARA_END d 0) with (if isPrefix PARA_END (drop 0 d) then 0 else -1).
  rewrite drop_0, Hp. reflexivity.
Qed.

(** For a body without page-layout block (that does not start with a
    paragraph end) and without title override, the sections are spliced in
    before the last code unit of the body; no code unit of the body is
    lost, but the whole body is not the prefix. *)
Lemma newDocXml_no_sect (h : Host) (d : jsstring) (scopes : list Scope)
    (results : gmap jsstring (list jsstring)) (st : StyleMap) :
  lastIndexOf d SECT_PR = -1 -> isPrefix PARA_END d = false ->
  newDocXml h d scopes results noTitle st
  = slice d 0 (-1) ++ contentXml h scopes results st ++ sliceFrom d (-1)
  /\ slice d 0 (-1) ++ sliceFrom d (-1) = d.
Proof.
  intros Hs Hp. split.
  - unfold newDocXml. rewrite updateCoverTitle_unchanged by (left; reflexivity).
    now rewrite (findInjectionBounds_no_sect d Hs Hp).
  - unfold sliceFrom, slice, relIndex. cbn [Z.ltb Z.compare].
    destruct (Z.ltb_spec (jslen d) 0) as [Hneg|_];
      [pose proof (jslen_nonneg d); lia|].
    pose proof (jslen_nonneg d) as Hn. set (k := Z.max (jslen d + -1) 0).
    replace (Z.min 0 (jslen d)) with 0 by lia. rewrite Z.min_id, Z.sub_0_r.
    change (Z.to_nat 0) with 0%nat. rewrite drop_0.
    rewrite (take_ge (drop (Z.to_nat k) d)).
    + apply take_drop.
    + rewrite length_drop. unfold jslen in *. lia.
Qed.


(** C2 on the code: for a body without a page-layout block the bounds are
    both -1, so the prefix is the body without its last code unit, the
    suffix is that last unit, and the sections are spliced in before it. *)
Lemma no_sect_splices_before_last_unit :
  lastIndexOf plainDoc SECT_PR = -1
  /\ findInjectionBounds plainDoc = {| prefixEnd := -1; suffixStart := -1 |}
  /\ newDocXml testHost plainDoc [customScope] ∅ noTitle DEFAULT_STYLES
     = u16 "<w:body><w:p>a</w:p></w:body"
         ++ contentXml testHost [customScope] ∅ DEFAULT_STYLES ++ u16 ">".
Proof. repeat split; vm_compute; reflexivity. Qed.

(** ** The archive *)

Lemma rewritePart_lookup_ne (h : Host) (p : jsstring) (f : jsstring -> jsstring)
    (zip : gmap jsstring bytes) (path : jsstring) :
  path <> p -> rewritePart h p f zip !! path = zip !! path.
Proof.
  intros Hne. unfold rewritePart. destruct (zip !! p); [|reflexivity].
  now rewrite lookup_insert_ne.
Qed.

Lemma rewritePart_is_Some (h : Host) (p : jsstring) (f : jsstring -> jsstring)
    (zip : gmap jsstring bytes) (path : jsstring) :
  is_Some (rewritePart h p f zip !! path) <-> is_Some (zip !! path).
Proof.
  unfold rewritePart. destruct (zip !! p) eqn:E; [|reflexivity].
  destruct (decide (path = p)) as [->|Hne].
  - rewrite lookup_insert_eq, E. split; eauto.
  - now rewrite lookup_insert_ne.
Qed.

Lemma stripMetadata_lookup_other (h : Host) (zip : gmap jsstring bytes) (path : jsstring) :
  startsWith path customXmlDir = false ->
  path <> relsPath -> path <> contentTypesPath ->
  path <> settingsRelsPath -> path <> settingsPath ->
  stripMetadata h zip !! path = zip !! path.
Proof.
  intros Hc H1 H2 H3 H4. unfold stripMetadata.
  rewrite !rewritePart_lookup_ne by assumption.
  destruct (zip !! path) as [x|] eqn:E.
  - apply map_lookup_filter_Some. split; [exact E|].
    change (negb (startsWith path customXmlDir) = true). now rewrite Hc.
  - apply map_lookup_filter_None. left. exact E.
Qed.

Lemma stripMetadata_is_Some (h : Host) (zip : gmap jsstring bytes) (path : jsstring) :
  is_Some (stripMetadata h zip !! path)
  <-> is_Some (zip !! path) /\ startsWith path customXmlDir = false.
Proof.
  unfold stripMetadata. rewrite !rewritePart_is_Some.
  split.
  - intros [x Hx]. apply map_lookup_filter_Some in Hx as [Hx HP].
    change (negb (startsWith path customXmlDir) = true) in HP.
    split; [eauto|]. now destruct (startsWith path customXmlDir).
  - intros [[x Hx] Hc]. exists x. apply map_lookup_filter_Some.
    split; [exact Hx|]. change (negb (startsWith path customXmlDir) = true).
    now rewrite Hc.
Qed.

Lemma stripMetadata_document (h : Host) (zip : gmap jsstring bytes) :
  stripMetadata h zip !! documentPath = zip !! documentPath.
Proof. apply stripMetadata_lookup_other; vm_compute; congruence. Qed.

(** The stripping at work on the archive of the examples: the custom XML
    part is gone and its relationship is cut out of the relationship part. *)
Example stripMetadata_example :
  forall zip, loadAsync testHost pkTemplate = Some zip ->
  stripMetadata testHost zip !! customItemPath = None
  /\ stripMetadata testHost zip !! relsPath
     = Some (u16 "<Relationships><Relationship Id=" ++ DQ ++ u16 "rId2" ++ DQ
               ++ u16 " Target=" ++ DQ ++ u16 "styles.xml" ++ DQ ++ u16 "/></Relationships>").
Proof. intros zip H. injection H as <-. split; vm_compute; reflexivity. Qed.

Lemma patchArchive_Ok (h : Host) (zip zip' : gmap jsstring bytes) (scopes : list Scope)
    (results : gmap jsstring (list jsstring)) (t : DocTitle) (st : StyleMap) :
  patchArchive h zip scopes results t st = Ok zip' ->
  exists raw, zip !! documentPath = Some raw
    /\ zip' = <[documentPath := utf8encode h
                  (newDocXml h (utf8decode h raw) scopes results t st)]>
                (stripMetadata h zip).
Proof.
  unfold patchArchive. rewrite stripMetadata_document.
  destruct (zip !! documentPath) as [raw|]; simpl; [|discriminate].
  intros H. injection H as <-. now exists raw.
Qed.

(** C10.  When an export succeeds, the bytes offered for download are the
    serialisation of an archive in which every part that is not a custom
    XML entry and not one of the five rewritten parts has the content it
    had in the input, and whose paths are exactly the input's paths that
    are not custom XML entries. *)
Theorem export_frame (h : Host) (buf : bytes) (scopes : list Scope)
    (results : gmap jsstring (list jsstring)) (docName : jsstring) (t : DocTitle)
    (st : StyleMap) (d : Download) :
  exportWithTemplate h buf scopes results docName t st = Ok d ->
  exists zip zip' : gmap jsstring bytes,
    loadAsync h buf = Some zip
    /\ patchArchive h zip scopes results t st = Ok zip'
    /\ blob d = generateAsync h zip'
    /\ (forall path : jsstring,
          startsWith path customXmlDir = false ->
          path <> relsPath -> path <> contentTypesPath ->
          path <> settingsRelsPath -> path <> settingsPath -> path <> documentPath ->
          zip' !! path = zip !! path)
    /\ (forall path : jsstring,
          is_Some (zip' !! path)
          <-> is_Some (zip !! path) /\ startsWith path customXmlDir = false).
Proof.
  unfold exportWithTemplate. intros H.
  destruct (loadAsync h buf) as [zip|]; simpl in H; [|discriminate].
  destruct (patchArchive h zip scopes results t st) as [zip'|e] eqn:E; simpl in H;
    [|discriminate].
  injection H as <-. exists zip, zip'. split; [reflexivity|]. split; [exact E|].
  split; [reflexivity|].
  apply patchArchive_Ok in E as (raw & Hraw & ->).
  split.
  - intros path Hc H1 H2 H3 H4 H5.
    rewrite lookup_insert_ne by congruence.
    now apply stripMetadata_lookup_other.
  - intros path. destruct (decide (path = documentPath)) as [->|Hne].
    + rewrite lookup_insert_eq. split.
      * intros _. split; [eauto|]. reflexivity.
      * eauto.
    + rewrite lookup_insert_ne by congruence. apply stripMetadata_is_Some.
Qed.

Lemma export_frame_witness :
  exists zip zip' : gmap jsstring bytes,
    loadAsync testHost pkTemplate = Some zip
    /\ patchArchive testHost zip [customScope] ∅ noTitle DEFAULT_STYLES = Ok zip'
    /\ blob pkDownload = generateAsync testHost zip'
    /\ (forall path : jsstring,
          startsWith path customXmlDir = false ->
          path <> relsPath -> path <> contentTypesPath ->
          path <> settingsRelsPath -> path <> settingsPath -> path <> documentPath ->
          zip' !! path = zip !! path)
    /\ (forall path : jsstring,
          is_Some (zip' !! path)
          <-> is_Some (zip !! path) /\ startsWith path customXmlDir = false).
Proof.
  apply (export_frame testHost pkTemplate [customScope] ∅ (u16 "notes.pdf") noTitle
           DEFAULT_STYLES pkDownload).
  vm_compute. reflexivity.
Defined.

(** C3.  When the template bytes do not open as an archive, or open as an
    archive without main document part, the export throws, and the user
    gets exactly one alert and no download. *)
Theorem malformed_template_fails_once (h : Host) (ct : option CustomTemplate)
    (scopes : list Scope) (results : gmap jsstring (list jsstring))
    (docName : jsstring) (t : DocTitle) :
  loadAsync h (templateBytes h ct) = None
  \/ (exists zip, loadAsync h (templateBytes h ct) = Some zip
                  /\ zip !! documentPath = None) ->
  exists e : error,
    exportWithTemplate h (templateBytes h ct) scopes results docName t (templateStyles ct)
    = Throw e
    /\ handleWordExport h ct scopes results docName t = [Alert e].
Proof.
  intros [H|(zip & H & Hdoc)]; unfold handleWordExport, exportWithTemplate; rewrite H.
  - exists ArchiveError. split; reflexivity.
  - exists TypeError. cbn [bind]. unfold patchArchive.
    rewrite stripMetadata_document, Hdoc. split; reflexivity.
Qed.

Lemma malformed_template_fails_once_witness :
  (exists e : error,
     exportWithTemplate testHost (templateBytes testHost (Some notZip)) [customScope] ∅
       (u16 "notes.pdf") noTitle (templateStyles (Some notZip)) = Throw e
     /\ handleWordExport testHost (Some notZip) [customScope] ∅ (u16 "notes.pdf") noTitle
        = [Alert e])
  /\ (exists e : error,
     exportWithTemplate testHost (templateBytes testHost (Some zipWithoutDocument))
       [customScope] ∅ (u16 "notes.pdf") noTitle (templateStyles (Some zipWithoutDocument))
     = Throw e
     /\ handleWordExport testHost (Some zipWithoutDocument) [customScope] ∅
          (u16 "notes.pdf") noTitle = [Alert e]).
Proof.
  split.
  - apply (malformed_template_fails_once testHost (Some notZip)).
    left. reflexivity.
  - apply (malformed_template_fails_once testHost (Some zipWithoutDocument)).
    right. eexists. split; [reflexivity|]. vm_compute. reflexivity.
Defined.


(** * Further properties *)

(** ** Escaping of text *)

Lemma flat_map_flat_map {A B C : Type} (f : B -> list C) (g : A -> list B) (l : list A) :
  flat_map f (flat_map g l) = flat_map (fun a => flat_map f (g a)) l.
Proof.
  induction l as [|a l IH]; [reflexivity|]. cbn [flat_map].
  now rewrite flat_map_app, IH.
Qed.

Lemma flat_map_pointwise {A B : Type} (f g : A -> list B) (l : list A) :
  (forall a, f a = g a) -> flat_map f l = flat_map g l.
Proof. intros H. apply flat_map_ext_in. intros a _. apply H. Qed.

(** The four replacements of xmlEsc amount to one pass over the text. *)
Lemma xmlEsc_one_pass (t : jsstring) : xmlEsc t = flat_map escOne t.
Proof.
  rewrite xmlEsc_units, !flat_map_flat_map. apply flat_map_pointwise. intros c.
  unfold escOne.
  destruct (N.eqb_spec c 38) as [->|H38]; [vm_compute; reflexivity|].
  destruct (N.eqb_spec c 60) as [->|H60]; [vm_compute; reflexivity|].
  destruct (N.eqb_spec c 62) as [->|H62]; [vm_compute; reflexivity|].
  destruct (N.eqb_spec c 34) as [->|H34]; [vm_compute; reflexivity|].
  unfold escUnit at 4. rewrite (proj2 (N.eqb_neq c 38) H38). cbn [flat_map app].
  unfold escUnit at 3. rewrite (proj2 (N.eqb_neq c 60) H60). cbn [flat_map app].
  unfold escUnit at 2. rewrite (proj2 (N.eqb_neq c 62) H62). cbn [flat_map app].
  unfold escUnit. rewrite (proj2 (N.eqb_neq c 34) H34). reflexivity.
Qed.

Lemma escOne_no_markup (c : N) : forallb (fun d => negb (isMarkupUnit d)) (escOne c) = true.
Proof.
  unfold escOne.
  destruct (N.eqb_spec c 38); [reflexivity|].
  destruct (N.eqb_spec c 60); [reflexivity|].
  destruct (N.eqb_spec c 62); [reflexivity|].
  destruct (N.eqb_spec c 34); [reflexivity|].
  cbn [forallb]. unfold isMarkupUnit.
  rewrite (proj2 (N.eqb_neq c 60)), (proj2 (N.eqb_neq c 62)), (proj2 (N.eqb_neq c 34))
    by assumption.
  reflexivity.
Qed.

(** X1.  Escaped text holds no sign that opens or closes a tag and no
    double quote: whatever the finding, the label or the title says, it
    cannot end the element or the attribute it is written into. *)
Theorem xmlEsc_no_markup (t : jsstring) :
  forallb (fun d => negb (isMarkupUnit d)) (xmlEsc t) = true.
Proof.
  rewrite xmlEsc_one_pass. induction t as [|c t IH]; [reflexivity|].
  cbn [flat_map]. now rewrite forallb_app, escOne_no_markup, IH.
Qed.

(** The first unit of what is written for a unit other than the ampersand
    is the unit itself when it is plain, and the ampersand otherwise. *)
Lemma escOne_cases (c : N) :
  (isSpecialUnit c = false /\ escOne c = [c])
  \/ (c = 38%N /\ escOne c = u16 "&amp;")
  \/ (c = 60%N /\ escOne c = u16 "&lt;")
  \/ (c = 62%N /\ escOne c = u16 "&gt;")
  \/ (c = 34%N /\ escOne c = u16 "&quot;").
Proof.
  unfold escOne, isSpecialUnit, isMarkupUnit.
  destruct (N.eqb_spec c 38) as [->|?]; [right; left; split; reflexivity|].
  destruct (N.eqb_spec c 60) as [->|?]; [right; right; left; split; reflexivity|].
  destruct (N.eqb_spec c 62) as [->|?]; [right; right; right; left; split; reflexivity|].
  destruct (N.eqb_spec c 34) as [->|?]; [right; right; right; right; split; reflexivity|].
  left. split; reflexivity.
Qed.

(** X2.  Escaping goes through concatenation, and leaves a text without
    ampersand, angle bracket and double quote as it is. *)
Theorem xmlEsc_app_and_plain (a b : jsstring) :
  xmlEsc (a ++ b) = xmlEsc a ++ xmlEsc b
  /\ (forallb (fun d => negb (isSpecialUnit d)) a = true -> xmlEsc a = a).
Proof.
  rewrite !xmlEsc_one_pass. split; [apply flat_map_app|].
  induction a as [|c a IH]; intros H; [reflexivity|].
  cbn [forallb] in H. apply andb_true_iff in H as [Hc Ha].
  cbn [flat_map]. rewrite (IH Ha).
  destruct (escOne_cases c) as [[_ E]|[[-> _]|[[-> _]|[[-> _]|[-> _]]]]];
    [now rewrite E| discriminate Hc ..].
Qed.

Lemma xmlEsc_app_and_plain_witness :
  xmlEsc (u16 "Release 2 notes") = u16 "Release 2 notes".
Proof.
  apply (xmlEsc_app_and_plain (u16 "Release 2 notes") []). vm_compute. reflexivity.
Defined.

Lemma escOne_head_inj (c d : N) (u v : jsstring) :
  escOne c ++ u = escOne d ++ v -> c = d /\ u = v.
Proof.
  intros H.
  destruct (escOne_cases c) as [[Hc Ec]|[[-> Ec]|[[-> Ec]|[[-> Ec]|[-> Ec]]]]];
    rewrite Ec in H; clear Ec;
    destruct (escOne_cases d) as [[Hd Ed]|[[-> Ed]|[[-> Ed]|[[-> Ed]|[-> Ed]]]]];
    rewrite Ed in H; clear Ed;
    try (vm_compute in H; now inversion H);
    try (cbn [app] in H; inversion H; now split);
    try (vm_compute in H; injection H as Hh _; subst; vm_compute in Hc; discriminate);
    try (vm_compute in H; injection H as Hh _; subst; vm_compute in Hd; discriminate).
Qed.

(** X3.  Escaping loses nothing: two texts with the same escaped form are
    the same text. *)
Theorem xmlEsc_injective (a b : jsstring) : xmlEsc a = xmlEsc b -> a = b.
Proof.
  rewrite !xmlEsc_one_pass. revert b.
  induction a as [|c a IH]; intros [|d b] H.
  - reflexivity.
  - exfalso. cbn [flat_map] in H.
    destruct (escOne_cases d) as [[_ E]|[[_ E]|[[_ E]|[[_ E]|[_ E]]]]];
      rewrite E in H; discriminate H.
  - exfalso. cbn [flat_map] in H.
    destruct (escOne_cases c) as [[_ E]|[[_ E]|[[_ E]|[[_ E]|[_ E]]]]];
      rewrite E in H; discriminate H.
  - cbn [flat_map] in H. apply escOne_head_inj in H as [-> H].
    now rewrite (IH b H).
Qed.

Lemma xmlEsc_injective_witness :
  u16 "a<b & c" = u16 "a<b & c".
Proof. apply xmlEsc_injective. reflexivity. Defined.

(** ** Replacement of a class of code units *)

Lemma matchAt_class (ic : bool) (s : jsstring) (neg : bool) (items : list citem) (q : nat) :
  matchAt ic s (Cls neg items) q
  = match s !! q with
    | Some b => if inClass ic neg items b then Some (MState (q + 1) []) else None
    | None => None
    end.
Proof.
  unfold matchAt. cbn [m pos].
  destruct (s !! q) as [b|]; [|reflexivity].
  destruct (inClass ic neg items b); reflexivity.
Qed.

Lemma execFrom_class_hit (ic : bool) (s : jsstring) (neg : bool) (items : list citem)
    (b : N) (i : nat) :
  s !! i = Some b -> inClass ic neg items b = true ->
  execFrom ic s (Cls neg items) i = Some (i, MState (i + 1) []).
Proof.
  intros E Hb. unfold execFrom.
  assert (Hlt : (i < length s)%nat) by (eapply lookup_lt_Some; exact E).
  replace (S (length s) - i)%nat with (S (length s - i)) by lia.
  cbn [scan]. rewrite matchAt_class, E, Hb. reflexivity.
Qed.

Lemma execFrom_class_miss (ic : bool) (s : jsstring) (neg : bool) (items : list citem)
    (b : N) (i : nat) :
  s !! i = Some b -> inClass ic neg items b = false ->
  execFrom ic s (Cls neg items) i = execFrom ic s (Cls neg items) (S i).
Proof.
  intros E Hb. unfold execFrom.
  assert (Hlt : (i < length s)%nat) by (eapply lookup_lt_Some; exact E).
  replace (S (length s) - i)%nat with (S (length s - i)) by lia.
  cbn [scan]. rewrite matchAt_class, E, Hb.
  replace (S (length s) - S i)%nat with (length s - i)%nat by lia. reflexivity.
Qed.

Lemma execFrom_class_end (ic : bool) (s : jsstring) (neg : bool) (items : list citem)
    (i : nat) :
  s !! i = None -> execFrom ic s (Cls neg items) i = None.
Proof.
  intros E. unfold execFrom.
  assert (Hge : (length s <= i)%nat) by (apply lookup_ge_None; exact E).
  destruct (S (length s) - i)%nat as [|n] eqn:En; [reflexivity|].
  assert (n = 0%nat) by lia. subst n.
  cbn [scan]. now rewrite matchAt_class, E.
Qed.

Lemma replaceLoop_class (ic : bool) (s : jsstring) (neg : bool) (items : list citem)
    (repl : jsstring) (k : nat) :
  forall (i fuel : nat), (length s - i = k)%nat -> (k < fuel)%nat ->
  replaceLoop ic s (Cls neg items) repl fuel i i
  = flat_map (classUnit ic neg items repl) (drop i s).
Proof.
  induction k as [k IH] using lt_wf_ind. intros i fuel Hk Hf.
  destruct fuel as [|f]; [lia|].
  destruct (s !! i) as [b|] eqn:E.
  - assert (Hlt : (i < length s)%nat) by (eapply lookup_lt_Some; exact E).
    rewrite (drop_cons_lookup _ _ _ E). cbn [flat_map]. unfold classUnit at 1.
    destruct (inClass ic neg items b) eqn:Hb.
    + cbn [replaceLoop]. rewrite (execFrom_class_hit _ _ _ _ _ _ E Hb). cbn [pos].
      rewrite substr_empty. cbn [app].
      replace (Nat.eqb (i + 1) i) with false by (symmetry; apply Nat.eqb_neq; lia).
      replace (i + 1)%nat with (S i) by lia.
      f_equal. apply (IH (length s - S i)%nat); lia.
    + rewrite replaceLoop_shift by lia. rewrite substr_empty. cbn [app].
      cbn [replaceLoop]. rewrite (execFrom_class_miss _ _ _ _ _ _ E Hb).
      destruct (execFrom ic s (Cls neg items) (S i)) as [[q y]|] eqn:E2.
      * pose proof (execFrom_ge _ _ _ _ _ _ E2) as Hq.
        pose proof (execFrom_bounds _ _ _ _ _ _ E2) as [Hq2 Hy].
        rewrite (substr_split s i (S i) q) by lia.
        rewrite (substr_unit _ _ _ E). cbn [app]. f_equal.
        rewrite <- (IH (length s - S i)%nat ltac:(lia) (S i) (S f) eq_refl ltac:(lia)).
        cbn [replaceLoop]. rewrite E2. reflexivity.
      * rewrite <- (IH (length s - S i)%nat ltac:(lia) (S i) (S f) eq_refl ltac:(lia)).
        cbn [replaceLoop]. rewrite E2.
        rewrite (drop_cons_lookup _ _ _ E). reflexivity.
  - assert (Hge : (length s <= i)%nat) by (apply lookup_ge_None; exact E).
    cbn [replaceLoop]. rewrite (execFrom_class_end _ _ _ _ _ E).
    rewrite drop_ge by lia. reflexivity.
Qed.

(** Replacing every code unit of a class rewrites the string unit by unit. *)
Lemma replaceAll_class (ic : bool) (s : jsstring) (neg : bool) (items : list citem)
    (repl : jsstring) :
  replaceAll ic s (Cls neg items) repl = flat_map (classUnit ic neg items repl) s.
Proof.
  unfold replaceAll. rewrite (replaceLoop_class ic s neg items repl (length s)) by lia.
  reflexivity.
Qed.

(** ** The name of the downloaded file *)

Lemma flat_map_singleton {A B : Type} (f : A -> B) (l : list A) :
  flat_map (fun a => [f a]) l = map f l.
Proof. induction l as [|a l IH]; [reflexivity|]. cbn. now rewrite IH. Qed.

Lemma slice_0_cap (s : jsstring) (k : nat) :
  slice s 0 (Z.of_nat k) = take k s.
Proof.
  unfold slice, relIndex. pose proof (jslen_nonneg s) as Hn.
  destruct (Z.ltb_spec 0 0) as [?|_]; [lia|].
  destruct (Z.ltb_spec (Z.of_nat k) 0) as [?|_]; [lia|].
  replace (Z.to_nat (Z.min 0 (jslen s))) with 0%nat by lia.
  rewrite drop_0. unfold jslen in *.
  destruct (Nat.le_gt_cases k (length s)) as [Hle|Hgt].
  - f_equal. lia.
  - rewrite !take_ge by lia. reflexivity.
Qed.

Lemma forallb_take {A : Type} (f : A -> bool) (l : list A) (n : nat) :
  forallb f l = true -> forallb f (take n l) = true.
Proof.
  revert n. induction l as [|a l IH]; intros [|n] H; try reflexivity.
  cbn [forallb] in H. apply andb_true_iff in H as [Ha Hl].
  cbn [take forallb]. now rewrite Ha, IH.
Qed.

Lemma forallb_drop {A : Type} (f : A -> bool) (l : list A) (n : nat) :
  forallb f l = true -> forallb f (drop n l) = true.
Proof.
  revert n. induction l as [|a l IH]; intros [|n] H; try reflexivity; [exact H|].
  cbn [forallb] in H. apply andb_true_iff in H as [Ha Hl].
  cbn [drop]. now apply IH.
Qed.

Lemma unsafe_unit_replaced (d : N) :
  isNameUnit (if inClass true true [CRange 97 122; CRange 48 57] d then 95%N else d) = true.
Proof.
  destruct (inClass true true [CRange 97 122; CRange 48 57] d) eqn:E; [reflexivity|].
  unfold inClass in E. cbn [existsb inItem andb orb xorb] in E.
  apply negb_false_iff in E. unfold isNameUnit.
  destruct (isAsciiLower d) eqn:L; [reflexivity|].
  destruct (isAsciiUpper d) eqn:U; [reflexivity|]. cbn [orb].
  unfold asciiUp, asciiDown in E. rewrite L, U in E.
  change (inRange 97 122 d) with (isAsciiLower d) in E. rewrite L in E.
  destruct (inRange 48 57 d); [reflexivity|]. cbn in E. discriminate E.
Qed.

(** X4.  The file name of an export is ReleaseLens_, a name part, an
    underscore, the first ten units of the date and .docx; the name part is
    never empty, has at most 40 code units, and each of them is an ASCII
    letter, a digit or an underscore, whatever the title or the document
    name contains. *)
Theorem downloadName_safe (h : Host) (docName : jsstring) (docTitle : DocTitle) :
  exists n : jsstring,
    downloadName h docName docTitle
    = u16 "ReleaseLens_" ++ n ++ u16 "_" ++ slice (isoDate h) 0 10 ++ u16 ".docx"
    /\ (0 < length n <= 40)%nat
    /\ forallb isNameUnit n = true.
Proof.
  set (src := orElseU (title docTitle) (orElse docName (u16 "analysis"))).
  assert (Hsrc : src <> []).
  { apply orElseU_non_empty. destruct docName; discriminate. }
  exists (take 40 (map (fun d => if inClass true true [CRange 97 122; CRange 48 57] d
                                 then 95%N else d) src)).
  split; [|split].
  - unfold downloadName. fold src. unfold reUnsafe. rewrite replaceAll_class.
    change 40 with (Z.of_nat 40). rewrite slice_0_cap.
    rewrite <- flat_map_singleton. do 2 f_equal. f_equal.
    apply flat_map_pointwise. intros d. unfold classUnit.
    destruct (inClass true true [CRange 97 122; CRange 48 57] d); reflexivity.
  - rewrite length_take, length_map. destruct src; [congruence|]. cbn [length]. lia.
  - apply forallb_take, forallb_forall. intros c Hc.
    apply in_map_iff in Hc as [d [<- _]]. apply unsafe_unit_replaced.
Qed.

(** ** The splice and the cover title *)

(** What [indexOfAux] returns: -1 when the pattern occurs nowhere, or the
    offset of its first occurrence. *)
Lemma indexOfAux_spec (p s : jsstring) (off : Z) :
  (indexOfAux p s off = -1 /\ 0 <= off -> forall k, isPrefix p (drop k s) = false)
  /\ (0 <= off ->
      indexOfAux p s off = -1
      \/ exists k : nat, indexOfAux p s off = off + Z.of_nat k /\ (k <= length s)%nat
           /\ isPrefix p (drop k s) = true).
Proof.
  revert off. induction s as [|c s IH]; intros off; cbn [indexOfAux].
  - split.
    + intros [H Hoff] k. rewrite drop_nil. destruct (isPrefix p []); [lia|reflexivity].
    + intros Hoff. destruct (isPrefix p []) eqn:E; [|now left].
      right. exists 0%nat. repeat split; [lia|cbn; lia|exact E].
  - destruct (isPrefix p (c :: s)) eqn:E.
    + split; [intros [H Hoff]; lia|].
      intros Hoff. right. exists 0%nat. repeat split; [lia|cbn; lia|exact E].
    + destruct (IH (off + 1)) as [IH1 IH2]. split.
      * intros [H Hoff] [|k]; [exact E|]. cbn [drop]. apply IH1. split; [exact H|lia].
      * intros Hoff. destruct (IH2 ltac:(lia)) as [H|(k & H & Hk & Hp)]; [now left|].
        right. exists (S k). repeat split; [lia|cbn; lia|exact Hp].
Qed.

Lemma indexOfFrom_spec (s p : jsstring) (from : Z) :
  indexOfFrom s p from = -1
  \/ (Z.min (Z.max from 0) (jslen s) <= indexOfFrom s p from <= jslen s
      /\ isPrefix p (drop (Z.to_nat (indexOfFrom s p from)) s) = true).
Proof.
  unfold indexOfFrom. pose proof (jslen_nonneg s) as Hn.
  set (k := Z.min (Z.max from 0) (jslen s)).
  assert (Hk : 0 <= k <= jslen s) by (subst k; lia).
  destruct (proj2 (indexOfAux_spec p (drop (Z.to_nat k) s) k) ltac:(lia))
    as [H|(j & H & Hj & Hp)]; [now left|].
  right. rewrite H. rewrite length_drop in Hj. rewrite drop_drop in Hp.
  unfold jslen in *. split; [lia|].
  replace (Z.to_nat (k + Z.of_nat j)) with (Z.to_nat k + j)%nat by lia. exact Hp.
Qed.



Lemma titlePara_eq (h : Host) (t : DocTitle) :
  titlePara h t
  = u16 "<w:p><w:pPr><w:pStyle w:val=" ++ DQ ++ u16 "Title" ++ DQ ++ u16 "/></w:pPr>"
      ++ u16 "<w:r><w:t xml:space=" ++ DQ ++ u16 "preserve" ++ DQ ++ u16 ">"
      ++ xmlEsc (toUpperCase h (default [] (title t)))
      ++ (if truthy (subtitle t)
          then u16 " - " ++ xmlEsc (toUpperCase h (default [] (subtitle t)))
          else [])
      ++ u16 "</w:t></w:r></w:p>".
Proof. unfold titlePara. reflexivity. Qed.

(** The replacement, with the new paragraph named. *)
Lemma updateCoverTitle_eq (h : Host) (d : jsstring) (t : DocTitle) :
  updateCoverTitle h d t
  = if negb (truthy (title t)) then d
    else if indexOf d TITLE_REF =? -1 then d
    else if (Z.max (lastIndexOfFrom d (u16 "<w:p>") (indexOf d TITLE_REF))
                   (lastIndexOfFrom d (u16 "<w:p ") (indexOf d TITLE_REF)) =? -1)
            || (indexOfFrom d PARA_END (indexOf d TITLE_REF) + jslen PARA_END =? -1)
    then d
    else slice d 0 (Z.max (lastIndexOfFrom d (u16 "<w:p>") (indexOf d TITLE_REF))
                          (lastIndexOfFrom d (u16 "<w:p ") (indexOf d TITLE_REF)))
           ++ titlePara h t
           ++ sliceFrom d (indexOfFrom d PARA_END (indexOf d TITLE_REF) + jslen PARA_END).
Proof. rewrite titlePara_eq. unfold updateCoverTitle. reflexivity. Qed.

(** X6.  When a title is given, the body has a reference to the style
    Title and a paragraph opens at or before it, the replacement keeps the
    body before that opening, writes the new title paragraph, and keeps the
    body from the end of the first paragraph-end marker after the
    reference; when no such marker follows, the test on the end position is
    not met (the position is 5, not -1) and the body from its sixth code
    unit on is appended. *)
Theorem updateCoverTitle_frame (h : Host) (d : jsstring) (t : DocTitle) :
  let idx := indexOf d TITLE_REF in
  let pStart := Z.max (lastIndexOfFrom d (u16 "<w:p>") idx)
                      (lastIndexOfFrom d (u16 "<w:p ") idx) in
  let pEnd := indexOfFrom d PARA_END idx + 6 in
  truthy (title t) = true -> 0 <= idx -> 0 <= pStart ->
  updateCoverTitle h d t
  = take (Z.to_nat pStart) d ++ titlePara h t ++ drop (Z.to_nat pEnd) d
  /\ pStart <= idx
  /\ (isPrefix (u16 "<w:p>") (drop (Z.to_nat pStart) d) = true
      \/ isPrefix (u16 "<w:p ") (drop (Z.to_nat pStart) d) = true)
  /\ (pEnd = 5
      \/ (idx + 6 <= pEnd <= jslen d /\ slice d (pEnd - 6) pEnd = PARA_END)).
Proof.
  intros idx pStart pEnd Ht Hidx Hps.
  pose proof (jslen_nonneg d) as Hn.
  assert (Hidx2 : idx + 13 <= jslen d).
  { subst idx. unfold indexOf in *.
    destruct (proj2 (indexOfAux_spec TITLE_REF d 0) ltac:(lia)) as [E|(k & E & Hk & Hp)];
      [lia|].
    rewrite E. apply isPrefix_length in Hp. rewrite length_drop in Hp.
    change (length TITLE_REF) with 13%nat in Hp. unfold jslen. lia. }
  assert (Hclamp : Z.min (Z.max idx 0) (jslen d) = idx) by lia.
  assert (HpS : pStart <= idx
                /\ (isPrefix (u16 "<w:p>") (drop (Z.to_nat pStart) d) = true
                    \/ isPrefix (u16 "<w:p ") (drop (Z.to_nat pStart) d) = true)).
  { subst pStart. unfold lastIndexOfFrom in *. rewrite Hclamp in *.
    destruct (lastIndexDown_spec (u16 "<w:p>") d (Z.to_nat idx)) as [E1|[B1 P1]];
      destruct (lastIndexDown_spec (u16 "<w:p ") d (Z.to_nat idx)) as [E2|[B2 P2]].
    - rewrite E1, E2 in Hps. lia.
    - rewrite E1 in *. rewrite Z.max_r by lia. split; [lia|now right].
    - rewrite E2 in *. rewrite Z.max_l by lia. split; [lia|now left].
    - split; [lia|].
      destruct (Z.max_spec (lastIndexDown (u16 "<w:p>") d (Z.to_nat idx))
                           (lastIndexDown (u16 "<w:p ") d (Z.to_nat idx)))
        as [[_ ->]|[_ ->]]; [now right|now left]. }
  assert (HpE : pEnd = 5
                \/ (idx + 6 <= pEnd <= jslen d /\ slice d (pEnd - 6) pEnd = PARA_END)).
  { subst pEnd. destruct (indexOfFrom_spec d PARA_END idx) as [E|[B P]].
    - left. rewrite E. reflexivity.
    - right. rewrite Hclamp in B.
      set (e := indexOfFrom d PARA_END idx) in *.
      pose proof (isPrefix_length _ _ P) as L. rewrite length_drop in L.
      change (length PARA_END) with 6%nat in L. unfold jslen in *.
      split; [lia|]. unfold slice, jslen. rewrite !relIndex_id by (unfold jslen; lia).
      replace (e + 6 - 6) with e by lia. replace (e + 6 - e) with 6 by lia.
      apply (isPrefix_take PARA_END). exact P. }
  split; [|split; [exact (proj1 HpS)|split; [exact (proj2 HpS)|exact HpE]]].
  rewrite updateCoverTitle_eq, Ht. cbn [negb].
  fold idx. destruct (Z.eqb_spec idx (-1)) as [?|_]; [lia|].
  fold pStart. change (jslen PARA_END) with 6. fold pEnd.
  destruct (Z.eqb_spec pStart (-1)) as [?|_]; [lia|].
  destruct (Z.eqb_spec pEnd (-1)) as [?|_]; [lia|].
  cbn [orb].
  rewrite slice_0_take by lia. rewrite sliceFrom_drop by lia. reflexivity.
Qed.

Lemma updateCoverTitle_frame_witness :
  updateCoverTitle testHost coverDoc releaseTitle
  = u16 "<w:body>" ++ titlePara testHost releaseTitle
      ++ u16 "<w:p>x</w:p><w:sectPr><w:pgSz/></w:sectPr></w:body>".
Proof.
  refine (eq_trans (proj1 (updateCoverTitle_frame testHost coverDoc releaseTitle _ _ _)) _).
  - reflexivity.
  - vm_compute. discriminate.
  - vm_compute. discriminate.
  - vm_compute. reflexivity.
Defined.



(** ** The text sent to the model *)

Example splitStr_examples :
  splitStr (u16 "a,b,,c,") (u16 ",") = [u16 "a"; u16 "b"; []; u16 "c"; []]
  /\ splitStr [] (u16 ",") = [[]]
  /\ splitStr (u16 "xabyab") (u16 "ab") = [u16 "x"; u16 "y"; []]
  /\ splitStr (u16 "aaa") (u16 "aa") = [[]; u16 "a"]
  /\ splitStr (u16 "abc") [] = [u16 "a"; u16 "b"; u16 "c"].
Proof. repeat split; vm_compute; reflexivity. Qed.

Example parseBullets_examples :
  parseBullets (u16 "1. First finding of the list" ++ LF ++ u16 "short" ++ LF
                  ++ u16 "  - Second finding of the list  ")
  = [u16 "1. First finding of the list"; u16 "- Second finding of the list"]
  /\ parseBulletsDocx (u16 "1. First finding of the list" ++ LF ++ u16 "short" ++ LF
                  ++ u16 "  - Second finding of the list  ")
  = [u16 "First finding of the list"; u16 "Second finding of the list"].
Proof. split; vm_compute; reflexivity. Qed.

Lemma sliceFrom_neg (s : jsstring) (k : nat) :
  (0 < k <= length s)%nat -> sliceFrom s (- Z.of_nat k) = drop (length s - k) s.
Proof.
  intros Hk. unfold sliceFrom, slice, relIndex, jslen.
  destruct (Z.ltb_spec (- Z.of_nat k) 0) as [Hneg|Hz]; [|lia].
  destruct (Z.ltb_spec (Z.of_nat (length s)) 0) as [?|_]; [lia|].
  rewrite Z.min_id.
  replace (Z.to_nat (Z.max (Z.of_nat (length s) + - Z.of_nat k) 0))
    with (length s - k)%nat by lia.
  apply take_ge. rewrite length_drop. lia.
Qed.

(** X7.  A text within the budget is sent as it is; a longer one is cut
    to its first 20000 and its last 20000 code units around the notice of
    the omission.  What is sent is never longer than the budget plus the
    notice. *)
Theorem prepareDocText_bounded (text : jsstring) :
  let half := Z.to_nat (CONTENT_BUDGET / 2) in
  (jslen text <= CONTENT_BUDGET -> prepareDocText text = text)
  /\ (CONTENT_BUDGET < jslen text ->
      prepareDocText text = take half text ++ OMITTED ++ drop (length text - half) text
      /\ jslen (prepareDocText text) = CONTENT_BUDGET + jslen OMITTED)
  /\ jslen (prepareDocText text) <= CONTENT_BUDGET + jslen OMITTED.
Proof.
  intros half.
  assert (Hhalf : Z.of_nat half = 20000) by (vm_compute; reflexivity).
  clearbody half.
  assert (Hlong : CONTENT_BUDGET < jslen text ->
            prepareDocText text = take half text ++ OMITTED ++ drop (length text - half) text
            /\ jslen (prepareDocText text) = CONTENT_BUDGET + jslen OMITTED).
  { intros H. unfold prepareDocText, CONTENT_BUDGET in *.
    destruct (Z.leb_spec (jslen text) 40000) as [?|_]; [lia|].
    change (40000 / 2) with 20000. rewrite <- Hhalf.
    unfold jslen in H.
    rewrite slice_0_cap, sliceFrom_neg by lia.
    split; [reflexivity|].
    unfold jslen. rewrite !length_app, length_take, length_drop. lia. }
  assert (Hshort : jslen text <= CONTENT_BUDGET -> prepareDocText text = text).
  { intros H. unfold prepareDocText.
    destruct (Z.leb_spec (jslen text) CONTENT_BUDGET) as [_|?]; [reflexivity|lia]. }
  split; [exact Hshort|]. split; [exact Hlong|].
  destruct (Z.le_gt_cases (jslen text) CONTENT_BUDGET) as [H|H].
  - rewrite (Hshort H). pose proof (jslen_nonneg OMITTED). unfold CONTENT_BUDGET in *. lia.
  - destruct (Hlong ltac:(lia)) as [_ ->]. lia.
Qed.

Lemma prepareDocText_bounded_witness :
  jslen (prepareDocText (repeat 120%N (Z.to_nat 40001))) = 40073.
Proof.
  refine (eq_trans
            (proj2 (proj1 (proj2 (prepareDocText_bounded (repeat 120%N (Z.to_nat 40001)))) _))
            _).
  - vm_compute. reflexivity.
  - vm_compute. reflexivity.
Defined.

(** ** Greedy repetition of a one-unit pattern *)

Lemma drop_spanLen (P : N -> bool) (s : jsstring) :
  drop (spanLen P s) s = dropWhile P s.
Proof.
  induction s as [|c s IH]; [reflexivity|]. cbn [spanLen dropWhile].
  destruct (P c); [exact IH|reflexivity].
Qed.

Lemma head_app_Some {A : Type} (l1 l2 : list A) (a : A) :
  head l1 = Some a -> head (l1 ++ l2) = Some a.
Proof. destruct l1; [discriminate|]. intros H. exact H. Qed.

Lemma advance_advance (x : mstate) (a b : nat) :
  advance (advance x a) b = advance x (a + b).
Proof. unfold advance. cbn [pos caps]. f_equal. lia. Qed.

Lemma advance_0 (x : mstate) : advance x 0 = x.
Proof. destruct x as [p c]. unfold advance. cbn [pos caps]. f_equal. lia. Qed.

(** The first alternative of a greedy repetition of a pattern that
    matches one code unit is the longest run. *)
Lemma repLoop_greedy_unit (s : jsstring) (mr : mstate -> list mstate) (P : N -> bool) :
  (forall y, mr y = match s !! pos y with
                    | Some b => if P b then [advance y 1] else []
                    | None => []
                    end) ->
  forall (fuel mn : nat) (x : mstate), (mn + (length s - pos x) < fuel)%nat ->
  head (repLoop mr (clearCaps []) fuel mn None true x)
  = if Nat.leb mn (spanLen P (drop (pos x) s))
    then Some (advance x (spanLen P (drop (pos x) s))) else None.
Proof.
  intros Hmr fuel. induction fuel as [|f IH]; intros mn x Hf; [lia|].
  cbn [repLoop fmap option_fmap option_map]. rewrite clearCaps_nil, Hmr.
  destruct (s !! pos x) as [b|] eqn:E.
  - assert (Hlt : (pos x < length s)%nat) by (eapply lookup_lt_Some; exact E).
    rewrite (drop_cons_lookup _ _ _ E). cbn [spanLen].
    destruct (P b) eqn:Pb.
    + cbn [flat_map]. rewrite app_nil_r.
      replace (Nat.eqb (pos (advance x 1)) (pos x)) with false
        by (symmetry; apply Nat.eqb_neq; cbn [advance pos]; lia).
      rewrite andb_false_r. cbv iota.
      specialize (IH (Nat.pred mn) (advance x 1)).
      cbn [advance pos] in IH.
      replace (pos x + 1)%nat with (S (pos x)) in IH by lia.
      specialize (IH ltac:(lia)).
      fold (advance x 1) in IH.
      destruct mn as [|k].
      * cbn [Nat.pred Nat.leb] in IH |- *.
        apply head_app_Some. rewrite IH, advance_advance. reflexivity.
      * cbn [Nat.pred] in IH |- *. rewrite IH. cbn [Nat.leb].
        destruct (Nat.leb k (spanLen P (drop (S (pos x)) s))); [|reflexivity].
        now rewrite advance_advance.
    + cbn [flat_map]. destruct mn as [|k]; [|reflexivity].
      cbn [app head Nat.leb]. now rewrite advance_0.
  - rewrite (drop_nil_lookup _ _ E). cbn [flat_map spanLen].
    destruct mn as [|k]; [|reflexivity].
    cbn [app head Nat.leb]. now rewrite advance_0.
Qed.

Lemma m_Plus_class_head (ic : bool) (s : jsstring) (neg : bool) (items : list citem)
    (x : mstate) :
  head (m ic s (Plus (Cls neg items)) x)
  = if Nat.leb 1 (spanLen (inClass ic neg items) (drop (pos x) s))
    then Some (advance x (spanLen (inClass ic neg items) (drop (pos x) s))) else None.
Proof.
  unfold Plus. rewrite m_Rep. cbn [groups].
  apply repLoop_greedy_unit; [|lia].
  intros y. reflexivity.
Qed.

Lemma m_Plus_unit_head (s : jsstring) (c : N) (x : mstate) :
  head (m false s (Plus (Lit [c])) x)
  = if Nat.leb 1 (spanLen (N.eqb c) (drop (pos x) s))
    then Some (advance x (spanLen (N.eqb c) (drop (pos x) s))) else None.
Proof.
  unfold Plus. rewrite m_Rep. cbn [groups].
  apply repLoop_greedy_unit; [|lia].
  intros y. rewrite m_Lit, litMatch_isPrefix.
  destruct (s !! pos y) as [b|] eqn:E.
  - rewrite (drop_cons_lookup _ _ _ E). cbn [isPrefix length].
    now rewrite andb_true_r.
  - rewrite (drop_nil_lookup _ _ E). reflexivity.
Qed.

(** ** The answers read back *)

(** A pattern anchored at the start matches at position 0 or nowhere. *)
Lemma exec_anchored (ic : bool) (s : jsstring) (r : regex) :
  exec ic s (Seq Bol r)
  = match head (m ic s r (MState 0 [])) with
    | Some y => Some (0%nat, y)
    | None => None
    end.
Proof.
  assert (Hpos : forall q, (0 < q)%nat -> matchAt ic s (Seq Bol r) q = None).
  { intros q Hq. unfold matchAt. rewrite m_Seq. cbn [m pos].
    destruct q as [|q]; [lia|]. reflexivity. }
  assert (H0 : matchAt ic s (Seq Bol r) 0 = head (m ic s r (MState 0 []))).
  { unfold matchAt. rewrite m_Seq. cbn [m pos Nat.eqb flat_map]. now rewrite app_nil_r. }
  unfold exec, execFrom. rewrite Nat.sub_0_r. cbn [scan]. rewrite H0.
  destruct (head (m ic s r (MState 0 []))) as [y|] eqn:E; [reflexivity|].
  generalize 1%nat as q. generalize (length s) as n.
  induction n as [|n IH]; intros q; [reflexivity|]. cbn [scan].
  destruct q as [|q]; [rewrite H0; apply IH|].
  rewrite Hpos by lia. apply IH.
Qed.

Lemma strip_span (P : N -> bool) (l : jsstring) :
  (if Nat.leb 1 (spanLen P l) then drop (spanLen P l) l else l) = dropWhile P l.
Proof.
  destruct l as [|c t]; [reflexivity|]. cbn [spanLen dropWhile].
  destruct (P c); [|reflexivity]. cbn [Nat.leb drop]. apply drop_spanLen.
Qed.

(** The leading pattern of the docx exporter removes the longest prefix
    of list markers. *)
Lemma replaceFirst_lead_docx (l : jsstring) :
  replaceFirst false l reBulletLeadDocx [] = dropWhile isBulletMarker l.
Proof.
  unfold replaceFirst, reBulletLeadDocx. rewrite exec_anchored, m_Plus_class_head.
  cbn [pos]. rewrite drop_0.
  rewrite <- (strip_span isBulletMarker l).
  change (spanLen (inClass false false bulletMarker) l) with (spanLen isBulletMarker l).
  set (n := spanLen isBulletMarker l).
  destruct (Nat.leb 1 n); reflexivity.
Qed.

(** The leading pattern of the template exporter removes one unit of its
    class and the closing brackets after it, and nothing when no closing
    bracket follows the first unit. *)
Lemma replaceFirst_lead (l : jsstring) :
  replaceFirst false l reBulletLead [] = stripLead l.
Proof.
  unfold replaceFirst, reBulletLead. rewrite exec_anchored, m_Seq.
  cbn [m pos].
  destruct l as [|c t]; [reflexivity|].
  cbn [lookup list_lookup stripLead].
  destruct (inClass false false [CRange 115 8226; CChar 42; CChar 100; CChar 46; CChar 41] c).
  - cbn [flat_map andb]. rewrite app_nil_r.
    change (u16 "]") with [93%N]. rewrite m_Plus_unit_head.
    cbn [advance pos Nat.add drop]. rewrite drop_0.
    rewrite <- (strip_span (N.eqb 93) t).
    set (n := spanLen (N.eqb 93) t).
    destruct (Nat.leb 1 n); reflexivity.
  - reflexivity.
Qed.

(** *** Lines *)

Lemma isPrefix_unit (c x : N) (t : jsstring) : isPrefix [c] (x :: t) = (c =? x)%N.
Proof. cbn [isPrefix]. apply andb_true_r. Qed.

Lemma splitAt_unit_app (c : N) (a b : jsstring) :
  forall cur, splitAt [c] 0 cur (a ++ c :: b) = splitAt [c] 0 cur a ++ splitAt [c] 0 [] b.
Proof.
  induction a as [|x a IH]; intros cur.
  - cbn [app splitAt]. rewrite isPrefix_unit, N.eqb_refl. reflexivity.
  - cbn [app splitAt]. rewrite !isPrefix_unit. cbn [length Nat.sub].
    destruct (c =? x)%N; rewrite IH; reflexivity.
Qed.

Lemma splitAt_unit_free (c : N) (s : jsstring) :
  forall cur, ~ In c cur -> Forall (fun seg => ~ In c seg) (splitAt [c] 0 cur s).
Proof.
  induction s as [|x s IH]; intros cur Hcur.
  - cbn [splitAt]. constructor; [exact Hcur|constructor].
  - cbn [splitAt]. rewrite isPrefix_unit. cbn [length Nat.sub].
    destruct (N.eqb_spec c x) as [->|Hne].
    + constructor; [exact Hcur|]. apply IH. intros [].
    + apply IH. intros H. apply in_app_or in H as [H|[H|[]]]; [now apply Hcur|].
      now apply Hne.
Qed.

(** The lines of a text joined by line feeds give the text back. *)
Lemma splitAt_unit_join (c : N) (s : jsstring) :
  forall cur, join [c] (splitAt [c] 0 cur s) = cur ++ s.
Proof.
  induction s as [|x s IH]; intros cur.
  - cbn [splitAt join]. now rewrite app_nil_r.
  - cbn [splitAt]. rewrite isPrefix_unit. cbn [length Nat.sub].
    destruct (N.eqb_spec c x) as [->|Hne].
    + specialize (IH []). cbn [app] in IH.
      destruct (splitAt [x] 0 [] s) as [|seg rest] eqn:E.
      * destruct s; cbn [splitAt] in E; [discriminate|].
        destruct (isPrefix [x] (n :: s)); discriminate.
      * cbn [join] in IH |- *. rewrite IH. reflexivity.
    + rewrite IH, <- app_assoc. reflexivity.
Qed.

(** *** Trimming *)

Lemma trimStart_dropWhile (s : jsstring) : trimStart s = dropWhile isWhite s.
Proof. induction s as [|c s IH]; [reflexivity|]. cbn. now rewrite IH. Qed.

Lemma dropWhile_head (P : N -> bool) (s : jsstring) :
  match dropWhile P s with c :: _ => P c = false | [] => True end.
Proof.
  induction s as [|c s IH]; [exact I|]. cbn [dropWhile].
  destruct (P c) eqn:E; [exact IH|exact E].
Qed.

Lemma dropWhile_id (P : N -> bool) (s : jsstring) :
  match s with c :: _ => P c = false | [] => True end -> dropWhile P s = s.
Proof. destruct s as [|c s]; [reflexivity|]. cbn [dropWhile]. now intros ->. Qed.

Lemma dropWhile_app_keep (P : N -> bool) (s : jsstring) (c : N) :
  P c = false -> dropWhile P (s ++ [c]) = dropWhile P s ++ [c].
Proof.
  intros Hc. induction s as [|x s IH]; cbn [app dropWhile]; [now rewrite Hc|].
  destruct (P x); [exact IH|reflexivity].
Qed.

Lemma dropWhile_suffix (P : N -> bool) (s : jsstring) :
  exists a, s = a ++ dropWhile P s /\ forallb P a = true.
Proof.
  induction s as [|c s (a & Ha & Pa)]; [exists []; split; reflexivity|].
  cbn [dropWhile]. destruct (P c) eqn:E.
  - exists (c :: a). split; [cbn [app]; now rewrite <- Ha|]. cbn [forallb]. now rewrite E, Pa.
  - exists []. split; reflexivity.
Qed.

(** Trimming the end keeps a first unit that is not white space. *)
Lemma trimEnd_head (c : N) (t : jsstring) :
  isWhite c = false -> exists t', trimEnd (c :: t) = c :: t'.
Proof.
  intros Hc. unfold trimEnd. rewrite trimStart_dropWhile. cbn [rev].
  rewrite (dropWhile_app_keep _ _ _ Hc), rev_app_distr. cbn [rev app].
  now eexists.
Qed.

Lemma trimEnd_idem (s : jsstring) : trimEnd (trimEnd s) = trimEnd s.
Proof.
  unfold trimEnd. rewrite rev_involutive. f_equal.
  rewrite !trimStart_dropWhile. apply dropWhile_id. apply dropWhile_head.
Qed.

Lemma trim_idem (s : jsstring) : trim (trim s) = trim s.
Proof.
  unfold trim. rewrite (trimStart_dropWhile s).
  pose proof (dropWhile_head isWhite s) as H.
  destruct (dropWhile isWhite s) as [|c t] eqn:E; [reflexivity|].
  destruct (trimEnd_head c t H) as [t' Ht]. rewrite Ht.
  cbn [trimStart]. rewrite H, <- Ht. apply trimEnd_idem.
Qed.

(** What is trimmed off is white space, and what is left is a span of the
    string. *)
Lemma trim_span (s : jsstring) :
  exists a b, s = a ++ trim s ++ b /\ forallb isWhite a = true /\ forallb isWhite b = true.
Proof.
  unfold trim. rewrite trimStart_dropWhile.
  destruct (dropWhile_suffix isWhite s) as (a & Ha & Pa).
  set (u := dropWhile isWhite s) in *.
  unfold trimEnd. rewrite trimStart_dropWhile.
  destruct (dropWhile_suffix isWhite (rev u)) as (b & Hb & Pb).
  exists a, (rev b). split; [|split; [exact Pa|]].
  - rewrite Ha at 1. f_equal.
    rewrite <- rev_app_distr, <- Hb. now rewrite rev_involutive.
  - rewrite forallb_forall in *. intros x Hx. apply Pb. now apply in_rev.
Qed.

Lemma trim_In (s : jsstring) (c : N) : In c (trim s) -> In c s.
Proof.
  intros H. destruct (trim_span s) as (a & b & E & _). rewrite E.
  apply in_or_app. right. apply in_or_app. now left.
Qed.

Lemma dropWhile_In (P : N -> bool) (s : jsstring) (c : N) :
  In c (dropWhile P s) -> In c s.
Proof.
  intros H. destruct (dropWhile_suffix P s) as (a & E & _). rewrite E.
  apply in_or_app. now right.
Qed.

(** *** The bullets *)

Lemma splitStr_LF_free (raw : jsstring) :
  Forall (fun seg => ~ In 10%N seg) (splitStr raw LF).
Proof. unfold splitStr, LF. apply splitAt_unit_free. intros []. Qed.

Lemma stripLead_In (l : jsstring) (c : N) : In c (stripLead l) -> In c l.
Proof.
  destruct l as [|x t]; [intros []|]. cbn [stripLead].
  destruct (_ && _); [|exact (fun H => H)].
  intros H. right. now apply dropWhile_In in H.
Qed.

Lemma parseBullets_bullet (raw b : jsstring) :
  In b (parseBullets raw) -> 10 < jslen b /\ trim b = b /\ ~ In 10%N b.
Proof.
  unfold parseBullets. intros Hb.
  apply filter_In in Hb as [Hb Hlen].
  apply in_map_iff in Hb as (l & <- & Hl).
  split; [lia|]. split; [apply trim_idem|].
  intros H. apply trim_In in H. rewrite replaceFirst_lead in H. apply stripLead_In in H.
  pose proof (splitStr_LF_free raw) as F. rewrite Forall_forall in F.
  apply (F l); [now apply list_elem_of_In|exact H].
Qed.

(** X8.  Every bullet read from an answer of the model has more than ten
    code units, has no white space at either end, and holds no line feed. *)
Theorem parseBullets_shape (raw : jsstring) :
  Forall (fun b => 10 < jslen b /\ trim b = b /\ ~ In 10%N b) (parseBullets raw).
Proof.
  apply Forall_forall. intros b Hb. apply list_elem_of_In in Hb.
  now apply (parseBullets_bullet raw).
Qed.

(** X9.  In the docx exporter every bullet moreover starts with a code
    unit that is no list marker: no white space, hyphen, bullet sign, star,
    digit, full stop or closing bracket. *)
Theorem parseBulletsDocx_shape (raw : jsstring) :
  Forall (fun b => 10 < jslen b /\ trim b = b /\ ~ In 10%N b
                   /\ exists c t, b = c :: t /\ isBulletMarker c = false)
         (parseBulletsDocx raw).
Proof.
  unfold parseBulletsDocx. apply Forall_forall. intros b Hb.
  apply list_elem_of_In, filter_In in Hb as [Hb Hlen].
  apply in_map_iff in Hb as (l & <- & Hl).
  rewrite replaceFirst_lead_docx in *.
  split; [lia|]. split; [apply trim_idem|]. split.
  - intros H. apply trim_In, dropWhile_In in H.
    pose proof (splitStr_LF_free raw) as F. rewrite Forall_forall in F.
    apply (F l); [now apply list_elem_of_In|exact H].
  - pose proof (dropWhile_head isBulletMarker l) as Hd.
    destruct (dropWhile isBulletMarker l) as [|c t] eqn:E.
    + cbn in Hlen. discriminate.
    + assert (Hw : isWhite c = false).
      { destruct (isWhite c) eqn:W; [|reflexivity].
        unfold isBulletMarker, inClass, bulletMarker in Hd.
        cbn [existsb inItem xorb] in Hd. rewrite W in Hd. discriminate. }
      unfold trim. cbn [trimStart]. rewrite Hw.
      destruct (trimEnd_head c t Hw) as [t' ->]. now exists c, t'.
Qed.

(** X10.  In the template exporter the leading pattern needs a closing
    bracket: the bullets of an answer without closing bracket are its lines
    with the white space at both ends removed, list numbers, hyphens and
    bullet signs included. *)
Theorem parseBullets_keeps_markers (raw : jsstring) :
  ~ In 93%N raw ->
  parseBullets raw = List.filter (fun l => 10 <? jslen l) (map trim (splitStr raw LF)).
Proof.
  intros Hraw. unfold parseBullets. f_equal. apply map_ext_in. intros l Hl.
  rewrite replaceFirst_lead. f_equal.
  assert (Hno : ~ In 93%N l).
  { intros H. apply Hraw.
    rewrite <- (app_nil_l raw), <- (splitAt_unit_join 10 raw []).
    fold LF. change (splitAt LF 0 [] raw) with (splitStr raw LF).
    clear -H Hl. induction (splitStr raw LF) as [|a rest IH]; [destruct Hl|].
    destruct Hl as [->|Hl].
    - destruct rest; cbn [join]; [exact H|]. apply in_or_app. now left.
    - specialize (IH Hl). destruct rest as [|r rest']; [destruct Hl|].
      cbn [join] in *. apply in_or_app. right. apply in_or_app. now right. }
  destruct l as [|c t]; [reflexivity|]. cbn [stripLead].
  destruct t as [|x t]; [now rewrite andb_false_r|].
  cbn [spanLen]. destruct (N.eqb_spec 93 x) as [<-|_].
  - exfalso. apply Hno. right. now left.
  - now rewrite andb_false_r.
Qed.

Lemma parseBullets_keeps_markers_witness :
  parseBullets (u16 "1. First finding of the list" ++ LF ++ u16 "- Second finding")
  = [u16 "1. First finding of the list"; u16 "- Second finding"].
Proof.
  refine (eq_trans (parseBullets_keeps_markers _ _) _).
  - vm_compute. intuition discriminate.
  - vm_compute. reflexivity.
Defined.

(** X11.  The bullets of a text are those of its lines, in the order of
    the lines: reading two answers joined by a line feed gives the bullets
    of the first followed by those of the second. *)
Theorem parseBullets_lines (a b : jsstring) :
  parseBullets (a ++ LF ++ b) = parseBullets a ++ parseBullets b
  /\ parseBulletsDocx (a ++ LF ++ b) = parseBulletsDocx a ++ parseBulletsDocx b.
Proof.
  unfold parseBullets, parseBulletsDocx, splitStr, LF. cbn [app].
  rewrite splitAt_unit_app, !map_app, !List.filter_app. split; reflexivity.
Qed.

(** ** Duplicate bullets *)

Section Dedup.
Variable key : jsstring -> jsstring.

Lemma seen_In (seen : list jsstring) (k : jsstring) :
  existsb (fun k' => str_eqb k' k) seen = true <-> In k seen.
Proof.
  rewrite existsb_exists. split.
  - intros (x & Hx & E). unfold str_eqb in E. apply bool_decide_eq_true in E. now subst.
  - intros H. exists k. split; [exact H|]. unfold str_eqb. now apply bool_decide_eq_true.
Qed.

Lemma dedupStep_old (seen out : list jsstring) (b : jsstring) :
  In (key b) seen -> dedupStep key (seen, out) b = (seen, out).
Proof.
  intros H. unfold dedupStep. cbn [fst snd].
  apply seen_In in H. now rewrite H.
Qed.

Lemma dedupStep_new (seen out : list jsstring) (b : jsstring) :
  ~ In (key b) seen -> dedupStep key (seen, out) b = (seen ++ [key b], out ++ [b]).
Proof.
  intros H. unfold dedupStep. cbn [fst snd].
  destruct (existsb (fun k' => str_eqb k' (key b)) seen) eqn:E; [|reflexivity].
  apply seen_In in E. contradiction.
Qed.

Lemma dedupLoop_cons (b : jsstring) (bs : list jsstring)
    (st : list jsstring * list jsstring) :
  dedupLoop key (b :: bs) st = dedupLoop key bs (dedupStep key st b).
Proof. reflexivity. Qed.

(** The loop keeps [seen] the keys of [out], without repetition, appends
    to [out] a sublist of the bullets, and ends with the key of every
    bullet seen. *)
Lemma dedupLoop_spec (bs : list jsstring) :
  forall seen out, seen = map key out -> NoDup seen ->
  exists ext,
    dedupLoop key bs (seen, out) = (map key (out ++ ext), out ++ ext)
    /\ NoDup (map key (out ++ ext))
    /\ sublist ext bs
    /\ (forall b, In b bs -> In (key b) (map key (out ++ ext)))
    /\ (forall b, In b ext -> ~ In (key b) seen)
    /\ (forall pre b post, bs = pre ++ b :: post -> ~ In (key b) seen ->
          (forall p, In p pre -> key p <> key b) -> In b ext).
Proof.
  induction bs as [|b bs IH]; intros seen out Hs Hnd.
  - exists []. rewrite app_nil_r. subst seen. cbn [dedupLoop fold_left].
    repeat split; try assumption; try constructor.
    + intros b [].
    + intros b [].
    + intros pre b post E. destruct pre; discriminate E.
  - rewrite dedupLoop_cons.
    assert (Hdec : In (key b) seen \/ ~ In (key b) seen).
    { destruct (existsb (fun k' => str_eqb k' (key b)) seen) eqn:Ex.
      - left. now apply seen_In.
      - right. intros H. apply seen_In in H. congruence. }
    destruct Hdec as [Hin|Hnin].
    + rewrite (dedupStep_old _ _ _ Hin).
      destruct (IH seen out Hs Hnd) as (ext & E & ND & Sub & Cov & Fresh & First).
      exists ext. split; [exact E|]. split; [exact ND|].
      split; [now apply sublist_cons|]. split; [|split; [exact Fresh|]].
      * intros b' [<-|Hb']; [|now apply Cov].
        rewrite map_app. apply in_or_app. left. now rewrite <- Hs.
      * intros pre b' post Eq Hn Hpre. destruct pre as [|p pre].
        -- cbn [app] in Eq. injection Eq as -> _. contradiction.
        -- cbn [app] in Eq. injection Eq as -> Eq.
           apply (First pre b' post Eq Hn). intros q Hq. apply Hpre. now right.
    + rewrite (dedupStep_new _ _ _ Hnin).
      assert (Hs' : seen ++ [key b] = map key (out ++ [b])).
      { rewrite map_app, Hs. reflexivity. }
      assert (Hnd' : NoDup (seen ++ [key b])).
      { apply NoDup_app. split; [exact Hnd|]. split.
        - intros x Hx Hx'. apply list_elem_of_In in Hx, Hx'.
          destruct Hx' as [<-|[]]. contradiction.
        - apply NoDup_singleton. }
      destruct (IH _ _ Hs' Hnd') as (ext & E & ND & Sub & Cov & Fresh & First).
      exists (b :: ext).
      replace (out ++ b :: ext) with ((out ++ [b]) ++ ext) by now rewrite <- app_assoc.
      split; [exact E|]. split; [exact ND|].
      split; [now apply sublist_skip|]. split; [|split].
      * intros b' [<-|Hb']; [|now apply Cov].
        rewrite !map_app. apply in_or_app. left. apply in_or_app. right. now left.
      * intros b' [<-|Hb']; [exact Hnin|].
        intros Hin. apply (Fresh b' Hb'). apply in_or_app. now left.
      * intros pre b' post Eq Hn Hpre. destruct pre as [|p pre].
        -- cbn [app] in Eq. injection Eq as -> _. now left.
        -- cbn [app] in Eq. injection Eq as -> Eq. right.
           apply (First pre b' post Eq).
           ++ intros Hin. apply in_app_or in Hin as [Hin|[Hin|[]]]; [contradiction|].
              apply (Hpre p); [now left|exact Hin].
           ++ intros q Hq. apply Hpre. now right.
Qed.

(** Bullets whose keys are new and pairwise distinct are all kept. *)
Lemma dedupLoop_distinct (bs : list jsstring) :
  forall seen out, NoDup (map key bs) -> (forall b, In b bs -> ~ In (key b) seen) ->
  dedupLoop key bs (seen, out) = (seen ++ map key bs, out ++ bs).
Proof.
  induction bs as [|b bs IH]; intros seen out Hnd Hfresh.
  - cbn. now rewrite !app_nil_r.
  - rewrite dedupLoop_cons.
    rewrite dedupStep_new by (apply Hfresh; now left).
    cbn [map] in Hnd. apply NoDup_cons in Hnd as [Hb Hnd].
    rewrite IH.
    + cbn [map]. now rewrite <- !app_assoc.
    + exact Hnd.
    + intros b' Hb' Hin. apply in_app_or in Hin as [Hin|[Hin|[]]].
      * apply (Hfresh b'); [now right|exact Hin].
      * apply Hb. rewrite Hin. apply list_elem_of_In. now apply in_map.
Qed.

Lemma dedup_one_per_key (bs : list jsstring) :
  let out := snd (dedupLoop key bs ([], [])) in
  sublist out bs
  /\ NoDup (map key out)
  /\ (forall b, In b bs -> exists b', In b' out /\ key b' = key b).
Proof.
  destruct (dedupLoop_spec bs [] [] eq_refl (NoDup_nil_2 (A:=jsstring)))
    as (ext & E & ND & Sub & Cov & _ & _).
  cbn [app] in *. rewrite E. cbn [snd].
  split; [exact Sub|]. split; [exact ND|].
  intros b Hb. apply Cov, in_map_iff in Hb as (b' & Hk & Hb'). now exists b'.
Qed.

Lemma dedup_keeps_first (pre post : list jsstring) (b : jsstring) :
  (forall p, In p pre -> key p <> key b) ->
  In b (snd (dedupLoop key (pre ++ b :: post) ([], []))).
Proof.
  intros Hpre.
  destruct (dedupLoop_spec (pre ++ b :: post) [] [] eq_refl (NoDup_nil_2 (A:=jsstring)))
    as (ext & E & _ & _ & _ & _ & First).
  cbn [app] in *. rewrite E. cbn [snd].
  apply (First pre b post eq_refl); [intros []|exact Hpre].
Qed.

Lemma dedup_distinct (bs : list jsstring) :
  NoDup (map key bs) -> snd (dedupLoop key bs ([], [])) = bs.
Proof.
  intros H. rewrite dedupLoop_distinct; [reflexivity|exact H|].
  intros b _ [].
Qed.

Lemma dedup_idempotent (bs : list jsstring) :
  snd (dedupLoop key (snd (dedupLoop key bs ([], []))) ([], []))
  = snd (dedupLoop key bs ([], [])).
Proof. apply dedup_distinct. apply (dedup_one_per_key bs). Qed.

End Dedup.

(** X12.  Removing duplicates keeps the bullets in their order, keeps no
    two bullets with the same key, and keeps a bullet for every key of the
    input; this holds with the key of either exporter. *)
Theorem deduplicateBullets_one_per_key (h : Host) (bullets : list jsstring) :
  (sublist (deduplicateBullets h bullets) bullets
   /\ NoDup (map (bulletKey h) (deduplicateBullets h bullets))
   /\ (forall b, In b bullets ->
         exists b', In b' (deduplicateBullets h bullets) /\ bulletKey h b' = bulletKey h b))
  /\ (sublist (deduplicateBulletsDocx h bullets) bullets
      /\ NoDup (map (bulletKeyDocx h) (deduplicateBulletsDocx h bullets))
      /\ (forall b, In b bullets ->
            exists b', In b' (deduplicateBulletsDocx h bullets)
                       /\ bulletKeyDocx h b' = bulletKeyDocx h b)).
Proof.
  split.
  - apply (dedup_one_per_key (bulletKey h) bullets).
  - apply (dedup_one_per_key (bulletKeyDocx h) bullets).
Qed.

(** X13.  The bullet kept for a key is the first one: a bullet that no
    earlier bullet shares its key with is in the result. *)
Theorem deduplicateBullets_keeps_first (h : Host) (pre post : list jsstring) (b : jsstring) :
  (forall p, In p pre -> bulletKey h p <> bulletKey h b) ->
  In b (deduplicateBullets h (pre ++ b :: post)).
Proof. apply (dedup_keeps_first (bulletKey h)). Qed.

Lemma deduplicateBullets_keeps_first_witness :
  In (u16 "Token renewal is now automatic")
     (deduplicateBullets testHost
        [u16 "Legacy login removed"; u16 "Token renewal is now automatic";
         u16 "token renewal is now automatic"]).
Proof.
  apply (deduplicateBullets_keeps_first testHost [u16 "Legacy login removed"]
           [u16 "token renewal is now automatic"] (u16 "Token renewal is now automatic")).
  intros p [<-|[]]. vm_compute. discriminate.
Defined.

(** X14.  Removing duplicates a second time changes nothing, and a list
    whose keys are pairwise distinct is returned as it is. *)
Theorem deduplicateBullets_idempotent (h : Host) (bullets : list jsstring) :
  deduplicateBullets h (deduplicateBullets h bullets) = deduplicateBullets h bullets
  /\ (NoDup (map (bulletKey h) bullets) -> deduplicateBullets h bullets = bullets).
Proof.
  split.
  - apply (dedup_idempotent (bulletKey h)).
  - apply (dedup_distinct (bulletKey h)).
Qed.

(** ** The selection of scopes *)

Lemma str_eqb_eq (a b : jsstring) : str_eqb a b = true <-> a = b.
Proof. unfold str_eqb. apply bool_decide_eq_true. Qed.

Lemma str_eqb_neq (a b : jsstring) : str_eqb a b = false <-> a <> b.
Proof. unfold str_eqb. apply bool_decide_eq_false. Qed.

Lemma setHas_In (s : jsset) (id : jsstring) : setHas s id = true <-> In id s.
Proof.
  unfold setHas. rewrite existsb_exists. split.
  - intros (k & Hk & E). apply str_eqb_eq in E. now subst.
  - intros H. exists id. split; [exact H|]. now apply str_eqb_eq.
Qed.

Lemma setHas_not_In (s : jsset) (id : jsstring) : setHas s id = false <-> ~ In id s.
Proof.
  rewrite <- setHas_In. destruct (setHas s id); split; intros H; congruence.
Qed.

Lemma setDelete_In (s : jsset) (id j : jsstring) :
  In j (setDelete s id) <-> In j s /\ j <> id.
Proof.
  unfold setDelete. rewrite filter_In, negb_true_iff, str_eqb_neq. reflexivity.
Qed.

Lemma setDelete_absent (s : jsset) (id : jsstring) : ~ In id s -> setDelete s id = s.
Proof.
  intros H. unfold setDelete. induction s as [|k s IH]; [reflexivity|].
  cbn [List.filter]. destruct (str_eqb k id) eqn:E.
  - apply str_eqb_eq in E. subst k. exfalso. apply H. now left.
  - cbn [negb]. f_equal. apply IH. intros Hin. apply H. now right.
Qed.

Lemma setDelete_app (s t : jsset) (id : jsstring) :
  setDelete (s ++ t) id = setDelete s id ++ setDelete t id.
Proof. unfold setDelete. apply List.filter_app. Qed.

Lemma setDelete_NoDup (s : jsset) (id : jsstring) : NoDup s -> NoDup (setDelete s id).
Proof.
  intros H. induction H as [|k s Hk Hs IH]; [constructor|].
  unfold setDelete in *. cbn [List.filter].
  destruct (negb (str_eqb k id)); [|exact IH].
  constructor; [|exact IH].
  intros Hin. apply Hk. apply list_elem_of_In in Hin. apply list_elem_of_In.
  now apply filter_In in Hin as [Hin _].
Qed.

(** X15.  Toggling a scope changes the membership of that scope only,
    keeps the other scopes in their order, and keeps the selection free of
    repetitions. *)
Theorem toggleScope_selection (id : jsstring) (prev : jsset) :
  NoDup prev ->
  NoDup (toggleScope id prev)
  /\ setHas (toggleScope id prev) id = negb (setHas prev id)
  /\ (forall j, j <> id -> setHas (toggleScope id prev) j = setHas prev j)
  /\ setDelete (toggleScope id prev) id = setDelete prev id.
Proof.
  intros Hnd. unfold toggleScope, setAdd.
  destruct (setHas prev id) eqn:E; cbn [negb].
  - split; [now apply setDelete_NoDup|]. split; [|split].
    + apply setHas_not_In. intros H. apply setDelete_In in H as [_ H]. now apply H.
    + intros j Hj. destruct (setHas prev j) eqn:Ej.
      * apply setHas_In. apply setDelete_In. split; [now apply setHas_In|exact Hj].
      * apply setHas_not_In. intros H. apply setDelete_In in H as [H _].
        apply setHas_In in H. congruence.
    + apply setDelete_absent. intros H. apply setDelete_In in H as [_ H]. now apply H.
  - pose proof (proj1 (setHas_not_In _ _) E) as Hnot.
    split; [|split; [|split]].
    + apply NoDup_app. split; [exact Hnd|]. split; [|apply NoDup_singleton].
      intros x Hx Hx'. apply list_elem_of_In in Hx, Hx'. destruct Hx' as [<-|[]].
      contradiction.
    + apply setHas_In. apply in_or_app. right. now left.
    + intros j Hj. destruct (setHas prev j) eqn:Ej.
      * apply setHas_In. apply in_or_app. left. now apply setHas_In.
      * apply setHas_not_In. intros H. apply in_app_or in H as [H|[H|[]]].
        -- apply setHas_In in H. congruence.
        -- now apply Hj.
    + rewrite setDelete_app. unfold setDelete at 2. cbn [List.filter].
      rewrite (proj2 (str_eqb_eq id id) eq_refl). cbn [negb]. apply app_nil_r.
Qed.

Lemma toggleScope_selection_witness :
  setHas (toggleScope (u16 "security") INITIAL_SCOPES) (u16 "security") = true.
Proof.
  refine (eq_trans
            (proj1 (proj2 (toggleScope_selection (u16 "security") INITIAL_SCOPES _))) _).
  - vm_compute. repeat constructor; rewrite ?list_elem_of_In; cbn; intuition discriminate.
  - vm_compute. reflexivity.
Defined.

(** X16.  Toggling a scope twice gives back a selection that did not hold
    it; a scope that was selected moves to the end of the selection, so the
    selection, and with it the order of the sections of a report, is
    restored only when the scope was the last one. *)
Theorem toggleScope_twice (id : jsstring) (prev : jsset) :
  toggleScope id (toggleScope id prev)
  = (if setHas prev id then setDelete prev id ++ [id] else prev)
  /\ (NoDup prev ->
      (toggleScope id (toggleScope id prev) = prev
       <-> setHas prev id = false \/ last prev = Some id)).
Proof.
  assert (Heq : toggleScope id (toggleScope id prev)
                = (if setHas prev id then setDelete prev id ++ [id] else prev)).
  { unfold toggleScope at 2. unfold setAdd. destruct (setHas prev id) eqn:E.
    - unfold toggleScope, setAdd.
      assert (Hn : setHas (setDelete prev id) id = false).
      { apply setHas_not_In. intros H. apply setDelete_In in H as [_ H]. now apply H. }
      now rewrite Hn.
    - unfold toggleScope.
      assert (Hy : setHas (prev ++ [id]) id = true).
      { apply setHas_In. apply in_or_app. right. now left. }
      rewrite Hy, setDelete_app, setDelete_absent by now apply setHas_not_In.
      unfold setDelete. cbn [List.filter].
      rewrite (proj2 (str_eqb_eq id id) eq_refl). cbn [negb]. apply app_nil_r. }
  split; [exact Heq|]. intros Hnd. rewrite Heq.
  destruct (setHas prev id) eqn:E.
  - split.
    + intros H. right. rewrite <- H. apply last_snoc.
    + intros [H|H]; [discriminate|].
      apply last_Some in H as [p ->].
      apply NoDup_app in Hnd as (_ & Hdis & _).
      rewrite setDelete_app, setDelete_absent.
      * unfold setDelete. cbn [List.filter].
        rewrite (proj2 (str_eqb_eq id id) eq_refl). cbn [negb app].
        now rewrite <- app_assoc.
      * intros Hin. apply (Hdis id); apply list_elem_of_In; [exact Hin|now left].
  - split; [now left|reflexivity].
Qed.

Lemma toggleScope_twice_witness :
  toggleScope (u16 "deprecated") (toggleScope (u16 "deprecated") INITIAL_SCOPES)
  = [u16 "new_features"; u16 "deployment_changes"; u16 "deprecated"].
Proof.
  refine (eq_trans (proj1 (toggleScope_twice (u16 "deprecated") INITIAL_SCOPES)) _).
  vm_compute. reflexivity.
Defined.

(** ** The scopes of a report *)

Lemma find_entry (id : jsstring) :
  match List.find (fun s => str_eqb (entry_id s) id) ANALYSIS_SCOPES with
  | Some s => entry_id s = id /\ In s ANALYSIS_SCOPES /\ isBuiltIn id = true
  | None => isBuiltIn id = false
  end.
Proof.
  destruct (List.find (fun s => str_eqb (entry_id s) id) ANALYSIS_SCOPES) as [s|] eqn:E.
  - apply find_some in E as [Hin E]. apply str_eqb_eq in E.
    split; [exact E|]. split; [exact Hin|].
    apply setHas_In. rewrite <- E. now apply in_map.
  - apply setHas_not_In. intros H. apply in_map_iff in H as (s & Hs & Hin).
    pose proof (find_none _ _ E s Hin) as Hn. cbn beta in Hn.
    apply str_eqb_neq in Hn. contradiction.
Qed.

Lemma builtIn_not_custom (id : jsstring) :
  isBuiltIn id = true -> startsWith id (u16 "custom_") = false.
Proof.
  intros H. apply setHas_In in H.
  repeat (destruct H as [<-|H]; [vm_compute; reflexivity|]). destruct H.
Qed.

Lemma scopeList_ids (selectedScopes : jsset) (customScopes : list ScopeEntry) :
  map entry_id (scopeList selectedScopes customScopes)
  = List.filter isBuiltIn selectedScopes ++ map entry_id customScopes.
Proof.
  unfold scopeList. rewrite map_app. f_equal.
  induction selectedScopes as [|id s IH]; [reflexivity|].
  cbn [omap list_omap List.filter]. pose proof (find_entry id) as F.
  destruct (List.find (fun s => str_eqb (entry_id s) id) ANALYSIS_SCOPES) as [e|].
  - destruct F as (E & _ & ->). cbn [map]. rewrite E. f_equal. exact IH.
  - rewrite F. exact IH.
Qed.

(** X17.  The scopes of a report are the selected scopes of the
    catalogue, in the order in which they were selected, followed by the
    custom scopes; every one of the former is the entry of the catalogue
    with that id, and a selected id that the catalogue does not know gives
    no scope. *)
Theorem scopeList_order (selectedScopes : jsset) (customScopes : list ScopeEntry) :
  map entry_id (scopeList selectedScopes customScopes)
  = List.filter isBuiltIn selectedScopes ++ map entry_id customScopes
  /\ scopeList selectedScopes customScopes
     = scopeList selectedScopes [] ++ customScopes
  /\ Forall (fun s => In s ANALYSIS_SCOPES) (scopeList selectedScopes []).
Proof.
  split; [apply scopeList_ids|]. split.
  - unfold scopeList. now rewrite app_nil_r.
  - unfold scopeList. rewrite app_nil_r. apply Forall_forall. intros e He.
    apply list_elem_of_omap in He as (id & _ & Hf).
    pose proof (find_entry id) as F. rewrite Hf in F. apply F.
Qed.

(** X18.  No two scopes of a report share an id, provided the selection
    is a set, the custom scopes have distinct ids, and these ids start with
    custom_, as the ids that addCustomScope makes do. *)
Theorem scopeList_distinct_ids (selectedScopes : jsset) (customScopes : list ScopeEntry) :
  NoDup selectedScopes ->
  NoDup (map entry_id customScopes) ->
  Forall (fun s => startsWith (entry_id s) (u16 "custom_") = true) customScopes ->
  NoDup (map entry_id (scopeList selectedScopes customScopes)).
Proof.
  intros Hs Hc Hpre. rewrite scopeList_ids. apply NoDup_app. split; [|split].
  - clear -Hs. induction Hs as [|k s Hk Hs IH]; [constructor|].
    cbn [List.filter]. destruct (isBuiltIn k); [|exact IH].
    constructor; [|exact IH]. intros Hin. apply Hk.
    apply list_elem_of_In in Hin. apply list_elem_of_In.
    now apply filter_In in Hin as [Hin _].
  - intros id H1 H2. apply list_elem_of_In in H1, H2.
    apply filter_In in H1 as [_ Hb]. apply builtIn_not_custom in Hb.
    apply in_map_iff in H2 as (e & <- & He).
    rewrite Forall_forall in Hpre. specialize (Hpre e (proj2 (list_elem_of_In _ _) He)).
    cbn beta in Hpre. congruence.
  - exact Hc.
Qed.

Lemma scopeList_distinct_ids_witness :
  NoDup (map entry_id
           (scopeList INITIAL_SCOPES
              (addCustomScope 1700000000000 (u16 " Licensing ") [] []))).
Proof.
  apply scopeList_distinct_ids.
  - vm_compute. repeat constructor; rewrite ?list_elem_of_In; cbn; intuition discriminate.
  - vm_compute. repeat constructor. rewrite list_elem_of_In. cbn. intuition.
  - vm_compute. repeat constructor.
Defined.

(** ** Custom scopes *)

(** X19.  A blank label adds nothing; any other label adds one scope at
    the end, with the label trimmed and an id that starts with custom_; and
    removing the scope just added gives the list back when no scope of the
    list already had that id. *)
Theorem addCustomScope_then_remove (now : N) (customInputVal : jsstring)
    (customScopes prev : list ScopeEntry) :
  (trim customInputVal = [] -> addCustomScope now customInputVal customScopes prev = prev)
  /\ (trim customInputVal <> [] ->
      exists e, addCustomScope now customInputVal customScopes prev = prev ++ [e]
                /\ entry_id e = u16 "custom_" ++ numText now
                /\ entry_label e = trim customInputVal
                /\ startsWith (entry_id e) (u16 "custom_") = true
                /\ In (entry_color e) CUSTOM_COLORS /\ In (entry_icon e) CUSTOM_ICONS)
  /\ (Forall (fun s => entry_id s <> u16 "custom_" ++ numText now) prev ->
      removeCustomScope (u16 "custom_" ++ numText now)
        (addCustomScope now customInputVal customScopes prev) = prev).
Proof.
  assert (Hkeep : Forall (fun s => entry_id s <> u16 "custom_" ++ numText now) prev ->
                  removeCustomScope (u16 "custom_" ++ numText now) prev = prev).
  { intros H. unfold removeCustomScope. induction H as [|s l Hs Hl IH]; [reflexivity|].
    cbn [List.filter]. rewrite (proj2 (str_eqb_neq _ _) Hs). cbn [negb]. now rewrite IH. }
  unfold addCustomScope. destruct (trim customInputVal) as [|c t] eqn:E.
  - split; [reflexivity|]. split; [congruence|exact Hkeep].
  - split; [discriminate|]. split.
    + intros _. eexists. split; [reflexivity|]. cbn [entry_id entry_label entry_color entry_icon].
      split; [reflexivity|]. split; [reflexivity|]. split; [apply isPrefix_app|].
      assert (Hidx : (length customScopes mod length CUSTOM_COLORS < 8)%nat).
      { change (length CUSTOM_COLORS) with 8%nat. apply Nat.mod_upper_bound. lia. }
      set (idx := (length customScopes mod length CUSTOM_COLORS)%nat) in *.
      split.
      * destruct (CUSTOM_COLORS !! idx) as [col|] eqn:L.
        -- cbn [default]. apply list_elem_of_In. eapply list_elem_of_lookup_2. exact L.
        -- apply lookup_ge_None in L. change (length CUSTOM_COLORS) with 8%nat in L. lia.
      * destruct (CUSTOM_ICONS !! idx) as [ic|] eqn:L.
        -- cbn [default]. apply list_elem_of_In. eapply list_elem_of_lookup_2. exact L.
        -- apply lookup_ge_None in L. change (length CUSTOM_ICONS) with 8%nat in L. lia.
    + intros H. unfold removeCustomScope. rewrite List.filter_app.
      fold (removeCustomScope (u16 "custom_" ++ numText now) prev). rewrite (Hkeep H).
      cbn [List.filter entry_id].
      rewrite (proj2 (str_eqb_eq _ _) eq_refl). cbn [negb]. apply app_nil_r.
Qed.

Lemma addCustomScope_then_remove_witness :
  removeCustomScope (u16 "custom_" ++ numText 1700000000000)
    (addCustomScope 1700000000000 (u16 " Licensing ") [] []) = [].
Proof.
  apply (addCustomScope_then_remove 1700000000000 (u16 " Licensing ") [] []).
  constructor.
Defined.

(** ** The loop of the analysis *)

Lemma initMap_fold (ordered : list jsstring) :
  forall (mp : gmap jsstring (list jsstring)) (id : jsstring),
    fold_left (fun mp id => <[id := []]> mp) ordered mp !! id
    = if setHas ordered id then Some [] else mp !! id.
Proof.
  induction ordered as [|k l IH]; intros mp id; [reflexivity|].
  cbn [fold_left]. rewrite IH. unfold setHas. cbn [existsb].
  fold (setHas l id). destruct (setHas l id); [now rewrite orb_true_r|].
  rewrite orb_false_r. destruct (str_eqb k id) eqn:E.
  - apply str_eqb_eq in E. subst k. apply lookup_insert_eq.
  - apply str_eqb_neq in E. now apply lookup_insert_ne.
Qed.

Lemma initMap_lookup (ordered : list jsstring) (id : jsstring) :
  initMap ordered !! id = if setHas ordered id then Some [] else None.
Proof. unfold initMap. now rewrite initMap_fold, lookup_empty. Qed.

Lemma In_dec_set (l : jsset) (id : jsstring) : In id l \/ ~ In id l.
Proof.
  destruct (setHas l id) eqn:E; [left; now apply setHas_In|right; now apply setHas_not_In].
Qed.

Lemma analyseLoop_spec (ask : jsstring -> jsstring -> option jsstring) (text : jsstring)
    (l : list jsstring) :
  forall (rm : gmap jsstring (list jsstring)) (total : Z),
    (forall id, ~ In id l -> resultMap (analyseLoop ask text l rm total) !! id = rm !! id)
    /\ (forall id, In id l ->
          resultMap (analyseLoop ask text l rm total) !! id = rm !! id
          \/ (resultMap (analyseLoop ask text l rm total) !! id = callClaude ask id text
              /\ is_Some (callClaude ask id text)))
    /\ (failed (analyseLoop ask text l rm total) = false
        <-> forall id, In id l -> is_Some (callClaude ask id text))
    /\ (failed (analyseLoop ask text l rm total) = false ->
        forall id, In id l ->
          resultMap (analyseLoop ask text l rm total) !! id = callClaude ask id text)
    /\ (failed (analyseLoop ask text l rm total) = false ->
        totalFindings (analyseLoop ask text l rm total)
        = total + Z.of_nat (length (flat_map (fun id => default [] (callClaude ask id text)) l))).
Proof.
  induction l as [|id0 rest IH]; intros rm total.
  - cbn [analyseLoop resultMap failed totalFindings flat_map length].
    split; [intros; reflexivity|]. split; [intros id []|].
    split; [split; [intros _ id []|intros; reflexivity]|].
    split; [intros _ id []|]. intros _. lia.
  - cbn [analyseLoop]. destruct (callClaude ask id0 text) as [bs|] eqn:C.
    + destruct (IH (<[id0 := bs]> rm) (total + Z.of_nat (length bs)))
        as (I1 & I2 & I3 & I4 & I5).
      split; [|split; [|split; [|split]]].
      * intros id Hn. rewrite I1 by (intros H; apply Hn; now right).
        apply lookup_insert_ne. intros ->. apply Hn. now left.
      * intros id Hin.
        assert (Hcase : In id rest \/ (~ In id rest /\ id = id0)).
        { destruct (In_dec_set rest id) as [H|H]; [now left|].
          right. split; [exact H|]. destruct Hin as [<-|Hin]; [reflexivity|contradiction]. }
        destruct Hcase as [Hr|[Hr ->]].
        -- destruct (I2 id Hr) as [E|E]; [|now right].
           destruct (decide (id = id0)) as [->|Hne].
           ++ right. rewrite E, lookup_insert_eq, C. split; [reflexivity|now eexists].
           ++ left. rewrite E. now apply lookup_insert_ne.
        -- right. rewrite (I1 id0 Hr), lookup_insert_eq, C. split; [reflexivity|now eexists].
      * rewrite I3. split.
        -- intros H id [<-|Hin]; [rewrite C; now eexists|now apply H].
        -- intros H id Hin. apply H. now right.
      * intros Hf id Hin.
        destruct (In_dec_set rest id) as [Hr|Hr]; [now apply I4|].
        destruct Hin as [<-|Hin]; [|contradiction].
        now rewrite (I1 id0 Hr), lookup_insert_eq, C.
      * intros Hf. rewrite (I5 Hf). cbn [flat_map]. rewrite C. cbn [default].
        rewrite length_app. change (id bs) with bs. lia.
    + cbn [resultMap failed totalFindings].
      split; [reflexivity|]. split; [now left|]. split; [|split; discriminate].
      split; [discriminate|]. intros H. destruct (H id0 (or_introl eq_refl)) as [x Hx].
      congruence.
Qed.

(** X20.  The analysis writes an entry for the selected scopes and for no
    other id, whether or not a call fails.  It ends without failure exactly
    when the model answers for every selected scope; the entry of each
    scope is then the list of bullets read from its answer to the text
    within the budget, and the total is the number of these bullets.  Every
    finding of the result map has more than ten code units, no white space
    at either end and no line feed. *)
Theorem analyseScopes_results (askModel : jsstring -> jsstring -> option jsstring)
    (fullText : jsstring) (selectedScopes : jsset) :
  let a := analyseScopes askModel fullText selectedScopes in
  (forall id, is_Some (resultMap a !! id) <-> In id selectedScopes)
  /\ (failed a = false
      <-> forall id, In id selectedScopes ->
            is_Some (askModel id (prepareDocText fullText)))
  /\ (failed a = false ->
      (forall id, In id selectedScopes ->
         resultMap a !! id = parseBullets <$> askModel id (prepareDocText fullText))
      /\ totalFindings a
         = Z.of_nat (length (flat_map (fun id => default [] (resultMap a !! id))
                                      selectedScopes)))
  /\ (forall id bs b, resultMap a !! id = Some bs -> In b bs ->
        10 < jslen b /\ trim b = b /\ ~ In 10%N b).
Proof.
  intros a. subst a. unfold analyseScopes.
  destruct (analyseLoop_spec askModel fullText selectedScopes (initMap selectedScopes) 0)
    as (I1 & I2 & I3 & I4 & I5).
  set (a := analyseLoop askModel fullText selectedScopes (initMap selectedScopes) 0) in *.
  assert (Hsome : forall id, is_Some (callClaude askModel id fullText)
                             <-> is_Some (askModel id (prepareDocText fullText))).
  { intros id. unfold callClaude. apply fmap_is_Some. }
  split; [|split; [|split]].
  - intros id. destruct (In_dec_set selectedScopes id) as [Hin|Hn].
    + split; [intros _; exact Hin|]. intros _.
      destruct (I2 id Hin) as [E|[E S]].
      * rewrite E, initMap_lookup, (proj2 (setHas_In _ _) Hin). now eexists.
      * now rewrite E.
    + split; [|intros; contradiction]. intros [x Hx].
      rewrite (I1 id Hn), initMap_lookup, (proj2 (setHas_not_In _ _) Hn) in Hx.
      discriminate.
  - rewrite I3. split; intros H id Hin; apply Hsome; now apply H.
  - intros Hf. split; [intros id Hin; now apply I4|].
    rewrite (I5 Hf), Z.add_0_l. do 2 f_equal.
    apply flat_map_ext_in. intros id Hin. now rewrite (I4 Hf id Hin).
  - intros id bs b Hbs Hb.
    destruct (In_dec_set selectedScopes id) as [Hin|Hn].
    + destruct (I2 id Hin) as [E|[E _]].
      * rewrite E, initMap_lookup, (proj2 (setHas_In _ _) Hin) in Hbs.
        injection Hbs as <-. destruct Hb.
      * rewrite E in Hbs. unfold callClaude in Hbs.
        destruct (askModel id (prepareDocText fullText)) as [raw|]; [|discriminate].
        cbn in Hbs. injection Hbs as <-. now apply (parseBullets_bullet raw).
    + rewrite (I1 id Hn), initMap_lookup, (proj2 (setHas_not_In _ _) Hn) in Hbs.
      discriminate.
Qed.

(** X21.  A custom scope is never analysed: the loop runs over the
    selected scopes of the catalogue only.  In the document exported after
    an analysis, the sections of the custom scopes so follow those of the
    selected scopes, each with the notice that nothing was identified. *)
Theorem custom_scopes_export_empty (h : Host)
    (askModel : jsstring -> jsstring -> option jsstring) (fullText : jsstring)
    (selectedScopes : jsset) (customScopes : list ScopeEntry) (st : StyleMap) :
  Forall (fun c => ~ In (entry_id c) selectedScopes) customScopes ->
  let a := analyseScopes askModel fullText selectedScopes in
  contentXml h (map exportScope (scopeList selectedScopes customScopes)) (resultMap a) st
  = contentXml h (map exportScope (scopeList selectedScopes [])) (resultMap a) st
      ++ concat (map (fun c => xmlH1 (entry_label c) st
                                 ++ xmlBody (noFindingsText h (exportScope c)) st
                                 ++ xmlSpacer st)
                     customScopes).
Proof.
  intros Hc a.
  destruct (analyseLoop_spec askModel fullText selectedScopes (initMap selectedScopes) 0)
    as (I1 & _).
  unfold contentXml. rewrite !join_nil_concat.
  unfold scopeList at 1. rewrite !map_app, concat_app. f_equal.
  - unfold scopeList. now rewrite app_nil_r.
  - f_equal. rewrite map_map. apply map_ext_in. intros c Hin.
    rewrite Forall_forall in Hc. specialize (Hc c (proj2 (list_elem_of_In _ _) Hin)).
    cbn beta in Hc. cbn [exportScope scope_id].
    subst a. unfold analyseScopes. rewrite (I1 _ Hc), initMap_lookup.
    rewrite (proj2 (setHas_not_In _ _) Hc). reflexivity.
Qed.

Lemma custom_scopes_export_empty_witness :
  contentXml testHost
    (map exportScope
       (scopeList [] (addCustomScope 1700000000000 (u16 "Licensing") [] [])))
    (resultMap (analyseScopes (fun _ _ => None) [] [])) DEFAULT_STYLES
  = xmlH1 (u16 "Licensing") DEFAULT_STYLES
      ++ xmlBody (u16 "No licensing identified in this document.") DEFAULT_STYLES
      ++ xmlSpacer DEFAULT_STYLES.
Proof.
  refine (eq_trans
            (custom_scopes_export_empty testHost (fun _ _ => None) [] []
               (addCustomScope 1700000000000 (u16 "Licensing") [] []) DEFAULT_STYLES _) _).
  - repeat constructor. intros [].
  - vm_compute. reflexivity.
Defined.

(** ** Numbered answers *)

Lemma u16_ascii (c : ascii) (s : string) :
  (N_of_ascii c < 128)%N -> u16 (String c s) = N_of_ascii c :: u16 s.
Proof.
  intros H. unfold u16. cbn [list_ascii_of_string map utf8_units].
  destruct (N.ltb_spec (N_of_ascii c) 128) as [_|?]; [reflexivity|lia].
Qed.

Lemma string_of_uint_digits (d : Decimal.uint) :
  forallb isDigit (u16 (NilZero.string_of_uint d)) = true
  /\ forallb isDigit (u16 (NilEmpty.string_of_uint d)) = true.
Proof.
  assert (H : forallb isDigit (u16 (NilEmpty.string_of_uint d)) = true).
  { induction d; cbn [NilEmpty.string_of_uint]; [reflexivity|..];
      (rewrite u16_ascii by (vm_compute; reflexivity)); cbn [forallb]; now rewrite IHd. }
  split; [|exact H]. destruct d; exact H.
Qed.

Lemma numText_digits (n : N) :
  forallb isDigit (numText n) = true /\ numText n <> [].
Proof.
  unfold numText. split; [apply string_of_uint_digits|].
  destruct (N.to_uint n); cbn [NilZero.string_of_uint NilEmpty.string_of_uint];
    [vm_compute; discriminate|..];
    (rewrite u16_ascii by (vm_compute; reflexivity)); discriminate.
Qed.

Lemma splitAt_free (c : N) (a : jsstring) :
  forall cur, ~ In c a -> splitAt [c] 0 cur a = [cur ++ a].
Proof.
  induction a as [|x a IH]; intros cur H.
  - cbn [splitAt]. now rewrite app_nil_r.
  - cbn [splitAt]. rewrite isPrefix_unit.
    destruct (N.eqb_spec c x) as [->|_]; [exfalso; apply H; now left|].
    rewrite IH by (intros Hin; apply H; now right). now rewrite <- app_assoc.
Qed.

(** Lines without line feed, joined by line feeds, are split back into
    the same lines. *)
Lemma splitStr_join (ls : list jsstring) :
  ls <> [] -> Forall (fun l => ~ In 10%N l) ls -> splitStr (join LF ls) LF = ls.
Proof.
  intros Hne H. unfold splitStr, LF. revert Hne.
  induction H as [|a rest Ha Hrest IH]; intros Hne; [exfalso; now apply Hne|].
  destruct rest as [|b rest].
  - cbn [join]. now rewrite splitAt_free.
  - change (join [10%N] (a :: b :: rest)) with (a ++ 10%N :: join [10%N] (b :: rest)).
    rewrite splitAt_unit_app, splitAt_free by exact Ha.
    cbn [app]. f_equal. apply IH. discriminate.
Qed.

Lemma map_imap_cancel {A B : Type} (f : B -> A) (bs : list A) :
  forall g : nat -> A -> B,
    (forall i b, In b bs -> f (g i b) = b) -> map f (imap g bs) = bs.
Proof.
  induction bs as [|b bs IH]; intros g H; [reflexivity|].
  cbn [imap map]. rewrite H by now left. f_equal.
  apply IH. intros i b' Hb'. apply H. now right.
Qed.

Lemma imap_Forall {A B : Type} (P : B -> Prop) (bs : list A) :
  forall g : nat -> A -> B,
    (forall i b, In b bs -> P (g i b)) -> Forall P (imap g bs).
Proof.
  induction bs as [|b bs IH]; intros g H; [constructor|].
  cbn [imap]. constructor; [apply H; now left|].
  apply IH. intros i b' Hb'. apply H. now right.
Qed.

Lemma dropWhile_app_all (P : N -> bool) (a b : jsstring) :
  forallb P a = true -> dropWhile P (a ++ b) = dropWhile P b.
Proof.
  induction a as [|x a IH]; intros H; [reflexivity|].
  cbn [forallb] in H. apply andb_true_iff in H as [Hx Ha].
  cbn [app dropWhile]. rewrite Hx. now apply IH.
Qed.

Lemma isDigit_marker (c : N) : isDigit c = true -> isBulletMarker c = true.
Proof.
  intros H. unfold isBulletMarker, inClass, bulletMarker.
  cbn [existsb inItem xorb andb orb]. change (inRange 48 57 c) with (isDigit c). rewrite H.
  now rewrite !orb_true_r.
Qed.

Lemma isDigit_plain (c : N) :
  isDigit c = true ->
  isWhite c = false /\ c <> 10%N
  /\ inClass false false [CRange 115 8226; CChar 42; CChar 100; CChar 46; CChar 41] c
     = false.
Proof.
  unfold isDigit. intros H. apply andb_true_iff in H as [H1 H2].
  apply N.leb_le in H1, H2.
  assert (Hc : (c = 48 \/ c = 49 \/ c = 50 \/ c = 51 \/ c = 52 \/ c = 53 \/ c = 54
                \/ c = 55 \/ c = 56 \/ c = 57)%N) by lia.
  repeat (destruct Hc as [->|Hc]; [repeat split; (reflexivity || discriminate)|]).
  subst c. repeat split; (reflexivity || discriminate).
Qed.

Lemma dropWhile_length (P : N -> bool) (s : jsstring) :
  (length (dropWhile P s) <= length s)%nat.
Proof.
  induction s as [|c s IH]; [reflexivity|]. cbn [dropWhile].
  destruct (P c); cbn [length]; lia.
Qed.

Lemma trimEnd_fixed_app (p b : jsstring) :
  b <> [] -> trimEnd b = b -> trimEnd (p ++ b) = p ++ b.
Proof.
  intros Hb Hend. unfold trimEnd in *. rewrite trimStart_dropWhile in *.
  rewrite rev_app_distr.
  assert (Hrev : dropWhile isWhite (rev b) = rev b).
  { rewrite <- (rev_involutive (dropWhile isWhite (rev b))). now rewrite Hend. }
  destruct (rev b) as [|x r] eqn:E.
  - exfalso. apply Hb. rewrite <- (rev_involutive b), E. reflexivity.
  - assert (Hx : isWhite x = false).
    { destruct (isWhite x) eqn:W; [|reflexivity]. exfalso.
      cbn [dropWhile] in Hrev. rewrite W in Hrev.
      pose proof (dropWhile_length isWhite r) as L. rewrite Hrev in L.
      cbn [length] in L. lia. }
    cbn [app dropWhile]. rewrite Hx.
    change (x :: r ++ rev p) with ((x :: r) ++ rev p). rewrite <- E.
    now rewrite rev_app_distr, !rev_involutive.
Qed.

(** A string that starts and ends with a code unit that is not white
    space is its own trimmed form. *)
Lemma trim_fixed (p b : jsstring) (c : N) (t : jsstring) :
  p = c :: t -> isWhite c = false -> b <> [] -> trim b = b -> trim (p ++ b) = p ++ b.
Proof.
  intros -> Hc Hb Hfix.
  assert (Hend : trimEnd b = b).
  { rewrite <- Hfix at 1. unfold trim. rewrite trimEnd_idem. exact Hfix. }
  unfold trim. cbn [app trimStart]. rewrite Hc.
  change (c :: t ++ b) with ((c :: t) ++ b). now apply trimEnd_fixed_app.
Qed.

Lemma numberedLine_no_LF (i : nat) (b : jsstring) :
  ~ In 10%N b -> ~ In 10%N (numberedLine i b).
Proof.
  intros Hb H. unfold numberedLine in H.
  apply in_app_or in H as [H|H].
  - destruct (numText_digits (N.of_nat (i + 1))) as [Hd _].
    rewrite forallb_forall in Hd. specialize (Hd _ H).
    apply isDigit_plain in Hd as (_ & Hd & _). now apply Hd.
  - apply in_app_or in H as [H|H]; [|now apply Hb].
    vm_compute in H. intuition discriminate.
Qed.

(** X22.  The prompt asks the model for a numbered list, one finding per
    line.  From such an answer the parser of the docx exporter reads the
    findings back without their numbers, whereas the parser of the template
    exporter, whose leading pattern cannot match at a digit, returns every
    line with its number. *)
Theorem numbered_answer_read_back (bullets : list jsstring) :
  Forall (fun b => 10 < jslen b /\ trim b = b /\ ~ In 10%N b
                   /\ exists c t, b = c :: t /\ isBulletMarker c = false) bullets ->
  parseBulletsDocx (numberedAnswer bullets) = bullets
  /\ parseBullets (numberedAnswer bullets) = imap numberedLine bullets.
Proof.
  intros Hsh. rewrite Forall_forall in Hsh.
  assert (Hin : forall b, In b bullets ->
             10 < jslen b /\ trim b = b /\ ~ In 10%N b
             /\ exists c t, b = c :: t /\ isBulletMarker c = false).
  { intros b Hb. apply Hsh. now apply list_elem_of_In. }
  clear Hsh.
  destruct bullets as [|b0 bs]; [split; reflexivity|].
  set (bullets := b0 :: bs) in *.
  assert (Hsplit : splitStr (numberedAnswer bullets) LF = imap numberedLine bullets).
  { unfold numberedAnswer. apply splitStr_join; [discriminate|].
    apply imap_Forall. intros i b Hb. apply numberedLine_no_LF. now apply Hin. }
  assert (Hlen : forall i b, In b bullets -> (10 <? jslen (numberedLine i b)) = true).
  { intros i b Hb. destruct (Hin b Hb) as (Hl & _). apply Z.ltb_lt.
    unfold numberedLine, jslen in *. rewrite !length_app. lia. }
  unfold parseBulletsDocx, parseBullets. rewrite Hsplit. split.
  - rewrite map_imap_cancel.
    + apply forallb_filter_id. apply forallb_forall. intros b Hb.
      destruct (Hin b Hb) as (Hl & _). now apply Z.ltb_lt.
    + intros i b Hb. destruct (Hin b Hb) as (_ & Ht & _ & c & t & -> & Hc).
      rewrite replaceFirst_lead_docx. unfold numberedLine.
      rewrite dropWhile_app_all.
      * change (u16 ". " ++ c :: t) with (46%N :: 32%N :: c :: t).
        cbn [dropWhile]. change (isBulletMarker 46) with true.
        change (isBulletMarker 32) with true. cbv iota. rewrite Hc. exact Ht.
      * destruct (numText_digits (N.of_nat (i + 1))) as [Hd _].
        rewrite forallb_forall in Hd |- *. intros x Hx. apply isDigit_marker. now apply Hd.
  - assert (Hmap : map (fun l => trim (replaceFirst false l reBulletLead []))
                       (imap numberedLine bullets) = imap numberedLine bullets).
    { rewrite <- (map_id (imap numberedLine bullets)) at 2. apply map_ext_in.
      intros l Hl. apply list_elem_of_In in Hl.
      apply elem_of_lookup_imap in Hl as (i & b & -> & Hb).
      apply list_elem_of_lookup_2, list_elem_of_In in Hb.
      destruct (Hin b Hb) as (Hl & Ht & _ & c & t & -> & _).
      rewrite replaceFirst_lead. unfold numberedLine.
      destruct (numText_digits (N.of_nat (i + 1))) as [Hd Hne].
      destruct (numText (N.of_nat (i + 1))) as [|d ds] eqn:E; [congruence|].
      cbn [forallb] in Hd. apply andb_true_iff in Hd as [Hd _].
      apply isDigit_plain in Hd as (Hw & _ & Hcls).
      assert (Hstrip : stripLead ((d :: ds) ++ u16 ". " ++ c :: t)
                       = (d :: ds) ++ u16 ". " ++ c :: t).
      { cbn [app stripLead]. now rewrite Hcls. }
      rewrite Hstrip. rewrite app_assoc.
      apply (trim_fixed _ _ d (ds ++ u16 ". ")); [reflexivity|exact Hw|discriminate|exact Ht]. }
    rewrite Hmap. apply forallb_filter_id. apply forallb_forall. intros l Hl.
    apply list_elem_of_In in Hl. apply elem_of_lookup_imap in Hl as (i & b & -> & Hb).
    apply Hlen. eapply list_elem_of_In, list_elem_of_lookup_2. exact Hb.
Qed.

Lemma numbered_answer_read_back_witness :
  parseBulletsDocx
    (numberedAnswer [u16 "Legacy login removed"; u16 "Token renewal is automatic"])
  = [u16 "Legacy login removed"; u16 "Token renewal is automatic"].
Proof.
  apply numbered_answer_read_back.
  constructor; [|constructor; [|constructor]];
    (split; [vm_compute; reflexivity|];
     split; [vm_compute; reflexivity|];
     split; [vm_compute; intuition discriminate|];
     eexists _, _; split; vm_compute; reflexivity).
Defined.

(** ** Style ids and attribute values *)

(** A repetition of a class of code units leaves the captures as they
    are and consumes code units of the class only. *)
Lemma repLoop_class_span (ic : bool) (s : jsstring) (neg : bool) (items : list citem) :
  forall (fuel mn : nat) (mx : option nat) (g : bool) (x y : mstate),
    In y (repLoop (m ic s (Cls neg items)) (clearCaps []) fuel mn mx g x) ->
    caps y = caps x /\ (pos x <= pos y)%nat
    /\ forallb (inClass ic neg items) (substr s (pos x) (pos y)) = true.
Proof.
  induction fuel as [|f IH]; intros mn mx g x y Hy; [destruct Hy|].
  assert (Hself : caps x = caps x /\ (pos x <= pos x)%nat
                  /\ forallb (inClass ic neg items) (substr s (pos x) (pos x)) = true).
  { split; [reflexivity|]. split; [lia|]. now rewrite substr_empty. }
  assert (Hiter : forall mx',
             In y (flat_map
                     (fun y' => if Nat.eqb mn 0 && Nat.eqb (pos y') (pos x) then []
                                else repLoop (m ic s (Cls neg items)) (clearCaps []) f
                                       (Nat.pred mn) mx' g y')
                     (m ic s (Cls neg items) (clearCaps [] x))) ->
             caps y = caps x /\ (pos x <= pos y)%nat
             /\ forallb (inClass ic neg items) (substr s (pos x) (pos y)) = true).
  { intros mx' H. apply in_flat_map in H as (y' & Hy' & H).
    rewrite clearCaps_nil in Hy'. cbn [m] in Hy'.
    destruct (s !! pos x) as [c|] eqn:E; [|destruct Hy'].
    destruct (inClass ic neg items c) eqn:Hc; [|destruct Hy'].
    destruct Hy' as [<-|[]].
    destruct (Nat.eqb mn 0 && Nat.eqb (pos (advance x 1)) (pos x)); [destruct H|].
    apply IH in H as (H1 & H2 & H3). cbn [advance pos caps] in *.
    split; [exact H1|]. split; [lia|].
    rewrite (substr_split s (pos x) (S (pos x)) (pos y)) by lia.
    rewrite (substr_unit _ _ _ E). cbn [app forallb]. rewrite Hc.
    now replace (S (pos x)) with (pos x + 1)%nat by lia. }
  cbn [repLoop] in Hy.
  destruct mx as [[|k]|].
  - destruct Hy as [<-|[]]. exact Hself.
  - destruct mn as [|mn'].
    + destruct g.
      * apply in_app_or in Hy as [Hy|[<-|[]]]; [(eapply Hiter; exact Hy)|exact Hself].
      * destruct Hy as [<-|Hy]; [exact Hself|(eapply Hiter; exact Hy)].
    + (eapply Hiter; exact Hy).
  - destruct mn as [|mn'].
    + destruct g.
      * apply in_app_or in Hy as [Hy|[<-|[]]]; [(eapply Hiter; exact Hy)|exact Hself].
      * destruct Hy as [<-|Hy]; [exact Hself|(eapply Hiter; exact Hy)].
    + (eapply Hiter; exact Hy).
Qed.

Lemma m_Rep_class_span (ic : bool) (s : jsstring) (mn : nat) (mx : option nat) (g : bool)
    (neg : bool) (items : list citem) (x y : mstate) :
  In y (m ic s (Rep mn mx g (Cls neg items)) x) ->
  caps y = caps x /\ (pos x <= pos y)%nat
  /\ forallb (inClass ic neg items) (substr s (pos x) (pos y)) = true.
Proof. rewrite m_Rep. cbn [groups]. apply repLoop_class_span. Qed.

Lemma m_Lit_In (ic : bool) (s l : jsstring) (x y : mstate) :
  In y (m ic s (Lit l) x) -> caps y = caps x.
Proof.
  rewrite m_Lit. destruct (litMatch ic l (drop (pos x) s)); [|intros []].
  intros [<-|[]]. reflexivity.
Qed.

Lemma getCap_filter_ne (i j : nat) (l : list (nat * (nat * nat))) :
  i <> j -> getCap i (List.filter (fun e => negb (Nat.eqb (fst e) j)) l) = getCap i l.
Proof.
  intros Hne. induction l as [|[k se] l IH]; [reflexivity|].
  cbn [List.filter fst getCap]. destruct (Nat.eqb_spec k j) as [->|Hk]; cbn [negb].
  - rewrite IH. now rewrite (proj2 (Nat.eqb_neq i j) Hne).
  - cbn [getCap]. now rewrite IH.
Qed.

Lemma getCap_setCap_ne (i j a b : nat) (y : mstate) :
  i <> j -> getCap i (caps (setCap j a b y)) = getCap i (caps y).
Proof.
  intros Hne. unfold setCap. cbn [caps getCap].
  rewrite (proj2 (Nat.eqb_neq i j) Hne). now apply getCap_filter_ne.
Qed.

Lemma getCap_setCap_eq (i a b : nat) (y : mstate) :
  getCap i (caps (setCap i a b y)) = Some (a, b).
Proof. unfold setCap. cbn [caps getCap]. now rewrite Nat.eqb_refl. Qed.

(** The first group of a match of the style pattern holds no double
    quote. *)
Lemma reStyle_capture (s : jsstring) (x y : mstate) :
  In y (m false s reStyle x) ->
  exists a b, getCap 1 (caps y) = Some (a, b)
              /\ forallb (inClass false true [CChar 34]) (substr s a b) = true.
Proof.
  unfold reStyle. intros H.
  rewrite m_Seq in H. apply in_flat_map in H as (x1 & _ & H).
  rewrite m_Seq in H. apply in_flat_map in H as (x2 & _ & H).
  rewrite m_Seq in H. apply in_flat_map in H as (x3 & _ & H).
  rewrite m_Seq in H. apply in_flat_map in H as (x4 & _ & H).
  rewrite m_Seq in H. apply in_flat_map in H as (x5 & H5 & H).
  rewrite m_Seq in H. apply in_flat_map in H as (x6 & H6 & H).
  rewrite m_Seq in H. apply in_flat_map in H as (x7 & H7 & H).
  rewrite m_Seq in H. apply in_flat_map in H as (x8 & H8 & H).
  rewrite m_Seq in H. apply in_flat_map in H as (x9 & H9 & H).
  apply m_Lit_In in H, H8, H6.
  unfold Star, notChar in H7. apply m_Rep_class_span in H7 as (H7 & _).
  rewrite m_Grp in H9. apply in_map_iff in H9 as (y9 & <- & H9).
  unfold LazyStar, anyChar in H9. apply m_Rep_class_span in H9 as (H9 & _).
  rewrite m_Grp in H5. apply in_map_iff in H5 as (y5 & <- & H5).
  unfold Plus, notChar in H5. apply m_Rep_class_span in H5 as (Hc5 & _ & Hall).
  exists (pos x4), (pos y5). split; [|exact Hall].
  rewrite H, getCap_setCap_ne by lia.
  rewrite H9, H8, H7, H6. apply getCap_setCap_eq.
Qed.

Section ObjectKeys.
Variable P : jsstring -> Prop.

Lemma objReplace_keys (o : jsobject) (k v : jsstring) :
  Forall (fun e => P (fst e)) o -> Forall (fun e => P (fst e)) (objReplace o k v).
Proof.
  intros H. induction H as [|[k' v'] o Hk Ho IH]; [constructor|].
  cbn [objReplace]. destruct (str_eqb k' k); constructor; assumption.
Qed.

Lemma objInsertIndex_keys (o : jsobject) (n : N) (k v : jsstring) :
  P k -> Forall (fun e => P (fst e)) o ->
  Forall (fun e => P (fst e)) (objInsertIndex o n k v).
Proof.
  intros Pk H. induction H as [|[k' v'] o Hk Ho IH].
  - cbn [objInsertIndex]. repeat constructor. exact Pk.
  - cbn [objInsertIndex]. destruct (arrayIndex k') as [n'|].
    + destruct (n' <? n)%N; constructor; try assumption. now constructor.
    + constructor; [exact Pk|]. now constructor.
Qed.

Lemma objSet_keys (o : jsobject) (k v : jsstring) :
  P k -> Forall (fun e => P (fst e)) o -> Forall (fun e => P (fst e)) (objSet o k v).
Proof.
  intros Pk H. unfold objSet.
  destruct (str_eqb k (u16 "__proto__")); [exact H|].
  destruct (objHas o k); [now apply objReplace_keys|].
  destruct (arrayIndex k); [now apply objInsertIndex_keys|].
  apply Forall_app. split; [exact H|]. repeat constructor. exact Pk.
Qed.

Lemma pick_key (o : jsobject) (pats : list pat) (id : jsstring) :
  Forall (fun e => P (fst e)) o -> pick o pats = Some id -> P id.
Proof.
  intros H. induction H as [|[k v] o Hk Ho IH]; [discriminate|].
  cbn [pick]. destruct (existsb (patMatches v) pats); [|exact IH].
  intros E. injection E as <-. exact Hk.
Qed.

Lemma role_key (o : jsobject) (pats : list pat) (dflt : jsstring) :
  Forall (fun e => P (fst e)) o -> P dflt -> P (orElseU (pick o pats) dflt).
Proof.
  intros H Hd. destruct (pick o pats) as [[|c t]|] eqn:E; cbn [orElseU]; try exact Hd.
  now apply (pick_key o pats).
Qed.

End ObjectKeys.

Lemma class_not_quote (l : jsstring) :
  forallb (inClass false true [CChar 34]) l = true -> ~ In 34%N l.
Proof.
  intros H Hin. rewrite forallb_forall in H. specialize (H _ Hin). discriminate H.
Qed.

(** Every key of the object of styles is an id captured by the style
    pattern: it holds no double quote. *)
Lemma scanStyles_keys (h : Host) (xml : jsstring) :
  forall (fuel i : nat) (o : jsobject),
    Forall (fun e => ~ In 34%N (fst e)) o ->
    Forall (fun e => ~ In 34%N (fst e)) (scanStyles h xml fuel i o).
Proof.
  induction fuel as [|f IH]; intros i o Ho; [exact Ho|].
  cbn [scanStyles]. destruct (execFrom false xml reStyle i) as [[q y]|] eqn:E; [|exact Ho].
  apply IH. apply (objSet_keys (fun id => ~ In 34%N id)); [|exact Ho].
  unfold execFrom in E. apply scan_Some in E as (E & _ & _).
  unfold matchAt in E.
  assert (Hy : In y (m false xml reStyle (MState q []))).
  { destruct (m false xml reStyle (MState q [])) as [|z l]; [discriminate|].
    injection E as ->. now left. }
  apply reStyle_capture in Hy as (a & b & Hcap & Hall).
  unfold capture. rewrite Hcap. cbn [default]. now apply class_not_quote.
Qed.

Lemma map_asciiUp_hex (l : jsstring) :
  forallb isHex l = true -> forallb isUpperHex (map asciiUp l) = true.
Proof.
  intros H. rewrite forallb_forall in *. intros c Hc.
  apply in_map_iff in Hc as (d & <- & Hd). specialize (H d Hd).
  unfold isHex, isUpperHex, asciiUp, isAsciiLower, inRange in *.
  repeat match type of H with
  | (_ || _) = true => apply orb_true_iff in H as [H|H]
  | (_ && _) = true => apply andb_true_iff in H as [? H]
  end;
  repeat match goal with
  | Hx : (_ <=? _)%N = true |- _ => apply N.leb_le in Hx
  end.
  - replace ((97 <=? d)%N) with false by (symmetry; apply N.leb_gt; lia).
    cbn [andb]. apply orb_true_iff. left. apply andb_true_iff.
    split; apply N.leb_le; lia.
  - replace ((97 <=? d)%N) with false by (symmetry; apply N.leb_gt; lia).
    cbn [andb]. apply orb_true_iff. right. apply andb_true_iff.
    split; apply N.leb_le; lia.
  - replace ((97 <=? d)%N) with true by (symmetry; apply N.leb_le; lia).
    replace ((d <=? 122)%N) with true by (symmetry; apply N.leb_le; lia).
    cbn [andb]. apply orb_true_iff. right. apply andb_true_iff.
    split; apply N.leb_le; lia.
Qed.

Lemma detectFill_hex (h : Host) (zip : gmap jsstring bytes) :
  length (detectFill h zip) = 6%nat /\ forallb isUpperHex (detectFill h zip) = true.
Proof.
  unfold detectFill.
  destruct (zip !! documentPath) as [raw|]; [|split; reflexivity].
  destruct (exec false (utf8decode h raw) reFill) as [[q y]|] eqn:E; [|split; reflexivity].
  apply exec_reFill_Some in E as [Hq Hc]. rewrite Hc.
  destruct (fillAt_digits _ _ Hq) as [Hhex Hlen].
  rewrite toUpperCase_hex by exact Hhex.
  split; [now rewrite length_map|now apply map_asciiUp_hex].
Qed.

(** X23.  The seven style ids of a resolved style map hold no double
    quote, and its fill is six hexadecimal digits in upper case: written
    between double quotes into the markup, none of them ends the attribute
    it is the value of. *)
Theorem style_roles_attribute_safe (h : Host) (zip : gmap jsstring bytes) :
  let st := stylesOfArchive h zip in
  Forall (fun id => ~ In 34%N id)
    [h1 st; h2 st; body st; bullet st; tableHeader st; tableText st; tableGrid st]
  /\ length (fill st) = 6%nat /\ forallb isUpperHex (fill st) = true.
Proof.
  cbv zeta. unfold stylesOfArchive.
  destruct (zip !! stylesPath) as [raw|].
  - cbn [h1 h2 body bullet tableHeader tableText tableGrid fill].
    split; [|apply detectFill_hex].
    pose proof (scanStyles_keys h (utf8decode h raw) (S (length (utf8decode h raw))) 0 []
                  (Forall_nil_2 _)) as Hk.
    repeat (constructor;
            [apply (role_key (fun id => ~ In 34%N id)); [exact Hk|];
             vm_compute; intuition discriminate|]).
    constructor.
  - split; [|split; reflexivity].
    repeat (constructor; [vm_compute; intuition discriminate|]). constructor.
Qed.

(** ** Parts without metadata *)

Lemma needs_no_match (s l : jsstring) (r : regex) :
  needs r l = true -> (forall k, isPrefix l (drop k s) = false) ->
  forall x, m false s r x = [].
Proof.
  intros Hn Habs. induction r as [l'|neg items| | | | |r1 IH1 r2 IH2|r1 IH1 r2 IH2|mn mx g r IH|i r IH];
    cbn [needs] in Hn; try discriminate; intros x.
  - apply str_eqb_eq in Hn. subst l'. rewrite m_Lit, litMatch_isPrefix, Habs. reflexivity.
  - rewrite m_Seq. apply orb_true_iff in Hn as [Hn|Hn].
    + now rewrite (IH1 Hn).
    + induction (m false s r1 x) as [|z zs IHz]; [reflexivity|].
      cbn [flat_map]. now rewrite (IH2 Hn), IHz.
  - apply andb_true_iff in Hn as [Hn1 Hn2]. cbn [m]. now rewrite (IH1 Hn1), (IH2 Hn2).
  - rewrite m_Grp. now rewrite (IH Hn).
Qed.

Lemma replaceAll_no_match (s : jsstring) (r : regex) (repl : jsstring) :
  (forall x, m false s r x = []) -> replaceAll false s r repl = s.
Proof.
  intros H. unfold replaceAll. cbn [replaceLoop]. unfold execFrom.
  rewrite scan_none; [reflexivity|]. intros q. unfold matchAt. now rewrite H.
Qed.

Lemma indexOf_absent (s p : jsstring) :
  indexOf s p = -1 -> forall k, isPrefix p (drop k s) = false.
Proof.
  intros H. apply (proj1 (indexOfAux_spec p s 0)). split; [exact H|lia].
Qed.

(** X25.  A part that the export rewrites keeps its text when the text
    does not hold what the pattern of the part looks for: the part of the
    output is the encoding of the decoded input. *)
Theorem stripMetadata_clean_part (h : Host) (zip : gmap jsstring bytes)
    (path lit : jsstring) (raw : bytes) :
  In (path, lit) rewrittenParts ->
  zip !! path = Some raw ->
  indexOf (utf8decode h raw) lit = -1 ->
  stripMetadata h zip !! path = Some (utf8encode h (utf8decode h raw)).
Proof.
  intros Hin Hraw Habs. pose proof (indexOf_absent _ _ Habs) as Hno.
  assert (Hkeep : forall p, startsWith p customXmlDir = false -> zip !! p = Some raw ->
            filter (fun e => negb (startsWith (fst e) customXmlDir) = true) zip !! p
            = Some raw).
  { intros p Hp Hz. apply map_lookup_filter_Some. split; [exact Hz|].
    cbn [fst]. now rewrite Hp. }
  unfold stripMetadata.
  destruct Hin as [E|[E|[E|[E|[]]]]]; injection E as <- <-.
  - rewrite !rewritePart_lookup_ne by (vm_compute; congruence).
    unfold rewritePart. rewrite (Hkeep relsPath eq_refl Hraw), lookup_insert_eq.
    rewrite replaceAll_no_match; [reflexivity|].
    apply (needs_no_match _ (u16 "relationships/customXml")); [reflexivity|exact Hno].
  - rewrite !rewritePart_lookup_ne by (vm_compute; congruence).
    unfold rewritePart at 1.
    rewrite rewritePart_lookup_ne by (vm_compute; congruence).
    rewrite (Hkeep contentTypesPath eq_refl Hraw), lookup_insert_eq.
    rewrite replaceAll_no_match; [reflexivity|].
    apply (needs_no_match _ (u16 "/customXml/")); [reflexivity|exact Hno].
  - rewrite !rewritePart_lookup_ne by (vm_compute; congruence).
    unfold rewritePart at 1.
    rewrite !rewritePart_lookup_ne by (vm_compute; congruence).
    rewrite (Hkeep settingsRelsPath eq_refl Hraw), lookup_insert_eq.
    rewrite replaceAll_no_match; [reflexivity|].
    apply (needs_no_match _ (u16 "dotm")); [reflexivity|exact Hno].
  - unfold rewritePart at 1.
    rewrite !rewritePart_lookup_ne by (vm_compute; congruence).
    rewrite (Hkeep settingsPath eq_refl Hraw), lookup_insert_eq.
    rewrite replaceAll_no_match; [reflexivity|].
    apply (needs_no_match _ (u16 "<w:attachedTemplate")); [reflexivity|exact Hno].
Qed.

Lemma stripMetadata_clean_part_witness :
  stripMetadata testHost {[ settingsPath := u16 "<w:settings/>" ]} !! settingsPath
  = Some (u16 "<w:settings/>").
Proof.
  apply (stripMetadata_clean_part testHost {[ settingsPath := u16 "<w:settings/>" ]}
           settingsPath (u16 "<w:attachedTemplate") (u16 "<w:settings/>")).
  - right. right. right. left. reflexivity.
  - apply lookup_singleton_eq.
  - vm_compute. reflexivity.
Defined.

(** ** A catalogue without style elements *)

Lemma reStyle_no_element (xml : jsstring) :
  (forall k, styleElementAt xml k = false) -> forall x, m false xml reStyle x = [].
Proof.
  intros H x. unfold reStyle. rewrite m_Seq, m_Lit, litMatch_isPrefix.
  destruct (isPrefix (u16 "<w:style") (drop (pos x) xml)) eqn:E; [|reflexivity].
  cbn [flat_map]. rewrite app_nil_r, m_Seq.
  change (length (u16 "<w:style")) with 8%nat.
  assert (Hw : m false xml WordB (advance x 8) = []).
  { cbn [m advance pos].
    specialize (H (pos x)). unfold styleElementAt in H. rewrite E in H. cbn [andb] in H.
    apply negb_false_iff in H. rewrite H.
    pose proof (isPrefix_lookup _ _ E 7%nat 101%N eq_refl) as L.
    rewrite lookup_drop_plus in L.
    replace (pos x + 8)%nat with (S (pos x + 7)) by lia.
    cbn [wordBefore]. unfold wordAt. rewrite L. reflexivity. }
  now rewrite Hw.
Qed.

(** X24.  A style catalogue in which no style element starts gives the
    default style ids; the fill is still the one found in the document. *)
Theorem styles_default_without_elements (h : Host) (zip : gmap jsstring bytes)
    (raw : bytes) :
  zip !! stylesPath = Some raw ->
  (forall k, styleElementAt (utf8decode h raw) k = false) ->
  stylesOfArchive h zip
  = {| h1 := h1 DEFAULT_STYLES; h2 := h2 DEFAULT_STYLES; body := body DEFAULT_STYLES;
       bullet := bullet DEFAULT_STYLES; tableHeader := tableHeader DEFAULT_STYLES;
       tableText := tableText DEFAULT_STYLES; tableGrid := tableGrid DEFAULT_STYLES;
       fill := detectFill h zip |}.
Proof.
  intros Hraw Hno. unfold stylesOfArchive. rewrite Hraw.
  assert (Hscan : scanStyles h (utf8decode h raw) (S (length (utf8decode h raw))) 0 [] = []).
  { cbn [scanStyles]. unfold execFrom. rewrite scan_none; [reflexivity|].
    intros q. unfold matchAt. now rewrite reStyle_no_element. }
  rewrite Hscan. reflexivity.
Qed.

Lemma styles_default_without_elements_witness :
  h1 (stylesOfArchive testHost {[ stylesPath := u16 "<w:styles><w:docDefaults/></w:styles>" ]})
  = u16 "Heading1".
Proof.
  refine (eq_trans
            (f_equal h1
               (styles_default_without_elements testHost
                  {[ stylesPath := u16 "<w:styles><w:docDefaults/></w:styles>" ]}
                  (u16 "<w:styles><w:docDefaults/></w:styles>") _ _)) _).
  - apply lookup_singleton_eq.
  - intros k. change (utf8decode testHost ?x) with x.
    destruct (Nat.le_gt_cases 40 k) as [Hk|Hk].
    + unfold styleElementAt. rewrite drop_ge; [reflexivity|]. vm_compute length. lia.
    + do 40 (destruct k as [|k]; [vm_compute; reflexivity|]). lia.
  - reflexivity.
Defined.

(** ** One table row per finding *)

Lemma noLt_numText (n : N) : noLt (numText n) = true.
Proof.
  destruct (numText_digits n) as [H _]. unfold noLt.
  rewrite forallb_forall in *. intros c Hc. specialize (H c Hc).
  apply negb_true_iff, N.eqb_neq. intros ->. discriminate H.
Qed.

Ltac count_rows :=
  unfold TR; literals; repeat first [rewrite <- app_assoc | progress cbn [app]];
  repeat count_step; try reflexivity.

Lemma countTR_styledPara (style text rest : jsstring) :
  noLt style = true ->
  countOcc TR (styledPara style text ++ rest) = countOcc TR rest.
Proof.
  intros Hs. pose proof (xmlEsc_noLt text) as He. unfold styledPara.
  generalize dependent (xmlEsc text). intros e He.
  count_rows.
Qed.

Lemma countTR_spacer (st : StyleMap) (rest : jsstring) :
  noLt (body st) = true -> countOcc TR (xmlSpacer st ++ rest) = countOcc TR rest.
Proof.
  intros Hs. unfold xmlSpacer. generalize dependent (body st). intros b Hb.
  count_rows.
Qed.

Lemma countTR_dataCell (st : StyleMap) (c : col) (cell rest : jsstring) :
  noLt (tableText st) = true ->
  countOcc TR (dataCell st c cell ++ rest) = countOcc TR rest.
Proof.
  intros Hs. pose proof (xmlEsc_noLt cell) as He. pose proof (noLt_numText (col_w c)) as Hn.
  unfold dataCell.
  generalize dependent (xmlEsc cell). intros e He.
  generalize dependent (numText (col_w c)). intros w Hw.
  generalize dependent (tableText st). intros t Ht.
  count_rows.
Qed.

Lemma countTR_hdrCell (st : StyleMap) (c : col) (rest : jsstring) :
  noLt (tableHeader st) = true -> noLt (fill st) = true ->
  countOcc TR (hdrCell st c ++ rest) = countOcc TR rest.
Proof.
  intros Hs Hf. pose proof (xmlEsc_noLt (col_label c)) as He.
  pose proof (noLt_numText (col_w c)) as Hn.
  unfold hdrCell.
  generalize dependent (xmlEsc (col_label c)). intros e He.
  generalize dependent (numText (col_w c)). intros w Hw.
  generalize dependent (tableHeader st). intros t Ht.
  generalize dependent (fill st). intros f Hf.
  count_rows.
Qed.

Lemma countTR_gridCol (c : col) (rest : jsstring) :
  countOcc TR (gridCol c ++ rest) = countOcc TR rest.
Proof.
  pose proof (noLt_numText (col_w c)) as Hn. unfold gridCol.
  generalize dependent (numText (col_w c)). intros w Hw.
  count_rows.
Qed.

Lemma countTR_dataRow (st : StyleMap) (cols : cols3) (row : row3) (rest : jsstring) :
  noLt (tableText st) = true ->
  countOcc TR (dataRow st cols row ++ rest) = S (countOcc TR rest).
Proof.
  intros Hs. destruct cols as [[c0 c1] c2]. destruct row as [[x0 x1] x2].
  unfold dataRow. cbn [join app].
  assert (Hopen : forall t, countOcc TR (u16 "<w:tr>" ++ t) = S (countOcc TR t)).
  { intros t. count_rows. }
  assert (Hclose : forall t, countOcc TR (u16 "</w:tr>" ++ t) = countOcc TR t).
  { intros t. count_rows. }
  repeat rewrite <- app_assoc. rewrite Hopen.
  rewrite !countTR_dataCell by exact Hs. now rewrite Hclose.
Qed.

Lemma countTR_tableOpen (cols : cols3) (st : StyleMap) (rest : jsstring) :
  noLt (tableGrid st) = true -> noLt (tableHeader st) = true -> noLt (fill st) = true ->
  countOcc TR (tableOpen cols st ++ rest) = S (countOcc TR rest).
Proof.
  intros Hg Hh Hf. destruct cols as [[c0 c1] c2].
  unfold tableOpen. cbn [colsList map join app].
  pose proof (noLt_numText (fold_left (fun acc c => (acc + col_w c)%N) [c0; c1; c2] 0%N))
    as Hn.
  generalize dependent (numText (fold_left (fun acc c => (acc + col_w c)%N) [c0; c1; c2] 0%N)).
  intros w Hw.
  assert (H1 : forall t,
             countOcc TR
               (u16 "<w:tbl><w:tblPr><w:tblStyle w:val=" ++ DQ ++ tableGrid st ++ DQ
                  ++ u16 "/><w:tblW w:w=" ++ DQ ++ w ++ DQ ++ u16 " w:type=" ++ DQ ++ u16 "dxa"
                  ++ DQ ++ u16 "/>" ++ u16 "<w:tblLook w:val=" ++ DQ ++ u16 "04A0" ++ DQ
                  ++ u16 " w:firstRow=" ++ DQ ++ u16 "1" ++ DQ ++ u16 "/></w:tblPr>"
                  ++ u16 "<w:tblGrid>" ++ t)
             = countOcc TR t).
  { intros t. generalize dependent (tableGrid st). intros g Hg. count_rows. }
  assert (H2 : forall t, countOcc TR (u16 "</w:tblGrid>" ++ u16 "<w:tr>" ++ t)
                         = S (countOcc TR t)).
  { intros t. count_rows. }
  assert (H3 : forall t, countOcc TR (u16 "</w:tr>" ++ t) = countOcc TR t).
  { intros t. count_rows. }
  repeat rewrite <- app_assoc. rewrite H1.
  rewrite !countTR_gridCol, H2.
  rewrite !countTR_hdrCell by assumption. now rewrite H3.
Qed.

Lemma countTR_record (st : StyleMap) (r : ParsedRecord) (rest : jsstring) :
  stylesNoLt st = true ->
  countOcc TR (recordXml st r ++ rest)
  = ((match r with RFeature _ _ | RVerbatim _ => 0 | _ => 1 end) + countOcc TR rest)%nat.
Proof.
  unfold stylesNoLt. intros H.
  repeat (apply andb_true_iff in H as [H ?]).
  destruct r; cbn [recordXml]; try (now apply countTR_dataRow).
  - unfold xmlH2, xmlBody. repeat rewrite <- app_assoc.
    rewrite !countTR_styledPara by assumption. now apply countTR_spacer.
  - unfold xmlBullet. now apply countTR_styledPara.
Qed.

Lemma countTR_records (st : StyleMap) (scopeId : jsstring) (bullets : list jsstring)
    (rest : jsstring) :
  stylesNoLt st = true ->
  countOcc TR (concat (map (fun b => recordXml st (parseFinding scopeId b)) bullets) ++ rest)
  = ((if isTableCase (switchOn scopeId) then length bullets else 0) + countOcc TR rest)%nat.
Proof.
  intros H. induction bullets as [|b bs IH].
  - cbn [map concat app length]. now destruct (isTableCase (switchOn scopeId)).
  - cbn [map concat length]. rewrite <- app_assoc, countTR_record, IH by exact H.
    unfold parseFinding. destruct (switchOn scopeId); cbn [isTableCase];
      try reflexivity;
      first [ now destruct (parseFeature b)
            | now destruct (parseDeprecated b) as [[? ?] ?]
            | now destruct (parseDeployment b) as [[? ?] ?]
            | now destruct (parseSecurity b) as [[? ?] ?]
            | now destruct (parseMigration b) as [[? ?] ?] ].
Qed.

(** X26.  When no style id and no fill holds the sign that opens a tag,
    the fragment of a scope with findings has no table row if the scope is
    laid out as paragraphs, and otherwise one header row and exactly one
    row per finding, whatever the findings say. *)
Theorem one_row_per_finding (h : Host) (scope : Scope) (bullets : list jsstring)
    (st : StyleMap) :
  bullets <> [] -> stylesNoLt st = true ->
  countOcc TR (buildScopeXml h scope bullets st)
  = if isTableCase (switchOn (scope_id scope)) then S (length bullets) else 0%nat.
Proof.
  intros Hne Hst. rewrite buildScopeXml_in_order.
  destruct bullets as [|b0 bs]; [congruence|]. unfold sectionInOrder.
  set (l := b0 :: bs).
  pose proof Hst as H. unfold stylesNoLt in H.
  repeat (apply andb_true_iff in H as [H ?]).
  assert (Hend : countOcc TR (xmlSpacer st) = 0%nat).
  { rewrite <- (app_nil_r (xmlSpacer st)), countTR_spacer by assumption. reflexivity. }
  assert (Hclose : countOcc TR (u16 "</w:tbl>" ++ xmlSpacer st) = 0%nat).
  { rewrite <- Hend. count_rows. }
  unfold sectionIntro, sectionOutro, tableSection, xmlH1, xmlBody.
  destruct (switchOn (scope_id scope)) eqn:E; cbn [isTableCase];
    repeat rewrite <- app_assoc;
    rewrite ?countTR_styledPara, ?countTR_spacer, ?countTR_tableOpen by assumption;
    rewrite countTR_records by exact Hst; rewrite E; cbn [isTableCase];
    rewrite ?Hclose, ?Hend.
  all: try lia.
  reflexivity.
Qed.

Lemma one_row_per_finding_witness :
  countOcc TR
    (buildScopeXml testHost {| scope_id := u16 "deprecated"; scope_label := u16 "Deprecated" |}
       [finding1; u16 "</w:tr><w:tr> is text"] DEFAULT_STYLES) = 3%nat.
Proof.
  refine (eq_trans (one_row_per_finding testHost _ _ DEFAULT_STYLES _ _) _).
  - discriminate.
  - vm_compute. reflexivity.
  - vm_compute. reflexivity.
Defined.

(** ** The plain-text report *)

Example exportToTxt_example :
  exportToTxt testHost (u16 "06 May 2024")
    [{| entry_id := u16 "security"; entry_label := u16 "Security & Compliance";
        entry_icon := u16 "⬡"; entry_color := u16 "#34D399" |}]
    {[ u16 "security" := [u16 "Passwords must be rotated"] ]}
    (u16 "notes v2.pdf") 1 {| doc_title := noTitle; revision := None |}
  = (u16 "ReleaseLens_notes_v2_pdf_2024-05-06.txt",
     join LF
       [ line (u16 "="); u16 "  RELEASE INTELLIGENCE REPORT"; u16 "  notes v2.pdf";
         u16 "  Release Analysis & Change Summary"; line (u16 "=");
         u16 "  Generated : 06 May 2024";
         u16 "  Findings  : 1 across 1 scope modules";
         u16 "  Engine    : Claude AI (Anthropic) via ReleaseLens";
         line (u16 "="); []; u16 "EXECUTIVE SUMMARY"; line (u16 "-");
         u16 "This report contains AI-extracted findings from " ++ DQ ++ u16 "notes v2.pdf"
           ++ DQ ++ u16 ".";
         u16 "1 analysis modules were run, yielding 1 total findings.";
         []; u16 "SCOPE OVERVIEW"; line (u16 "-");
         u16 "  ⬡  Security & Compliance               1 finding";
         []; line (u16 "="); [];
         []; line (u16 "─"); u16 "⬡  SECURITY & COMPLIANCE"; line (u16 "─"); [];
         u16 "  [01]  Passwords must be rotated"; [];
         []; line (u16 "="); u16 "  END OF REPORT"; line (u16 "=") ]).
Proof. vm_compute. reflexivity. Qed.

Example hex_examples :
  hex testHost (u16 "#00d4ff") = u16 "00D4FF"
  /\ hex testHost (u16 "abc") = u16 "ABC000"
  /\ hex testHost (u16 "0066CC99") = u16 "0066CC".
Proof. repeat split; vm_compute; reflexivity. Qed.

Lemma safeName_units (src : jsstring) :
  src <> [] ->
  (0 < length (slice (replaceAll true src reUnsafe (u16 "_")) 0 40) <= 40)%nat
  /\ forallb isNameUnit (slice (replaceAll true src reUnsafe (u16 "_")) 0 40) = true.
Proof.
  intros Hsrc. unfold reUnsafe. rewrite replaceAll_class.
  change 40 with (Z.of_nat 40). rewrite slice_0_cap.
  assert (E : flat_map (classUnit true true [CRange 97 122; CRange 48 57] (u16 "_")) src
              = map (fun d => if inClass true true [CRange 97 122; CRange 48 57] d
                              then 95%N else d) src).
  { rewrite <- flat_map_singleton. apply flat_map_pointwise. intros d. unfold classUnit.
    destruct (inClass true true [CRange 97 122; CRange 48 57] d); reflexivity. }
  rewrite E. split.
  - rewrite length_take, length_map. destruct src; [congruence|]. cbn [length]. lia.
  - apply forallb_take, forallb_forall. intros c Hc.
    apply in_map_iff in Hc as [d [<- _]]. apply unsafe_unit_replaced.
Qed.

(** X27.  The name of the text report is ReleaseLens_, a name part, an
    underscore, the first ten units of the date and .txt.  The name part is
    made from the document name alone, never from the title; it is not
    empty, has at most 40 code units, and each is an ASCII letter, a digit
    or an underscore. *)
Theorem exportToTxt_name_safe (h : Host) (dateStr : jsstring) (scopes : list ScopeEntry)
    (results : gmap jsstring (list jsstring)) (docName : jsstring) (total : N)
    (docTitle : ReportTitle) :
  exists n : jsstring,
    fst (exportToTxt h dateStr scopes results docName total docTitle)
    = u16 "ReleaseLens_" ++ n ++ u16 "_" ++ slice (isoDate h) 0 10 ++ u16 ".txt"
    /\ n = slice (replaceAll true (orElse docName (u16 "analysis")) reUnsafe (u16 "_")) 0 40
    /\ (0 < length n <= 40)%nat
    /\ forallb isNameUnit n = true.
Proof.
  eexists. split; [reflexivity|]. split; [reflexivity|].
  apply safeName_units. destruct docName; discriminate.
Qed.

(** ** Totals of a report *)

Lemma scopeList_builtin_ids (selectedScopes : jsset) :
  Forall (fun id => isBuiltIn id = true) selectedScopes ->
  map entry_id (scopeList selectedScopes []) = selectedScopes.
Proof.
  intros H. rewrite scopeList_ids. cbn [map]. rewrite app_nil_r.
  induction H as [|id l Hid Hl IH]; [reflexivity|].
  cbn [List.filter]. rewrite Hid. now rewrite IH.
Qed.

Lemma list_sum_cons (x : nat) (l : list nat) : list_sum (x :: l) = (x + list_sum l)%nat.
Proof. reflexivity. Qed.

(** X28.  After an analysis that did not fail, of scopes of the catalogue,
    the total of findings that the report states in its header is the sum
    of the counts that its overview lists, custom scopes included (they
    count for nothing). *)
Theorem report_totals_agree (askModel : jsstring -> jsstring -> option jsstring)
    (fullText : jsstring) (selectedScopes : jsset) (customScopes : list ScopeEntry) :
  let a := analyseScopes askModel fullText selectedScopes in
  failed a = false ->
  Forall (fun id => isBuiltIn id = true) selectedScopes ->
  Forall (fun c => ~ In (entry_id c) selectedScopes) customScopes ->
  Z.of_nat (list_sum (map (fun s => length (default [] (resultMap a !! entry_id s)))
                          (scopeList selectedScopes customScopes)))
  = totalFindings a.
Proof.
  intros a Hf Hb Hc. subst a. unfold analyseScopes in *.
  destruct (analyseLoop_spec askModel fullText selectedScopes (initMap selectedScopes) 0)
    as (I1 & _ & _ & I4 & I5).
  set (a := analyseLoop askModel fullText selectedScopes (initMap selectedScopes) 0) in *.
  rewrite (I5 Hf), Z.add_0_l. f_equal.
  assert (Hsplit : scopeList selectedScopes customScopes
                   = scopeList selectedScopes [] ++ customScopes).
  { unfold scopeList. now rewrite app_nil_r. }
  rewrite Hsplit, map_app, list_sum_app. clear Hsplit.
  assert (Hcustom : list_sum (map (fun s => length (default [] (resultMap a !! entry_id s)))
                                  customScopes) = 0%nat).
  { induction Hc as [|c l Hc Hl IH]; [reflexivity|].
    rewrite map_cons, list_sum_cons, IH, (I1 _ Hc), initMap_lookup.
    rewrite (proj2 (setHas_not_In _ _) Hc). reflexivity. }
  rewrite Hcustom, Nat.add_0_r.
  rewrite <- (map_map entry_id (fun id => length (default [] (resultMap a !! id)))).
  rewrite (scopeList_builtin_ids _ Hb).
  assert (Hsel : forall l, (forall id, In id l -> In id selectedScopes) ->
            list_sum (map (fun id => length (default [] (resultMap a !! id))) l)
            = length (flat_map (fun id => default [] (callClaude askModel id fullText)) l)).
  { induction l as [|id l IH]; intros Hl; [reflexivity|].
    rewrite map_cons, list_sum_cons. cbn [flat_map].
    rewrite length_app, IH by (intros; apply Hl; now right).
    now rewrite (I4 Hf id (Hl id (or_introl eq_refl))). }
  apply Hsel. auto.
Qed.

Lemma report_totals_agree_witness :
  Z.of_nat (list_sum
              (map (fun s => length (default []
                                       (resultMap
                                          (analyseScopes
                                             (fun _ _ => Some (u16 "1. First finding of the list"))
                                             [] INITIAL_SCOPES) !! entry_id s)))
                   (scopeList INITIAL_SCOPES [])))
  = 3.
Proof.
  refine (eq_trans
            (report_totals_agree (fun _ _ => Some (u16 "1. First finding of the list"))
               [] INITIAL_SCOPES [] _ _ _) _).
  - vm_compute. reflexivity.
  - repeat constructor.
  - constructor.
  - vm_compute. reflexivity.
Defined.

(** ** Colours of the docx exporter *)

Lemma replaceFirst_hash (c : jsstring) :
  replaceFirst false c reHash [] = if isPrefix [35%N] c then drop 1 c else c.
Proof.
  unfold replaceFirst, reHash. rewrite exec_anchored, m_Lit, litMatch_isPrefix.
  cbn [pos]. rewrite drop_0. change (u16 "#") with [35%N].
  destruct (isPrefix [35%N] c); reflexivity.
Qed.

Lemma padEnd_full (t : jsstring) (n : nat) (c : N) :
  (n <= length t)%nat -> padEnd t n c = t.
Proof.
  intros H. unfold padEnd. replace (n - length t)%nat with 0%nat by lia. apply app_nil_r.
Qed.

Lemma padEnd_length (t : jsstring) (n : nat) (c : N) :
  (length t <= n)%nat -> length (padEnd t n c) = n.
Proof. intros H. unfold padEnd. rewrite length_app, repeat_length. lia. Qed.

(** X29.  The colour helper of the docx exporter gives six code units for
    every ASCII text, and for a colour of six hexadecimal digits, with or
    without the leading hash sign, these digits in upper case. *)
Theorem hex_colour (h : Host) (c : jsstring) :
  (forallb isAscii c = true -> length (hex h c) = 6%nat)
  /\ (forallb isHex c = true -> length c = 6%nat ->
      hex h c = map asciiUp c /\ hex h (35%N :: c) = map asciiUp c
      /\ forallb isUpperHex (hex h c) = true).
Proof.
  split.
  - intros Ha. unfold hex. apply padEnd_length.
    set (t := slice (replaceFirst false c reHash []) 0 6).
    assert (Ht : forallb isAscii t = true /\ (length t <= 6)%nat).
    { subst t. change 6 with (Z.of_nat 6). rewrite slice_0_cap, replaceFirst_hash. split.
      - apply forallb_take. destruct (isPrefix [35%N] c); [|exact Ha].
        now apply forallb_drop.
      - rewrite length_take. lia. }
    destruct Ht as [Ht Hl]. unfold toUpperCase. rewrite Ht. now rewrite length_map.
  - intros Hh Hl.
    assert (Hfirst : isPrefix [35%N] c = false).
    { destruct c as [|x r]; [reflexivity|]. rewrite isPrefix_unit.
      cbn [forallb] in Hh. apply andb_true_iff in Hh as [Hx _].
      destruct (N.eqb_spec 35 x) as [<-|_]; [discriminate Hx|reflexivity]. }
    assert (Hc : hex h c = map asciiUp c).
    { unfold hex. rewrite replaceFirst_hash, Hfirst.
      change 6 with (Z.of_nat 6). rewrite slice_0_cap, take_ge by lia.
      rewrite toUpperCase_hex by exact Hh.
      apply padEnd_full. rewrite length_map. lia. }
    split; [exact Hc|]. split.
    + unfold hex. rewrite replaceFirst_hash. rewrite isPrefix_unit, N.eqb_refl.
      cbn [drop]. rewrite drop_0.
      change 6 with (Z.of_nat 6). rewrite slice_0_cap, take_ge by lia.
      rewrite toUpperCase_hex by exact Hh.
      apply padEnd_full. rewrite length_map. lia.
    + rewrite Hc. now apply map_asciiUp_hex.
Qed.

Lemma hex_colour_witness :
  hex testHost (u16 "#00d4ff") = u16 "00D4FF".
Proof.
  refine (eq_trans
            (proj1 (proj2 (proj2 (hex_colour testHost (u16 "00d4ff")) _ _))) _).
  - vm_compute. reflexivity.
  - vm_compute. reflexivity.
  - vm_compute. reflexivity.
Defined.

(** ** The fragment of a scope without findings, read as markup *)

Lemma tokensFrom_text (u rest cur : jsstring) :
  noLt u = true ->
  tokensFrom InText cur (u ++ rest) = tokensFrom InText (cur ++ u) rest.
Proof.
  revert cur. induction u as [|c u IH]; intros cur H.
  - now rewrite app_nil_r.
  - cbn [noLt forallb] in H. apply andb_true_iff in H as [Hc Hu].
    apply negb_true_iff in Hc. cbn [app tokensFrom]. rewrite Hc.
    rewrite IH by exact Hu. now rewrite <- app_assoc.
Qed.

Lemma tokensFrom_quoted (u rest cur : jsstring) :
  ~ In 34%N u ->
  tokensFrom InQuote cur (u ++ rest) = tokensFrom InQuote (cur ++ u) rest.
Proof.
  revert cur. induction u as [|c u IH]; intros cur H.
  - now rewrite app_nil_r.
  - cbn [app tokensFrom].
    destruct (N.eqb_spec c 34) as [->|Hc]; [exfalso; apply H; now left|].
    rewrite IH by (intros Hin; apply H; now right). now rewrite <- app_assoc.
Qed.

Lemma tokens_styledPara (style text rest : jsstring) :
  ~ In 34%N style ->
  tokensFrom InText [] (styledPara style text ++ rest)
  = paraTokens style (xmlEsc text) ++ tokensFrom InText [] rest.
Proof.
  intros Hs. pose proof (xmlEsc_noLt text) as He.
  unfold styledPara, paraTokens. generalize dependent (xmlEsc text). intros e He.
  literals. repeat first [rewrite <- app_assoc | progress cbn [app]].
  cbn [tokensFrom N.eqb Pos.eqb textTok app].
  rewrite tokensFrom_quoted by exact Hs.
  cbn [tokensFrom N.eqb Pos.eqb textTok app].
  rewrite tokensFrom_text by exact He.
  cbn [tokensFrom N.eqb Pos.eqb app].
  repeat first [rewrite <- app_assoc | progress cbn [app]].
  reflexivity.
Qed.

Lemma tokens_xmlSpacer (st : StyleMap) (rest : jsstring) :
  ~ In 34%N (body st) ->
  tokensFrom InText [] (xmlSpacer st ++ rest)
  = emptyParaTokens (body st) ++ tokensFrom InText [] rest.
Proof.
  intros Hs. unfold xmlSpacer, emptyParaTokens. generalize dependent (body st). intros b Hs.
  literals. repeat first [rewrite <- app_assoc | progress cbn [app]].
  cbn [tokensFrom N.eqb Pos.eqb textTok app].
  rewrite tokensFrom_quoted by exact Hs.
  cbn [tokensFrom N.eqb Pos.eqb textTok app].
  repeat first [rewrite <- app_assoc | progress cbn [app]].
  reflexivity.
Qed.

(** The tags and the text of the fragment, for a style map whose heading
    and body ids hold no double quote. *)
Lemma empty_fragment_tokens (h : Host) (scope : Scope) (st : StyleMap) :
  ~ In 34%N (h1 st) -> ~ In 34%N (body st) ->
  tokens (buildScopeXml h scope [] st)
  = paraTokens (h1 st) (flat_map escOne (scope_label scope))
      ++ paraTokens (body st) (flat_map escOne (noFindingsText h scope))
      ++ emptyParaTokens (body st).
Proof.
  intros H1 H2. unfold tokens. cbn [buildScopeXml]. fold (noFindingsText h scope).
  unfold xmlH1, xmlBody.
  rewrite tokens_styledPara by exact H1.
  rewrite tokens_styledPara by exact H2.
  rewrite <- (app_nil_r (xmlSpacer st)).
  rewrite tokens_xmlSpacer by exact H2.
  rewrite !xmlEsc_one_pass. cbn [tokensFrom textTok]. now rewrite app_nil_r.
Qed.

(** The heading and body ids of a style map that the resolver yields hold
    no double quote. *)
Lemma resolved_ids_no_quote (h : Host) (zip : gmap jsstring bytes) :
  ~ In 34%N (h1 (stylesOfArchive h zip)) /\ ~ In 34%N (body (stylesOfArchive h zip)).
Proof.
  unfold stylesOfArchive.
  destruct (zip !! stylesPath) as [raw|].
  - cbn [h1 body].
    pose proof (scanStyles_keys h (utf8decode h raw) (S (length (utf8decode h raw))) 0 []
                  (Forall_nil_2 _)) as Hk.
    split; (apply (role_key (fun id => ~ In 34%N id)); [exact Hk|]);
      vm_compute; intuition discriminate.
  - split; vm_compute; intuition discriminate.
Qed.

(** C8.  For every scope and every style map that the resolver yields
    (the default map when the archive has no catalogue), the fragment of
    an empty list of findings reads as exactly three paragraphs and
    nothing else: one of the heading style whose run holds the label of
    the scope, one of the body style whose run holds the notice that
    nothing was identified ([No], the label in lower case, [identified in
    this document.]), both texts escaped, and one of the body style
    without a run.  So it has three paragraph elements, its runs of text
    are the label (when it is not empty) and the notice, and it has no
    table element. *)
Theorem empty_scope_fragment (h : Host) (zip : gmap jsstring bytes) (scope : Scope) :
  let st := stylesOfArchive h zip in
  let frag := buildScopeXml h scope [] st in
  tokens frag
  = paraTokens (h1 st) (flat_map escOne (scope_label scope))
      ++ paraTokens (body st) (flat_map escOne (noFindingsText h scope))
      ++ emptyParaTokens (body st)
  /\ length (filter (isOpenTag (u16 "w:p")) (tokens frag)) = 3%nat
  /\ filter isText (tokens frag)
     = textTok (flat_map escOne (scope_label scope))
         ++ [Text (flat_map escOne (noFindingsText h scope))]
  /\ existsb (isOpenTag (u16 "w:tbl")) (tokens frag) = false.
Proof.
  cbv zeta. destruct (resolved_ids_no_quote h zip) as [H1 H2].
  rewrite (empty_fragment_tokens h scope _ H1 H2).
  split; [reflexivity|].
  unfold noFindingsText.
  generalize (h1 (stylesOfArchive h zip)) (body (stylesOfArchive h zip)).
  generalize (toLowerCase h (scope_label scope)). intros low a b.
  generalize (flat_map escOne (scope_label scope)). intros e1.
  change (flat_map escOne (u16 "No " ++ low ++ u16 " identified in this document."))
    with (u16 "No " ++ flat_map escOne (low ++ u16 " identified in this document.")).
  generalize (flat_map escOne (low ++ u16 " identified in this document.")). intros e2.
  unfold paraTokens, emptyParaTokens. literals.
  destruct e1 as [|c e1]; repeat split; reflexivity.
Qed.

